(** * PkSpawn: the persistent helper-process dispatcher of PackageKit

    A shallow embedding of [src/pk-spawn.c].  The private structure
    [PkSpawnPrivate] is a record, every function of the file is a state
    passing function over it, and whatever the operating system or GLib
    answers (the bytes a [read] returns, the result of [waitpid], [write],
    [kill] and [g_spawn_async_with_pipes], the configured nice value) is an
    explicit argument.  What the code does to the outside world (signals
    emitted, bytes written, signals sent, processes spawned) is put on a log,
    newest first, so that properties of executions are properties of that
    log.  [g_main_loop_run], in which a graceful exit waits for the reap, is
    the dispatch of the events the main context brings (poll ticks, timers,
    calls of the public functions from other sources) for as long as the loop
    is marked running. *)

From Stdlib Require Import ZArith Lia Bool Ascii String.
From stdpp Require Import base option list strings gmap.

Local Open Scope Z_scope.

(** ** C integers and C strings *)

Module C.

(** A [guint] is 32 bits wide: arithmetic on it wraps. *)
Definition guint (z : Z) : Z := z mod 2 ^ 32.

(** A [gint] is the signed reading of the same 32 bits. *)
Definition gint (z : Z) : Z := (z + 2 ^ 31) mod 2 ^ 32 - 2 ^ 31.

Definition NUL : ascii := Ascii.zero.
Definition LF : ascii := Ascii.ascii_of_nat 10.
Definition TAB : ascii := Ascii.ascii_of_nat 9.

(** What a [gchar *] denotes: the bytes before the first NUL. *)
Fixpoint c_str (s : string) : string :=
  match s with
  | EmptyString => EmptyString
  | String c s' => if Ascii.eqb c NUL then EmptyString else String c (c_str s')
  end.

Definition strlen (s : string) : Z := Z.of_nat (String.length (c_str s)).

Fixpoint str_drop (n : nat) (s : string) : string :=
  match n, s with
  | O, _ => s
  | S _, EmptyString => EmptyString
  | S n', String _ s' => str_drop n' s'
  end.

Fixpoint str_take (n : nat) (s : string) : string :=
  match n, s with
  | O, _ => EmptyString
  | S _, EmptyString => EmptyString
  | S n', String c s' => String c (str_take n' s')
  end.

Fixpoint str_mem (c : ascii) (s : string) : bool :=
  match s with
  | EmptyString => false
  | String d s' => Ascii.eqb c d || str_mem c s'
  end.

End C.

(** ** The GLib functions the file calls *)

Module GLib.
Import C.

(** [g_string_append (string, val)]: appends the C string [val]. *)
Definition g_string_append (gs val : string) : string := gs +:+ c_str val.

(** [g_string_erase (string, pos, len)] with [len >= 0]: removes [len] bytes
    from [pos]; GLib refuses (and leaves the string alone) when the range
    does not lie inside the string. *)
Definition g_string_erase (gs : string) (pos len : Z) : string :=
  if (0 <=? pos) && (0 <=? len) && (pos + len <=? Z.of_nat (String.length gs))
  then str_take (Z.to_nat pos) gs +:+ str_drop (Z.to_nat (pos + len)) gs
  else gs.

(** The segments of a string between newlines; never empty. *)
Fixpoint split_nl (s : string) : list string :=
  match s with
  | EmptyString => [EmptyString]
  | String c s' =>
      if Ascii.eqb c LF then EmptyString :: split_nl s'
      else match split_nl s' with
           | [] => [String c EmptyString]
           | seg :: segs => String c seg :: segs
           end
  end.

(** [g_strsplit (string, "\n", 0)]: the empty string gives the empty
    vector, any other string gives one segment more than it has newlines. *)
Definition g_strsplit_nl (s : string) : list string :=
  match c_str s with
  | EmptyString => []
  | String _ _ => split_nl (c_str s)
  end.

(** [g_strv_length]: a [guint]. *)
Definition g_strv_length (v : list string) : Z := guint (Z.of_nat (length v)).

(** [g_strjoinv (separator, str_array)]. *)
Fixpoint g_strjoinv (sep : string) (v : list string) : string :=
  match v with
  | [] => EmptyString
  | [s] => c_str s
  | s :: v' => c_str s +:+ sep +:+ g_strjoinv sep v'
  end.

End GLib.

(** ** The string helpers of egg-string.c *)

Module Egg.
Import C.

(** Modelled from the spec: [egg_strzero] is defined in egg-string.c, which
    is not part of the sources at hand.  The caller's comment reads
    "if nothing then don't emit": the string is absent or has no byte. *)
Definition egg_strzero (s : option string) : bool :=
  match s with
  | None => true
  | Some t => match c_str t with EmptyString => true | String _ _ => false end
  end.

(** Modelled from the spec: [egg_strequal] is defined in egg-string.c, which
    is not part of the sources at hand.  "[argv[0]] equals [last_argv0]":
    both strings are there and hold the same bytes. *)
Definition egg_strequal (a b : option string) : bool :=
  match a, b with
  | Some x, Some y => bool_decide (c_str x = c_str y)
  | _, _ => false
  end.

(** Modelled from the spec: [egg_strvequal] is defined in egg-string.c, which
    is not part of the sources at hand.  "[envp] is element-wise equal to
    [last_envp] (absent == absent)", "absent envp and empty envp are equal to
    themselves only", "element-wise, order-sensitive". *)
Fixpoint strv_all_equal (a b : list string) : bool :=
  match a, b with
  | [], [] => true
  | x :: a', y :: b' => egg_strequal (Some x) (Some y) && strv_all_equal a' b'
  | _, _ => false
  end.

Definition egg_strvequal (a b : option (list string)) : bool :=
  match a, b with
  | None, None => true
  | Some x, Some y => strv_all_equal x y
  | _, _ => false
  end.

End Egg.

(** ** The spawner *)

Module PkSpawn.
Import C GLib Egg.

(** The constants of the C library the file compares with. *)
Definition EPERM : Z := 1.
Definition EINVAL : Z := 22.
Definition PK_SPAWN_POLL_DELAY : Z := 50.
Definition PK_SPAWN_SIGKILL_DELAY : Z := 500.

(** [WEXITSTATUS (status)] of <sys/wait.h>: bits 8 to 15 of the status. *)
Definition WEXITSTATUS (status : Z) : Z := Z.shiftr (Z.land status 65280) 8.

(** [CLAMP (x, low, high)] of GLib. *)
Definition CLAMP (x low high : Z) : Z :=
  if high <? x then high else if x <? low then low else x.

(** Modelled from the spec: the enumeration [PkSpawnExitType] is declared in
    pk-spawn.h, which is not part of the sources at hand; the constructors
    are the names pk-spawn.c uses, the closed set of exit classifications. *)
Inductive PkSpawnExitType : Type :=
| PK_SPAWN_EXIT_TYPE_SUCCESS
| PK_SPAWN_EXIT_TYPE_FAILED
| PK_SPAWN_EXIT_TYPE_SIGQUIT
| PK_SPAWN_EXIT_TYPE_SIGKILL
| PK_SPAWN_EXIT_TYPE_DISPATCHER_CHANGED
| PK_SPAWN_EXIT_TYPE_DISPATCHER_EXIT
| PK_SPAWN_EXIT_TYPE_UNKNOWN.

#[global] Instance PkSpawnExitType_eq_dec : EqDecision PkSpawnExitType.
Proof. solve_decision. Defined.

Inductive signum : Type := SIGQUIT | SIGKILL.

#[global] Instance signum_eq_dec : EqDecision signum.
Proof. solve_decision. Defined.

(** The two callbacks the file hands to [g_timeout_add]. *)
Inductive GSourceFunc : Type := CheckChild | SigkillCb.

#[global] Instance GSourceFunc_eq_dec : EqDecision GSourceFunc.
Proof. solve_decision. Defined.

(** [struct PkSpawnPrivate].  [exit_loop] keeps what the code reads of the
    [GMainLoop]: whether it is running.  [conf] is read once per launch and
    is an argument of the launch. *)
Record PkSpawnPrivate : Type := mkPriv {
  child_pid : Z;
  stdin_fd : Z;
  stdout_fd : Z;
  poll_id : Z;
  kill_id : Z;
  finished : bool;
  is_sending_exit : bool;
  is_changing_dispatcher : bool;
  exit : PkSpawnExitType;
  exit_loop : bool;
  stdout_buf : string;
  last_argv0 : option string;
  last_envp : option (list string)
}.

(** What the code does to its surroundings, newest first in the log: the
    two signals of the object, the system calls with an effect, and, for
    GLib, the dispatch of one of the two callbacks. *)
Inductive effect : Type :=
| EmitStdout (line : string)          (* g_signal_emit, "stdout" *)
| EmitExit (e : PkSpawnExitType)      (* g_signal_emit, "exit" *)
| SysKill (pid : Z) (sig : signum)    (* kill *)
| SysWrite (fd : Z) (data : string) (wrote : Z)   (* write, and its result *)
| SysClose (fd : Z)                   (* close *)
| SysSpawn (argv : list string) (envp : option (list string)) (ok : bool)
                                      (* g_spawn_async_with_pipes *)
| SysSetpriority (pid nice : Z)       (* setpriority *)
| SysSetNonblock (fd : Z)             (* fcntl (fd, F_SETFL, O_NONBLOCK) *)
| Fired (id : Z) (f : GSourceFunc).   (* the source [id] is dispatched *)

(** The spawner in its surroundings: the timeout sources GLib holds for it
    (by source id), the id GLib hands out next, and the log. *)
Record World : Type := mkWorld {
  priv : PkSpawnPrivate;
  sources : gmap Z GSourceFunc;
  next_source_id : Z;
  log : list effect
}.

(** *** Answers of the operating system *)

(** [kill (2)]: the value returned and [errno]. *)
Record kill_result : Type := mkKill { kill_ret : Z; kill_errno : Z }.

(** POSIX: [kill] returns 0, or -1 with [errno] set. *)
Definition posix_kill (kr : kill_result) : Prop :=
  kill_ret kr = 0 \/ (kill_ret kr = -1 /\ 0 < kill_errno kr).

(** One poll tick: the chunks the successive [read]s deliver until one
    returns nothing, and what [waitpid (.., WNOHANG)] returns and stores. *)
Record poll_obs : Type := mkPoll {
  reads : list string;
  wait_ret : Z;
  wait_status : Z
}.

(** [g_spawn_async_with_pipes]: on success the child and its two pipes. *)
Record spawn_result : Type := mkSpawn {
  spawn_ok : bool;
  new_pid : Z;
  new_stdin : Z;
  new_stdout : Z
}.

(** Everything a launch asks of its surroundings. *)
Record argv_os : Type := mkArgvOs {
  wrote_command : Z;
  wrote_exit : Z;
  spawned : spawn_result;
  nice_conf : Z
}.

(** *** Field updates *)

Definition set_child_pid (v : Z) (p : PkSpawnPrivate) : PkSpawnPrivate :=
  mkPriv v (stdin_fd p) (stdout_fd p) (poll_id p) (kill_id p) (finished p)
    (is_sending_exit p) (is_changing_dispatcher p) (exit p) (exit_loop p)
    (stdout_buf p) (last_argv0 p) (last_envp p).
Definition set_stdin_fd (v : Z) (p : PkSpawnPrivate) : PkSpawnPrivate :=
  mkPriv (child_pid p) v (stdout_fd p) (poll_id p) (kill_id p) (finished p)
    (is_sending_exit p) (is_changing_dispatcher p) (exit p) (exit_loop p)
    (stdout_buf p) (last_argv0 p) (last_envp p).
Definition set_stdout_fd (v : Z) (p : PkSpawnPrivate) : PkSpawnPrivate :=
  mkPriv (child_pid p) (stdin_fd p) v (poll_id p) (kill_id p) (finished p)
    (is_sending_exit p) (is_changing_dispatcher p) (exit p) (exit_loop p)
    (stdout_buf p) (last_argv0 p) (last_envp p).
Definition set_poll_id (v : Z) (p : PkSpawnPrivate) : PkSpawnPrivate :=
  mkPriv (child_pid p) (stdin_fd p) (stdout_fd p) v (kill_id p) (finished p)
    (is_sending_exit p) (is_changing_dispatcher p) (exit p) (exit_loop p)
    (stdout_buf p) (last_argv0 p) (last_envp p).
Definition set_kill_id (v : Z) (p : PkSpawnPrivate) : PkSpawnPrivate :=
  mkPriv (child_pid p) (stdin_fd p) (stdout_fd p) (poll_id p) v (finished p)
    (is_sending_exit p) (is_changing_dispatcher p) (exit p) (exit_loop p)
    (stdout_buf p) (last_argv0 p) (last_envp p).
Definition set_finished (v : bool) (p : PkSpawnPrivate) : PkSpawnPrivate :=
  mkPriv (child_pid p) (stdin_fd p) (stdout_fd p) (poll_id p) (kill_id p) v
    (is_sending_exit p) (is_changing_dispatcher p) (exit p) (exit_loop p)
    (stdout_buf p) (last_argv0 p) (last_envp p).
Definition set_is_sending_exit (v : bool) (p : PkSpawnPrivate) : PkSpawnPrivate :=
  mkPriv (child_pid p) (stdin_fd p) (stdout_fd p) (poll_id p) (kill_id p)
    (finished p) v (is_changing_dispatcher p) (exit p) (exit_loop p)
    (stdout_buf p) (last_argv0 p) (last_envp p).
Definition set_is_changing_dispatcher (v : bool) (p : PkSpawnPrivate) : PkSpawnPrivate :=
  mkPriv (child_pid p) (stdin_fd p) (stdout_fd p) (poll_id p) (kill_id p)
    (finished p) (is_sending_exit p) v (exit p) (exit_loop p)
    (stdout_buf p) (last_argv0 p) (last_envp p).
Definition set_exit (v : PkSpawnExitType) (p : PkSpawnPrivate) : PkSpawnPrivate :=
  mkPriv (child_pid p) (stdin_fd p) (stdout_fd p) (poll_id p) (kill_id p)
    (finished p) (is_sending_exit p) (is_changing_dispatcher p) v (exit_loop p)
    (stdout_buf p) (last_argv0 p) (last_envp p).
Definition set_exit_loop (v : bool) (p : PkSpawnPrivate) : PkSpawnPrivate :=
  mkPriv (child_pid p) (stdin_fd p) (stdout_fd p) (poll_id p) (kill_id p)
    (finished p) (is_sending_exit p) (is_changing_dispatcher p) (exit p) v
    (stdout_buf p) (last_argv0 p) (last_envp p).
Definition set_stdout_buf (v : string) (p : PkSpawnPrivate) : PkSpawnPrivate :=
  mkPriv (child_pid p) (stdin_fd p) (stdout_fd p) (poll_id p) (kill_id p)
    (finished p) (is_sending_exit p) (is_changing_dispatcher p) (exit p)
    (exit_loop p) v (last_argv0 p) (last_envp p).
Definition set_last_argv0 (v : option string) (p : PkSpawnPrivate) : PkSpawnPrivate :=
  mkPriv (child_pid p) (stdin_fd p) (stdout_fd p) (poll_id p) (kill_id p)
    (finished p) (is_sending_exit p) (is_changing_dispatcher p) (exit p)
    (exit_loop p) (stdout_buf p) v (last_envp p).
Definition set_last_envp (v : option (list string)) (p : PkSpawnPrivate) : PkSpawnPrivate :=
  mkPriv (child_pid p) (stdin_fd p) (stdout_fd p) (poll_id p) (kill_id p)
    (finished p) (is_sending_exit p) (is_changing_dispatcher p) (exit p)
    (exit_loop p) (stdout_buf p) (last_argv0 p) v.

(** Change the private structure, leave the surroundings. *)
Definition upd (f : PkSpawnPrivate -> PkSpawnPrivate) (w : World) : World :=
  mkWorld (f (priv w)) (sources w) (next_source_id w) (log w).

(** Record one effect. *)
Definition eff (e : effect) (w : World) : World :=
  mkWorld (priv w) (sources w) (next_source_id w) (e :: log w).

(** [g_timeout_add]: GLib registers the callback under a fresh id. *)
Definition g_timeout_add (f : GSourceFunc) (w : World) : Z * World :=
  (next_source_id w,
   mkWorld (priv w) (<[next_source_id w := f]> (sources w))
     (next_source_id w + 1) (log w)).

(** [g_source_remove]. *)
Definition g_source_remove (id : Z) (w : World) : World :=
  mkWorld (priv w) (delete id (sources w)) (next_source_id w) (log w).

(** *** pk_spawn_init *)

Definition pk_spawn_init : PkSpawnPrivate :=
  {| child_pid := -1; stdin_fd := -1; stdout_fd := -1;
     poll_id := 0; kill_id := 0;
     finished := false; is_sending_exit := false;
     is_changing_dispatcher := false;
     exit := PK_SPAWN_EXIT_TYPE_UNKNOWN; exit_loop := false;
     stdout_buf := EmptyString; last_argv0 := None; last_envp := None |}.

(** A new spawner: no source registered, nothing logged. *)
Definition pk_spawn_new : World :=
  {| priv := pk_spawn_init; sources := ∅; next_source_id := 1; log := [] |}.

(** *** pk_spawn_read_fd_into_buffer *)

(** Every chunk read is NUL terminated and appended as a C string. *)
Definition pk_spawn_read_fd_into_buffer (chunks : list string) (gs : string) : string :=
  fold_left g_string_append chunks gs.

(** *** pk_spawn_emit_whole_lines *)

(** The [for] loop: [n] iterations over the vector, emitting [lines[i]] and
    adding [strlen (lines[i]) + 1] to the [guint] counter. *)
Fixpoint emit_lines_loop (n : nat) (lines : list string) (bytes_processed : Z)
  : list string * Z :=
  match n, lines with
  | S n', l :: ls =>
      let r := emit_lines_loop n' ls (guint (bytes_processed + (strlen l + 1))) in
      (l :: r.1, r.2)
  | _, _ => ([], bytes_processed)
  end.

(** Returns the value returned, the lines emitted in order, and the string
    as it is left. *)
Definition pk_spawn_emit_whole_lines (gs : string) : bool * list string * string :=
  if egg_strzero (Some gs) then (false, [], gs)
  else
    let lines := g_strsplit_nl gs in
    let size := g_strv_length lines in
    let r := emit_lines_loop (Z.to_nat (guint (size - 1))) lines 0 in
    (true, r.1, g_string_erase gs 0 r.2).

(** The emissions of the loop, oldest first, put on the log. *)
Definition emit_stdout (lines : list string) (w : World) : World :=
  fold_left (fun w l => eff (EmitStdout l) w) lines w.

(** *** pk_spawn_check_child *)

(** Lines 186 to 193: success or failure, only over "unknown". *)
Definition classify_status (status : Z) (p : PkSpawnPrivate) : PkSpawnPrivate :=
  if 0 <? WEXITSTATUS status then
    if bool_decide (exit p = PK_SPAWN_EXIT_TYPE_UNKNOWN)
    then set_exit PK_SPAWN_EXIT_TYPE_FAILED p else p
  else
    if bool_decide (exit p = PK_SPAWN_EXIT_TYPE_UNKNOWN)
    then set_exit PK_SPAWN_EXIT_TYPE_SUCCESS p else p.

(** Lines 204 to 214: when the exit loop is running, quit it and say why
    the dispatcher was asked to leave. *)
Definition quit_exit_loop (p : PkSpawnPrivate) : PkSpawnPrivate :=
  if exit_loop p then
    let p1 := set_exit_loop false p in
    if is_changing_dispatcher p1
    then set_exit PK_SPAWN_EXIT_TYPE_DISPATCHER_CHANGED p1
    else if is_sending_exit p1
    then set_exit PK_SPAWN_EXIT_TYPE_DISPATCHER_EXIT p1
    else p1
  else p.

(** Lines 173 to 220: the child has exited with [status]. *)
Definition reap_child (status : Z) (w : World) : World :=
  let w1 :=
    if 0 <? poll_id (priv w)
    then upd (set_poll_id 0) (g_source_remove (poll_id (priv w)) w)
    else w in
  let w2 := eff (SysClose (stdout_fd (priv w1))) (eff (SysClose (stdin_fd (priv w1))) w1) in
  let w3 := upd (fun p => set_child_pid (-1) (set_stdout_fd (-1) (set_stdin_fd (-1) p))) w2 in
  let w4 := upd (classify_status status) w3 in
  let w5 := upd (set_finished true) w4 in
  let w6 :=
    if negb (kill_id (priv w5) =? 0)
    then upd (set_kill_id 0) (g_source_remove (kill_id (priv w5)) w5)
    else w5 in
  let w7 := upd quit_exit_loop w6 in
  eff (EmitExit (exit (priv w7))) w7.

Definition pk_spawn_check_child (o : poll_obs) (w : World) : bool * World :=
  if finished (priv w) then (false, w)
  else
    let buf := pk_spawn_read_fd_into_buffer (reads o) (stdout_buf (priv w)) in
    let r := pk_spawn_emit_whole_lines buf in
    let w1 := upd (set_stdout_buf r.2) (emit_stdout r.1.2 w) in
    if negb (wait_ret o =? child_pid (priv w1)) then (true, w1)
    else (false, reap_child (wait_status o) w1).

(** *** pk_spawn_sigkill_cb *)

Definition pk_spawn_sigkill_cb (kr : kill_result) (w : World) : bool * World :=
  if finished (priv w) then (false, w)
  else
    let w1 := upd (set_exit PK_SPAWN_EXIT_TYPE_SIGKILL) w in
    let w2 := eff (SysKill (child_pid (priv w1)) SIGKILL) w1 in
    if kill_ret kr =? EINVAL then (false, w2)
    else if kill_ret kr =? EPERM then (false, w2)
    else (false, w2).

(** *** pk_spawn_kill *)

Definition pk_spawn_kill (kr : kill_result) (w : World) : bool * World :=
  if finished (priv w) then (false, w)
  else
    let w1 := upd (set_exit PK_SPAWN_EXIT_TYPE_SIGQUIT) w in
    let w2 := eff (SysKill (child_pid (priv w1)) SIGQUIT) w1 in
    if kill_ret kr =? EINVAL then (false, w2)
    else if kill_ret kr =? EPERM then (false, w2)
    else
      let t := g_timeout_add SigkillCb w2 in
      (true, upd (set_kill_id t.1) t.2).

(** *** pk_spawn_send_stdin *)

(** [wrote] is what [write] returns; it lands in a [gint] and is compared
    with the [guint] length, that is, as an unsigned number. *)
Definition pk_spawn_send_stdin (command : string) (wrote : Z) (w : World) : bool * World :=
  if finished (priv w) then (false, w)
  else
    let buffer := c_str command +:+ String LF EmptyString in
    let length := guint (strlen buffer) in
    let w1 := eff (SysWrite (stdin_fd (priv w)) buffer wrote) w in
    if negb (guint (gint wrote) =? length) then (false, w1) else (true, w1).

(** *** The main loop *)

(** What one iteration of the main context can bring to the spawner: a
    timeout source of GLib is ready (with the answers the callback will get
    from the operating system), or some other source calls a public
    function, or several sources are ready together and the iteration
    dispatches them one after the other. *)
Inductive api_call : Type :=
| CallKill (kr : kill_result)
| CallExit (wrote : Z)
| CallArgv (argv : list string) (envp : option (list string)) (os : argv_os).

#[warnings="-register-all"]
Inductive event : Type :=
| Dispatch (id : Z) (o : poll_obs) (kr : kill_result)
| Call (c : api_call)
| Iteration (es : list event).

(** A call either returns (with the iterations still to come), or sits in
    [g_main_loop_run] when the iterations at hand end, or dies in
    [egg_error]. *)
Inductive outcome (A : Type) : Type :=
| Returned (a : A) (w : World) (rest : list event)
| Waiting (w : World)
| Fatal (w : World).
Arguments Returned {A} a w rest.
Arguments Waiting {A} w.
Arguments Fatal {A} w.

Definition world_of {A : Type} (o : outcome A) : World :=
  match o with
  | Returned _ w _ => w
  | Waiting w => w
  | Fatal w => w
  end.

(** GLib runs the callback of a ready source, and destroys the source when
    the callback returns FALSE.  An id without a source is not dispatched. *)
Definition dispatch_source (id : Z) (o : poll_obs) (kr : kill_result) (w : World) : World :=
  match sources w !! id with
  | None => w
  | Some f =>
      let w0 := eff (Fired id f) w in
      let r := match f with
               | CheckChild => pk_spawn_check_child o w0
               | SigkillCb => pk_spawn_sigkill_cb kr w0
               end in
      if r.1 then r.2 else g_source_remove id r.2
  end.

Section WithLoop.

(** [g_main_loop_run (spawn->priv->exit_loop)], defined below. *)
Variable g_main_loop_run : World -> list event -> outcome unit.

(** *** pk_spawn_exit *)

Definition pk_spawn_exit (wrote : Z) (w : World) (evs : list event) : outcome bool :=
  if is_sending_exit (priv w) then Returned false w evs
  else
    let w1 := upd (set_is_sending_exit true) w in
    let r := pk_spawn_send_stdin "exit" wrote w1 in
    if r.1 then
      match g_main_loop_run r.2 evs with
      | Returned _ w2 rest => Returned true (upd (set_is_sending_exit false) w2) rest
      | Waiting w2 => Waiting w2
      | Fatal w2 => Fatal w2
      end
    else Returned false (upd (set_is_sending_exit false) r.2) evs.

(** *** pk_spawn_argv *)

(** Lines 424 to 470: spawn, renice, remember the signature, poll.  When
    the spawn fails GLib leaves the three out-parameters as they are;
    [egg_error] ends the process. *)
Definition spawn_instance (argv : list string) (envp : option (list string))
    (os : argv_os) (w : World) (evs : list event) : outcome bool :=
  let w1 := upd (set_finished false) w in
  let sp := spawned os in
  let w2 := eff (SysSpawn argv envp (spawn_ok sp)) w1 in
  let w3 :=
    if spawn_ok sp
    then upd (fun p => set_stdout_fd (new_stdout sp)
                         (set_stdin_fd (new_stdin sp)
                            (set_child_pid (new_pid sp) p))) w2
    else w2 in
  let nice := CLAMP (nice_conf os) (-20) 19 in
  let w4 :=
    if negb (nice =? 0)
    then eff (SysSetpriority (child_pid (priv w3)) nice) w3
    else w3 in
  if negb (spawn_ok sp) then Returned false w4 evs
  else
    let w5 := upd (set_last_argv0 (option_map c_str (head argv))) w4 in
    let w6 := upd (set_last_envp (option_map (List.map c_str) envp)) w5 in
    let w7 := eff (SysSetNonblock (stdout_fd (priv w6))) w6 in
    if negb (poll_id (priv w7) =? 0) then Fatal w7
    else
      let t := g_timeout_add CheckChild w7 in
      Returned true (upd (set_poll_id t.1) t.2) evs.

(** Lines 417 to 422, then the spawn: leave the old instance first. *)
Definition change_dispatcher (argv : list string) (envp : option (list string))
    (os : argv_os) (w : World) (evs : list event) : outcome bool :=
  let w1 := upd (set_is_changing_dispatcher true) w in
  match pk_spawn_exit (wrote_exit os) w1 evs with
  | Returned _ w2 rest =>
      spawn_instance argv envp os (upd (set_is_changing_dispatcher false) w2) rest
  | Waiting w2 => Waiting w2
  | Fatal w2 => Fatal w2
  end.

Definition pk_spawn_argv (argv : list string) (envp : option (list string))
    (os : argv_os) (w : World) (evs : list event) : outcome bool :=
  if negb (stdin_fd (priv w) =? -1) then
    if negb (egg_strequal (last_argv0 (priv w)) (head argv)) then
      change_dispatcher argv envp os w evs
    else if negb (egg_strvequal (last_envp (priv w)) envp) then
      change_dispatcher argv envp os w evs
    else
      let command := g_strjoinv (String TAB EmptyString) (tail argv) in
      let r := pk_spawn_send_stdin command (wrote_command os) w in
      if r.1 then Returned true r.2 evs
      else change_dispatcher argv envp os r.2 evs
  else spawn_instance argv envp os w evs.

Section All.

Variable dispatch : event -> World -> list event -> outcome unit.

(** The sources found ready in one iteration are dispatched in turn. *)
Fixpoint dispatch_all (es : list event) (w : World) (rest : list event) : outcome unit :=
  match es with
  | [] => Returned tt w rest
  | e :: es' =>
      match dispatch e w rest with
      | Returned _ w' rest' => dispatch_all es' w' rest'
      | Waiting w' => Waiting w'
      | Fatal w' => Fatal w'
      end
  end.

End All.

(** One iteration of the main context reaches the spawner. *)
Fixpoint dispatch_event (e : event) (w : World) (rest : list event) : outcome unit :=
  match e with
  | Iteration es => dispatch_all dispatch_event es w rest
  | Dispatch id o kr => Returned tt (dispatch_source id o kr w) rest
  | Call (CallKill kr) => Returned tt (pk_spawn_kill kr w).2 rest
  | Call (CallExit wrote) =>
      match pk_spawn_exit wrote w rest with
      | Returned _ w' rest' => Returned tt w' rest'
      | Waiting w' => Waiting w'
      | Fatal w' => Fatal w'
      end
  | Call (CallArgv argv envp os) =>
      match pk_spawn_argv argv envp os w rest with
      | Returned _ w' rest' => Returned tt w' rest'
      | Waiting w' => Waiting w'
      | Fatal w' => Fatal w'
      end
  end.

End WithLoop.

(** [g_main_loop_run]: mark the loop running, then iterate the main context
    for as long as the loop is marked running.  GLib looks at the mark
    between two iterations only: what an iteration finds ready is
    dispatched to the end, also after [g_main_loop_quit].  The fuel bounds
    the iterations: with more fuel than iterations at hand it is never the
    fuel that ends the loop. *)
Fixpoint main_loop_iterate (fuel : nat) (w : World) (evs : list event) : outcome unit :=
  match fuel with
  | O => Waiting w
  | S fuel' =>
      match evs with
      | [] => Waiting w
      | e :: rest =>
          let run := fun w0 evs0 =>
            main_loop_iterate fuel' (upd (set_exit_loop true) w0) evs0 in
          match dispatch_event run e w rest with
          | Returned _ w' rest' =>
              if exit_loop (priv w') then main_loop_iterate fuel' w' rest'
              else Returned tt w' rest'
          | Waiting w' => Waiting w'
          | Fatal w' => Fatal w'
          end
      end
  end.

Definition g_main_loop_run (fuel : nat) (w : World) (evs : list event) : outcome unit :=
  main_loop_iterate fuel (upd (set_exit_loop true) w) evs.

(** The daemon's own main loop: it runs the iterations one after the other
    and returns when there are none left. *)
Fixpoint main_context (fuel : nat) (w : World) (evs : list event) : outcome unit :=
  match fuel with
  | O => Waiting w
  | S fuel' =>
      match evs with
      | [] => Returned tt w []
      | e :: rest =>
          match dispatch_event (g_main_loop_run fuel') e w rest with
          | Returned _ w' rest' => main_context fuel' w' rest'
          | Waiting w' => Waiting w'
          | Fatal w' => Fatal w'
          end
      end
  end.

(** An execution: a new spawner and the iterations of a run of the daemon. *)
Definition execution (evs : list event) : World :=
  world_of (main_context (S (length evs)) pk_spawn_new evs).

End PkSpawn.

(** ** What the statements below speak of *)

Module Obs.
Import C GLib Egg PkSpawn.

(** The emitted lines as they stood in the buffer: each with its newline. *)
Fixpoint unlines (ls : list string) : string :=
  match ls with
  | [] => EmptyString
  | l :: ls' => l +:+ String LF (unlines ls')
  end.

(** The bytes the emitted lines took: each line and its newline. *)
Fixpoint bytes_of (ls : list string) : Z :=
  match ls with
  | [] => 0
  | l :: ls' => (Z.of_nat (String.length l) + 1) + bytes_of ls'
  end.

(** The world a tick has before it looks at the child. *)
Definition drained (o : poll_obs) (w : World) : World :=
  let r := pk_spawn_emit_whole_lines
             (pk_spawn_read_fd_into_buffer (reads o) (stdout_buf (priv w))) in
  upd (set_stdout_buf r.2) (emit_stdout r.1.2 w).

(** The two sources a reap takes away, as seen in the private structure. *)
Definition clear_poll (p : PkSpawnPrivate) : PkSpawnPrivate :=
  if 0 <? poll_id p then set_poll_id 0 p else p.

Definition clear_kill (p : PkSpawnPrivate) : PkSpawnPrivate :=
  if negb (kill_id p =? 0) then set_kill_id 0 p else p.

(** The spawner carries a classification other than "unknown". *)
Definition classified (w : World) : Prop :=
  exit (priv w) <> PK_SPAWN_EXIT_TYPE_UNKNOWN.

(** Some SIGQUIT is in the log. *)
Definition quit_sent (l : list effect) : Prop :=
  exists pid, In (SysKill pid SIGQUIT) l.

(** Read newest first: a SIGKILL is logged right after the firing of a
    SIGKILL timer and with a SIGQUIT before it; a SIGKILL timer that fires
    has not fired before. *)
Fixpoint log_ok (l : list effect) : Prop :=
  match l with
  | [] => True
  | e :: l' =>
      match e with
      | SysKill _ SIGKILL =>
          (exists id l'', l' = Fired id SigkillCb :: l'') /\ quit_sent l'
      | Fired id SigkillCb => ~ In (Fired id SigkillCb) l'
      | _ => True
      end /\ log_ok l'
  end.

(** Effects that are neither a SIGKILL nor a firing. *)
Definition quiet (e : effect) : Prop :=
  match e with
  | SysKill _ SIGKILL => False
  | Fired _ _ => False
  | _ => True
  end.

(** What holds of the signals and timers at every point of an execution:
    the log is in order, a registered SIGKILL timer was registered after a
    SIGQUIT and has not fired, and source ids are handed out once. *)
Definition timers_ok (w : World) : Prop :=
  log_ok (log w) /\
  (forall id, sources w !! id = Some SigkillCb ->
     quit_sent (log w) /\ ~ In (Fired id SigkillCb) (log w)) /\
  (forall id f, sources w !! id = Some f -> id < next_source_id w) /\
  (forall id f, In (Fired id f) (log w) -> id < next_source_id w).

(** The poll ticks that find the child alive. *)
Definition alive_tick (id pid : Z) (e : event) : Prop :=
  exists o kr, e = Dispatch id o kr /\ wait_ret o <> pid.

(** The log of [w] is [L] with more effects in front. *)
Definition extends (L : list effect) (w : World) : Prop :=
  exists l, log w = l ++ L.

(** Any effect but a write to the child. *)
Definition not_a_write (e : effect) : Prop :=
  match e with SysWrite _ _ _ => False | _ => True end.



(** Two loops do the same on fewer than [n] events, and give back no more
    events than they got. *)
Definition agree_below (n : nat) (l1 l2 : World -> list event -> outcome unit) : Prop :=
  forall w evs, (length evs < n)%nat ->
    l1 w evs = l2 w evs /\
    forall a w' rest, l1 w evs = Returned a w' rest -> (length rest <= length evs)%nat.

End Obs.

(** ** A helper to run the statements on *)

Module Scenario.
Import C GLib Egg PkSpawn.

(** The dispatcher of the self test and its first request. *)
Definition helper : list string :=
  ["pk-spawn-dispatcher.py"; "search-name"; "none"; "power manager"]%string.

(** The helper starts as process [pid] with pipes 7 and 8; the request
    line of 31 bytes and the exit line of 5 bytes are written in full. *)
Definition started (pid : Z) : spawn_result := mkSpawn true pid 7 8.
Definition os_ok (pid : Z) : argv_os := mkArgvOs 31 5 (started pid) 0.
Definition launch (pid : Z) : event := Call (CallArgv helper None (os_ok pid)).

(** The write of the request line fails; the rest is as before. *)
Definition os_short_write (pid : Z) : argv_os := mkArgvOs (-1) 5 (started pid) 0.

Definition kill_ok : kill_result := mkKill 0 0.
Definition kill_denied : kill_result := mkKill (-1) EPERM.

(** A tick that finds nothing to read and the child alive, and one that
    finds the child gone with exit code [code]. *)
Definition still_running : poll_obs := mkPoll [] 0 0.
Definition exited (pid code : Z) : poll_obs := mkPoll [] pid (Z.shiftl code 8).

(** A tick that reads two lines and a half. *)
Definition two_lines_and_a_half : string :=
  ("percentage" +:+ String LF ("finished" +:+ String LF "pack"))%string.

(** The helper is running. *)
Definition running : World := execution [launch 100].

(** The helper has exited with code 0 and a second one has been launched. *)
Definition relaunched : World :=
  execution [launch 100; Dispatch 1 (exited 100 0) kill_ok; launch 101].

(** The helper has exited with code 0 and was reaped. *)
Definition reaped : World :=
  execution [launch 100; Dispatch 1 (exited 100 0) kill_ok].

(** The helper is running and a graceful exit waits in its loop. *)
Definition in_exit_loop : World :=
  upd (set_exit_loop true) (upd (set_is_sending_exit true) running).

End Scenario.

(** ** The rest of the spawner *)

Module Finalize.
Import C GLib Egg PkSpawn.

(** *** pk_spawn_finalize *)

(** Lines 527 to 559.  The two sources named by [poll_id] and [kill_id]
    are removed, and a spawner that still has its stdin pipe is killed.
    The private structure is freed afterwards; what is left to look at is
    what the main context holds and what was done. *)
Definition pk_spawn_finalize (kr : kill_result) (w : World) : World :=
  let w1 := if negb (poll_id (priv w) =? 0)
            then g_source_remove (poll_id (priv w)) w else w in
  let w2 := if negb (kill_id (priv w1) =? 0)
            then g_source_remove (kill_id (priv w1)) w1 else w1 in
  if negb (stdin_fd (priv w2) =? -1) then (pk_spawn_kill kr w2).2 else w2.

End Finalize.

(** ** What holds along every execution *)

Module Inv.
Import C GLib Egg PkSpawn Obs.

(** The chunks of a read, one after the other. *)
Fixpoint str_concat (ls : list string) : string :=
  match ls with
  | [] => EmptyString
  | l :: ls' => l +:+ str_concat ls'
  end.

(** The stdout buffer holds no NUL byte. *)
Definition buffer_is_text (w : World) : Prop :=
  str_mem NUL (stdout_buf (priv w)) = false.

(** *** Executions whose launches meet a condition *)

(** The launches of the event get answers from the system that meet
    [good]. *)
Fixpoint launch_meets (good : argv_os -> Prop) (e : event) : Prop :=
  match e with
  | Call (CallArgv _ _ os) => good os
  | Iteration es => fold_right (fun e' rest => launch_meets good e' /\ rest) True es
  | _ => True
  end.

(** What a loop, or a call, keeps on events that meet [good]: the invariant
    [P], and the condition on the events it gives back. *)
Definition keeps (good : argv_os -> Prop) (P : World -> Prop) {A : Type}
    (w : World) (evs : list event) (out : outcome A) : Prop :=
  Forall (launch_meets good) evs -> P w ->
  P (world_of out) /\
  forall a w' rest, out = Returned a w' rest -> Forall (launch_meets good) rest.

(** A spawn that succeeds gives a process id and two descriptors, none -1. *)
Definition sane_spawn (os : argv_os) : Prop :=
  spawn_ok (spawned os) = true ->
  new_pid (spawned os) <> -1 /\ new_stdin (spawned os) <> -1 /\
  new_stdout (spawned os) <> -1.

(** The poll source and the private structure agree: source ids are
    positive and below the next id, the only poll source is the one
    [poll_id] names, it is there whenever [poll_id] is set, and a spawner
    with a stdin pipe is polled; whoever is polled has not finished. *)
Definition polled (w : World) : Prop :=
  0 < next_source_id w /\
  (forall id f, sources w !! id = Some f -> 0 < id < next_source_id w) /\
  (forall id, sources w !! id = Some CheckChild ->
     id = poll_id (priv w) /\ finished (priv w) = false) /\
  (poll_id (priv w) <> 0 -> sources w !! poll_id (priv w) = Some CheckChild) /\
  (stdin_fd (priv w) <> -1 -> poll_id (priv w) <> 0).

(** The child and its two pipes are there together, and only when polled. *)
Definition present_together (w : World) : Prop :=
  (child_pid (priv w) = -1 <-> stdin_fd (priv w) = -1) /\
  (stdout_fd (priv w) = -1 <-> stdin_fd (priv w) = -1) /\
  (poll_id (priv w) <> 0 -> stdin_fd (priv w) <> -1).

(** Read newest first: the spawner has spawned a child whose exit signal
    has not been emitted yet. *)
Fixpoint open_child (l : list effect) : bool :=
  match l with
  | [] => false
  | SysSpawn _ _ true :: _ => true
  | EmitExit _ :: _ => false
  | _ :: l' => open_child l'
  end.

(** Every signal of the object is emitted for such a child. *)
Fixpoint framed (l : list effect) : Prop :=
  match l with
  | [] => True
  | e :: l' =>
      match e with
      | EmitStdout _ | EmitExit _ => open_child l' = true
      | _ => True
      end /\ framed l'
  end.

(** A signal of the object. *)
Definition is_signal (e : effect) : Prop :=
  match e with EmitStdout _ | EmitExit _ => True | _ => False end.

(** The invariant behind [framed]. *)
Definition child_framed (w : World) : Prop :=
  polled w /\ framed (log w) /\
  (poll_id (priv w) <> 0 -> open_child (log w) = true).

(** The invariant behind [present_together]. *)
Definition child_present (w : World) : Prop :=
  polled w /\ present_together w.

(** Neither a signal nor a spawn. *)
Definition silent (e : effect) : Prop :=
  match e with
  | EmitStdout _ | EmitExit _ | SysSpawn _ _ _ => False
  | _ => True
  end.

(** A close of a descriptor that is one. *)
Definition close_ok (e : effect) : Prop :=
  match e with SysClose fd => fd <> -1 | _ => True end.

(** The invariant behind [close_ok]. *)
Definition closes_ok (w : World) : Prop :=
  child_present w /\ Forall close_ok (log w).

End Inv.

(** ** More of the helper's life *)

Module Cases.
Import C GLib Egg PkSpawn Scenario.

(** A tick that reads two lines and a half and finds the child alive, and
    one that reads the rest of the third line. *)
Definition chatty : poll_obs := mkPoll [two_lines_and_a_half] 0 0.

(** A tick that reads two lines and a half and finds the child gone. *)
Definition last_words : poll_obs := mkPoll [two_lines_and_a_half] 100 0.

(** A tick that finds the child terminated by signal 9. *)
Definition signalled (pid : Z) : poll_obs := mkPoll [] pid 9.

(** The spawn fails; the configured nice value is 10. *)
Definition os_failed : argv_os := mkArgvOs 31 5 (mkSpawn false 0 0 0) 10.


(** The helper is killed twice and reaped, a second helper is launched, and
    the timer of the first kill fires. *)
Definition two_kills_then_relaunch : list event :=
  [launch 100; Call (CallKill kill_ok); Call (CallKill kill_ok);
   Dispatch 1 (exited 100 0) kill_ok; launch 101; Dispatch 2 still_running kill_ok].

(** [n] bytes [c]. *)
Fixpoint str_repeat (c : ascii) (n : nat) : string :=
  match n with
  | O => EmptyString
  | S n' => String c (str_repeat c n')
  end.

(** A line of 4 GiB less one byte, which with its newline makes 4 GiB. *)
Definition four_gib_line : string := str_repeat "a" (Z.to_nat (2 ^ 32 - 1)).

(** One helper from launch to reap, and a second launch after it. *)
Definition one_child : list event :=
  [launch 100; Dispatch 1 (exited 100 0) kill_ok].
Definition two_children : list event :=
  [launch 100; Dispatch 1 (exited 100 0) kill_ok; launch 101].

End Cases.

Import C GLib Egg PkSpawn Obs Scenario.
Import Finalize Inv Cases.

(** ** C strings *)

Section Strings.

Local Arguments String.append !_ _ / : simpl nomatch.

Lemma str_app_assoc (a b c : string) : (a +:+ b) +:+ c = a +:+ (b +:+ c).
Proof. induction a as [|x a IH]; simpl; [reflexivity|]. by rewrite IH. Qed.

Lemma str_length_app (a b : string) :
  String.length (a +:+ b) = (String.length a + String.length b)%nat.
Proof. induction a as [|x a IH]; simpl; [reflexivity|]. by rewrite IH. Qed.

Lemma str_drop_app (a b : string) : str_drop (String.length a) (a +:+ b) = b.
Proof. induction a as [|x a IH]; simpl; [reflexivity|]. exact IH. Qed.

Lemma c_str_no_nul (s : string) : str_mem NUL (c_str s) = false.
Proof.
  induction s as [|c s IH]; cbn [c_str str_mem]; [reflexivity|].
  destruct (Ascii.eqb c NUL) eqn:E; cbn [str_mem]; [reflexivity|].
  rewrite Ascii.eqb_sym, E. exact IH.
Qed.

Lemma c_str_id (s : string) : str_mem NUL s = false -> c_str s = s.
Proof.
  induction s as [|c s IH]; cbn [c_str str_mem]; [reflexivity|].
  intros H. apply orb_false_elim in H as [H1 H2].
  rewrite Ascii.eqb_sym, H1. by rewrite IH.
Qed.

Lemma c_str_length_le (s : string) : (String.length (c_str s) <= String.length s)%nat.
Proof.
  induction s as [|c s IH]; cbn [c_str String.length]; [lia|].
  destruct (Ascii.eqb c NUL); cbn [String.length]; lia.
Qed.

Lemma c_str_prefix (a s : string) :
  str_mem NUL a = false ->
  c_str (a +:+ str_drop (String.length (c_str s)) s) = a.
Proof.
  intros Ha. induction a as [|x a IH].
  - cbn [String.append]. induction s as [|c s IHs]; [reflexivity|].
    cbn [c_str]. destruct (Ascii.eqb c NUL) eqn:E.
    + cbn [String.length str_drop c_str]. by rewrite E.
    + cbn [String.length str_drop]. exact IHs.
  - cbn [str_mem] in Ha. apply orb_false_elim in Ha as [H1 H2].
    cbn [String.append c_str]. rewrite Ascii.eqb_sym, H1. by rewrite IH.
Qed.

Lemma c_str_split (s : string) :
  s = c_str s +:+ str_drop (String.length (c_str s)) s.
Proof.
  induction s as [|c s IH]; [reflexivity|].
  cbn [c_str]. destruct (Ascii.eqb c NUL); [reflexivity|].
  cbn [String.length str_drop String.append]. by rewrite <- IH.
Qed.

Lemma bytes_of_unlines (ls : list string) :
  bytes_of ls = Z.of_nat (String.length (unlines ls)).
Proof.
  induction ls as [|l ls IH]; [reflexivity|].
  cbn [bytes_of unlines]. rewrite str_length_app. cbn [String.length]. lia.
Qed.

Lemma bytes_of_nonneg (ls : list string) : 0 <= bytes_of ls.
Proof. rewrite bytes_of_unlines. lia. Qed.

(** The shape of a split: the complete lines, then the unfinished one. *)
Lemma split_nl_shape (s : string) :
  exists (init : list string) (l : string),
    split_nl s = init ++ [l] /\
    s = unlines init +:+ l /\
    Forall (fun x => str_mem LF x = false) (init ++ [l]) /\
    (str_mem NUL s = false -> Forall (fun x => str_mem NUL x = false) (init ++ [l])).
Proof.
  induction s as [|c s (init & l & Hs & Hj & Hlf & Hnul)].
  - exists [], EmptyString. repeat split; intros; by repeat constructor.
  - cbn [split_nl]. destruct (Ascii.eqb c LF) eqn:E.
    + apply Ascii.eqb_eq in E. subst c.
      exists (EmptyString :: init), l. rewrite Hs. repeat split.
      * cbn [unlines String.append]. by rewrite <- Hj.
      * constructor; [reflexivity | exact Hlf].
      * intros H. cbn [str_mem] in H. apply orb_false_elim in H as [_ H].
        constructor; [reflexivity | auto].
    + rewrite Hs. destruct init as [|i init].
      * exists [], (String c l). cbn [app unlines String.append] in *. subst s.
        repeat split.
        -- constructor; [|constructor]. cbn [str_mem].
           rewrite Ascii.eqb_sym, E. by inversion Hlf.
        -- intros H. cbn [str_mem] in H. apply orb_false_elim in H as [H1 H2].
           constructor; [|constructor]. cbn [str_mem]. rewrite H1.
           specialize (Hnul H2). by inversion Hnul.
      * exists (String c i :: init), l. cbn [app unlines String.append] in *.
        repeat split.
        -- by rewrite <- Hj.
        -- inversion Hlf; subst. constructor; [|assumption].
           cbn [str_mem]. by rewrite Ascii.eqb_sym, E.
        -- intros H. cbn [str_mem] in H. apply orb_false_elim in H as [H1 H2].
           specialize (Hnul H2). inversion Hnul; subst.
           constructor; [|assumption]. cbn [str_mem]. by rewrite H1.
Qed.

Lemma emit_lines_loop_exact (n : nat) (lines : list string) (bp : Z) :
  Forall (fun x => str_mem NUL x = false) lines ->
  0 <= bp -> bp + bytes_of (take n lines) < 2 ^ 32 ->
  emit_lines_loop n lines bp = (take n lines, bp + bytes_of (take n lines)).
Proof.
  revert lines bp. induction n as [|n IH]; intros lines bp Hn Hbp Hlt.
  - rewrite take_0. cbn [emit_lines_loop bytes_of]. f_equal. lia.
  - destruct lines as [|l ls]; [cbn [emit_lines_loop take bytes_of]; f_equal; lia|].
    cbn [emit_lines_loop take bytes_of] in *.
    inversion Hn as [|? ? Hl Hls]; subst.
    pose proof (bytes_of_nonneg (take n ls)) as Hpos.
    assert (Hstr : strlen l = Z.of_nat (String.length l))
      by (unfold strlen; by rewrite c_str_id).
    assert (Hg : guint (bp + (strlen l + 1)) = bp + (strlen l + 1)).
    { unfold guint. apply Z.mod_small. lia. }
    rewrite Hg, IH; [|assumption|lia|lia].
    cbn [fst snd]. f_equal. lia.
Qed.

End Strings.

(** ** Projections of a world *)

Lemma priv_remove (id : Z) (w : World) : priv (g_source_remove id w) = priv w.
Proof. reflexivity. Qed.
Lemma priv_eff (e : effect) (w : World) : priv (eff e w) = priv w.
Proof. reflexivity. Qed.
Lemma priv_upd f (w : World) : priv (upd f w) = f (priv w).
Proof. reflexivity. Qed.
Lemma log_remove (id : Z) (w : World) : log (g_source_remove id w) = log w.
Proof. reflexivity. Qed.
Lemma log_eff (e : effect) (w : World) : log (eff e w) = e :: log w.
Proof. reflexivity. Qed.
Lemma log_upd f (w : World) : log (upd f w) = log w.
Proof. reflexivity. Qed.
Lemma sources_remove (id : Z) (w : World) :
  sources (g_source_remove id w) = delete id (sources w).
Proof. reflexivity. Qed.
Lemma sources_eff (e : effect) (w : World) : sources (eff e w) = sources w.
Proof. reflexivity. Qed.
Lemma sources_upd f (w : World) : sources (upd f w) = sources w.
Proof. reflexivity. Qed.
Lemma next_remove (id : Z) (w : World) :
  next_source_id (g_source_remove id w) = next_source_id w.
Proof. reflexivity. Qed.
Lemma next_eff (e : effect) (w : World) : next_source_id (eff e w) = next_source_id w.
Proof. reflexivity. Qed.
Lemma next_upd f (w : World) : next_source_id (upd f w) = next_source_id w.
Proof. reflexivity. Qed.

Create Rewrite HintDb world.
#[local] Hint Rewrite priv_remove priv_eff priv_upd log_remove log_eff log_upd
  sources_remove sources_eff sources_upd next_remove next_eff next_upd : world.

Lemma priv_emit_stdout (ls : list string) (w : World) :
  priv (emit_stdout ls w) = priv w.
Proof. revert w. induction ls as [|l ls IH]; intros w; [reflexivity|]. cbn. by rewrite IH. Qed.

Lemma sources_emit_stdout (ls : list string) (w : World) :
  sources (emit_stdout ls w) = sources w.
Proof. revert w. induction ls as [|l ls IH]; intros w; [reflexivity|]. cbn. by rewrite IH. Qed.

Lemma next_emit_stdout (ls : list string) (w : World) :
  next_source_id (emit_stdout ls w) = next_source_id w.
Proof. revert w. induction ls as [|l ls IH]; intros w; [reflexivity|]. cbn. by rewrite IH. Qed.

Lemma log_emit_stdout (ls : list string) (w : World) :
  log (emit_stdout ls w) = rev (EmitStdout <$> ls) ++ log w.
Proof.
  revert w. induction ls as [|l ls IH]; intros w; [reflexivity|].
  cbn [emit_stdout fold_left fmap list_fmap rev].
  change (fold_left _ ls ?x) with (emit_stdout ls x).
  rewrite IH. cbn [eff log]. by rewrite <- app_assoc.
Qed.

(** ** The drain of the stdout buffer *)

(** X19: whatever a stdout buffer shorter than 4 GiB holds (its length a
    [guint]), the drain emits the segments of the split but the last, in
    order, one line event each; these are the complete lines, none with a
    newline inside; it erases from the front of the buffer exactly their
    bytes with their newlines; and the unfinished line at the end stays in
    the buffer. *)
Theorem emit_whole_lines_complete_lines (gs : string) :
  Z.of_nat (String.length gs) < 2 ^ 32 ->
  let r := pk_spawn_emit_whole_lines gs in
  r.1.2 = removelast (split_nl (c_str gs)) /\
  gs = unlines r.1.2 +:+ r.2 /\
  Z.of_nat (String.length r.2) = Z.of_nat (String.length gs) - bytes_of r.1.2 /\
  Forall (fun l => str_mem LF l = false) r.1.2 /\
  c_str r.2 = List.last (split_nl (c_str gs)) EmptyString /\
  str_mem LF (c_str r.2) = false /\
  (forall w, log (emit_stdout r.1.2 w) = rev (EmitStdout <$> r.1.2) ++ log w).
Proof.
  intros Hlen r.
  destruct (split_nl_shape (c_str gs)) as (init & l & Hs & Hj & Hlf & Hnul).
  specialize (Hnul (c_str_no_nul gs)).
  apply Forall_app in Hlf as [Hlf1 Hlf2]. apply Forall_app in Hnul as [Hn1 Hn2].
  inversion Hlf2 as [|? ? Hlfl _]; subst. inversion Hn2 as [|? ? Hnl _]; subst.
  pose proof (c_str_length_le gs) as Hle.
  pose proof (c_str_split gs) as Hgs.
  set (rest := str_drop (String.length (c_str gs)) gs) in *.
  assert (r = (negb (egg_strzero (Some gs)), init, l +:+ rest)) as ->.
  { subst r. unfold pk_spawn_emit_whole_lines, egg_strzero, g_strsplit_nl.
    destruct (c_str gs) as [|c0 s0] eqn:Ec.
    - cbn [split_nl] in Hs.
      destruct init as [|i init]; [|destruct init; discriminate Hs].
      injection Hs as <-. cbn [negb String.append] in *. by rewrite <- Hgs.
    - cbn [negb]. rewrite Hs. unfold g_strv_length.
      assert (Hbytes : bytes_of init <= Z.of_nat (String.length (String c0 s0))).
      { rewrite Hj, str_length_app, bytes_of_unlines. lia. }
      assert (Hinit : Z.of_nat (length init) <= bytes_of init).
      { clear. induction init as [|i init IH]; cbn [length bytes_of]; lia. }
      pose proof (bytes_of_nonneg init) as Hpos.
      assert (Hcount : guint (guint (Z.of_nat (length (init ++ [l]))) - 1)
                       = Z.of_nat (length init)).
      { unfold guint. rewrite Zminus_mod_idemp_l, length_app. cbn [length].
        rewrite Z.mod_small; lia. }
      rewrite Hcount, Nat2Z.id, emit_lines_loop_exact.
      + rewrite take_app_length. cbn [fst snd]. f_equal.
        unfold g_string_erase.
        replace ((0 <=? 0) && (0 <=? 0 + bytes_of init)
                 && (0 + (0 + bytes_of init) <=? Z.of_nat (String.length gs)))
          with true by (symmetry; rewrite !andb_true_iff, !Z.leb_le; lia).
        change (Z.to_nat 0) with 0%nat. cbn [str_take String.append].
        replace (Z.to_nat (0 + (0 + bytes_of init)))
          with (String.length (unlines init)) by (rewrite bytes_of_unlines; lia).
        rewrite Hgs, Hj, str_app_assoc. apply str_drop_app.
      + apply Forall_app; split; [assumption|by constructor].
      + lia.
      + rewrite take_app_length. lia. }
  cbn [fst snd]. rewrite Hs, removelast_last, last_last.
  repeat split; auto using log_emit_stdout.
  - rewrite Hgs. by rewrite Hj, str_app_assoc.
  - rewrite Hgs, Hj, !str_length_app, bytes_of_unlines. lia.
  - subst rest. by apply c_str_prefix.
  - subst rest. rewrite c_str_prefix; assumption.
Qed.

Lemma emit_whole_lines_complete_lines_witness :
  Z.of_nat (String.length two_lines_and_a_half) < 2 ^ 32 /\
  let r := pk_spawn_emit_whole_lines two_lines_and_a_half in
  r.1.2 = removelast (split_nl (c_str two_lines_and_a_half)) /\
  two_lines_and_a_half = unlines r.1.2 +:+ r.2 /\
  Z.of_nat (String.length r.2)
    = Z.of_nat (String.length two_lines_and_a_half) - bytes_of r.1.2 /\
  Forall (fun l => str_mem LF l = false) r.1.2 /\
  c_str r.2 = List.last (split_nl (c_str two_lines_and_a_half)) EmptyString /\
  str_mem LF (c_str r.2) = false /\
  (forall w, log (emit_stdout r.1.2 w) = rev (EmitStdout <$> r.1.2) ++ log w).
Proof.
  split; [vm_compute; reflexivity|].
  apply (emit_whole_lines_complete_lines two_lines_and_a_half).
  vm_compute; reflexivity.
Defined.

(** ** The poll tick *)

Section CheckChild.

Lemma WEXITSTATUS_range (status : Z) : 0 <= WEXITSTATUS status < 256.
Proof.
  unfold WEXITSTATUS.
  change 65280 with (Z.shiftl (Z.ones 8) 8).
  rewrite Z.shiftr_land, Z.shiftr_shiftl_l by lia.
  change (Z.shiftl (Z.ones 8) (8 - 8)) with (Z.ones 8).
  rewrite Z.land_ones by lia.
  change (2 ^ 8) with 256. apply Z.mod_pos_bound. lia.
Qed.

Lemma WEXITSTATUS_code (code : Z) :
  0 <= code < 256 -> WEXITSTATUS (Z.shiftl code 8) = code.
Proof.
  intros H. unfold WEXITSTATUS.
  change 65280 with (Z.shiftl (Z.ones 8) 8).
  rewrite <- Z.shiftl_land, Z.shiftr_shiftl_l by lia.
  change (8 - 8) with 0. rewrite Z.shiftl_0_r, Z.land_ones by lia.
  apply Z.mod_small. change (2 ^ 8) with 256. lia.
Qed.

Lemma classify_status_exit (status : Z) (p : PkSpawnPrivate) :
  exit (classify_status status p) =
  if bool_decide (exit p = PK_SPAWN_EXIT_TYPE_UNKNOWN)
  then if bool_decide (WEXITSTATUS status = 0)
       then PK_SPAWN_EXIT_TYPE_SUCCESS else PK_SPAWN_EXIT_TYPE_FAILED
  else exit p.
Proof.
  pose proof (WEXITSTATUS_range status) as Hr.
  unfold classify_status.
  destruct (0 <? WEXITSTATUS status) eqn:E;
    [apply Z.ltb_lt in E | apply Z.ltb_ge in E];
    repeat case_bool_decide; try reflexivity; lia.
Qed.

Lemma check_child_unfold (o : poll_obs) (w : World) :
  pk_spawn_check_child o w =
  if finished (priv w) then (false, w)
  else if negb (wait_ret o =? child_pid (priv w)) then (true, drained o w)
  else (false, reap_child (wait_status o) (drained o w)).
Proof.
  unfold pk_spawn_check_child, drained.
  destruct (finished (priv w)); [reflexivity|].
  cbn [upd priv]. by rewrite priv_emit_stdout.
Qed.

Lemma drained_priv (o : poll_obs) (w : World) :
  priv (drained o w) =
  set_stdout_buf (pk_spawn_emit_whole_lines
     (pk_spawn_read_fd_into_buffer (reads o) (stdout_buf (priv w)))).2 (priv w).
Proof. unfold drained. cbn [upd priv]. by rewrite priv_emit_stdout. Qed.

Lemma reap_child_priv (status : Z) (w : World) :
  priv (reap_child status w) =
  quit_exit_loop (clear_kill (set_finished true (classify_status status
    (set_child_pid (-1) (set_stdout_fd (-1) (set_stdin_fd (-1)
       (clear_poll (priv w)))))))).
Proof.
  destruct w as [p src nid lg]. unfold reap_child, clear_poll, clear_kill.
  cbn [priv]. destruct (0 <? poll_id p); cbn [priv upd eff g_source_remove];
    destruct (negb _); reflexivity.
Qed.

Lemma classify_status_frame (status : Z) (p : PkSpawnPrivate) :
  classify_status status p = set_exit (exit (classify_status status p)) p.
Proof.
  unfold classify_status. destruct p. repeat case_match; reflexivity.
Qed.

Lemma classify_status_exit_loop (status : Z) (p : PkSpawnPrivate) :
  exit_loop (classify_status status p) = exit_loop p.
Proof. rewrite classify_status_frame. by destruct p. Qed.

Lemma classify_status_changing (status : Z) (p : PkSpawnPrivate) :
  is_changing_dispatcher (classify_status status p) = is_changing_dispatcher p.
Proof. rewrite classify_status_frame. by destruct p. Qed.

Lemma classify_status_sending (status : Z) (p : PkSpawnPrivate) :
  is_sending_exit (classify_status status p) = is_sending_exit p.
Proof. rewrite classify_status_frame. by destruct p. Qed.

Lemma quit_exit_loop_frame (p : PkSpawnPrivate) :
  quit_exit_loop p = set_exit (exit (quit_exit_loop p)) (set_exit_loop false p).
Proof.
  unfold quit_exit_loop. by destruct p as [? ? ? ? ? ? [] [] ? [] ? ? ?].
Qed.

Lemma quit_exit_loop_exit (p : PkSpawnPrivate) :
  exit (quit_exit_loop p) =
  if exit_loop p then
    if is_changing_dispatcher p then PK_SPAWN_EXIT_TYPE_DISPATCHER_CHANGED
    else if is_sending_exit p then PK_SPAWN_EXIT_TYPE_DISPATCHER_EXIT
    else exit p
  else exit p.
Proof.
  unfold quit_exit_loop. destruct p as [? ? ? ? ? ? [] [] ? [] ? ? ?]; reflexivity.
Qed.

Lemma clear_poll_frame (p : PkSpawnPrivate) :
  clear_poll p = set_poll_id (poll_id (clear_poll p)) p.
Proof. unfold clear_poll. destruct p. cbn. case_match; reflexivity. Qed.

Lemma clear_kill_frame (p : PkSpawnPrivate) : clear_kill p = set_kill_id 0 p.
Proof.
  unfold clear_kill. destruct p. cbn. destruct (kill_id0 =? 0) eqn:E; [|reflexivity].
  apply Z.eqb_eq in E. by subst.
Qed.

(** The private structure after a reap, field by field. *)
Lemma reap_child_fields (status : Z) (w : World) :
  let p := priv w in
  let p' := priv (reap_child status w) in
  child_pid p' = -1 /\ stdin_fd p' = -1 /\ stdout_fd p' = -1 /\
  kill_id p' = 0 /\ finished p' = true /\ exit_loop p' = false /\
  is_sending_exit p' = is_sending_exit p /\
  is_changing_dispatcher p' = is_changing_dispatcher p /\
  stdout_buf p' = stdout_buf p /\
  last_argv0 p' = last_argv0 p /\ last_envp p' = last_envp p /\
  exit p' = exit (quit_exit_loop (classify_status status p)).
Proof.
  cbn zeta. rewrite reap_child_priv.
  rewrite quit_exit_loop_frame, clear_kill_frame.
  rewrite (classify_status_frame status (set_child_pid _ _)), clear_poll_frame.
  rewrite !quit_exit_loop_exit, !classify_status_exit_loop,
    !classify_status_changing, !classify_status_sending, !classify_status_exit.
  destruct (priv w). cbn. repeat split.
Qed.

Lemma check_child_exit (o : poll_obs) (w : World) :
  finished (priv w) = false -> wait_ret o = child_pid (priv w) ->
  exit (priv (pk_spawn_check_child o w).2) =
  exit (quit_exit_loop (classify_status (wait_status o) (priv w))).
Proof.
  intros Hfin Hwait.
  rewrite check_child_unfold, Hfin, <- Hwait, Z.eqb_refl. cbn [negb snd].
  destruct (reap_child_fields (wait_status o) (drained o w))
    as (_&_&_&_&_&_&_&_&_&_&_&->).
  rewrite drained_priv, !quit_exit_loop_exit, !classify_status_exit_loop,
    !classify_status_changing, !classify_status_sending, !classify_status_exit.
  by destruct (priv w).
Qed.

Lemma reap_child_log (status : Z) (w : World) :
  log (reap_child status w) =
  EmitExit (exit (priv (reap_child status w)))
    :: SysClose (stdout_fd (priv w)) :: SysClose (stdin_fd (priv w)) :: log w.
Proof.
  destruct w as [p src nid lg]. unfold reap_child.
  cbn [priv]. destruct (0 <? poll_id p); cbn [priv upd eff g_source_remove log];
    destruct (negb _); reflexivity.
Qed.

Lemma reap_child_next (status : Z) (w : World) :
  next_source_id (reap_child status w) = next_source_id w.
Proof.
  destruct w as [p src nid lg]. unfold reap_child.
  cbn [priv]. destruct (0 <? poll_id p); cbn [priv upd eff g_source_remove log];
    destruct (negb _); reflexivity.
Qed.

Lemma reap_child_sources (status : Z) (w : World) (id : Z) (f : GSourceFunc) :
  sources (reap_child status w) !! id = Some f -> sources w !! id = Some f.
Proof.
  destruct w as [p src nid lg]. unfold reap_child.
  cbn [priv]. destruct (0 <? poll_id p); cbn [priv upd eff g_source_remove log];
    destruct (negb _); cbn [sources upd eff g_source_remove];
    rewrite ?lookup_delete_Some; intuition.
Qed.

Lemma drained_log (o : poll_obs) (w : World) :
  exists lines, log (drained o w) = rev (EmitStdout <$> lines) ++ log w.
Proof. eexists. unfold drained. cbn [upd log]. apply log_emit_stdout. Qed.

End CheckChild.

#[local] Hint Rewrite drained_priv : world.

(** C1: on the reap path, an unknown classification becomes "success"
    exactly when the exit status code of the child is 0 and "failed" for
    every other code; a classification already made is never replaced by
    "success" or "failed". *)
Theorem reap_maps_exit_code (o : poll_obs) (w : World) :
  finished (priv w) = false ->
  wait_ret o = child_pid (priv w) ->
  let code := WEXITSTATUS (wait_status o) in
  let e := exit (priv w) in
  let e1 := exit (classify_status (wait_status o) (priv w)) in
  let e' := exit (priv (pk_spawn_check_child o w).2) in
  0 <= code < 256 /\
  (e = PK_SPAWN_EXIT_TYPE_UNKNOWN ->
     (e1 = PK_SPAWN_EXIT_TYPE_SUCCESS <-> code = 0) /\
     (e1 = PK_SPAWN_EXIT_TYPE_FAILED <-> code <> 0)) /\
  (e <> PK_SPAWN_EXIT_TYPE_UNKNOWN -> e1 = e) /\
  (exit_loop (priv w) = false -> e' = e1) /\
  (e <> PK_SPAWN_EXIT_TYPE_UNKNOWN ->
     e' = PK_SPAWN_EXIT_TYPE_SUCCESS \/ e' = PK_SPAWN_EXIT_TYPE_FAILED -> e' = e).
Proof.
  intros Hfin Hwait code e e1 e'.
  assert (He' : e' = exit (quit_exit_loop (classify_status (wait_status o) (priv w))))
    by (by apply check_child_exit).
  assert (He1 : e1 = if bool_decide (e = PK_SPAWN_EXIT_TYPE_UNKNOWN)
                     then if bool_decide (code = 0)
                          then PK_SPAWN_EXIT_TYPE_SUCCESS
                          else PK_SPAWN_EXIT_TYPE_FAILED
                     else e) by apply classify_status_exit.
  rewrite quit_exit_loop_exit, classify_status_exit_loop,
    classify_status_changing, classify_status_sending in He'. fold e1 in He'.
  rename He' into Hflags. split; [apply WEXITSTATUS_range|].
  repeat split.
  - intros ->. by repeat case_bool_decide.
  - intros ?. subst e1. by repeat case_bool_decide.
  - intros ->. repeat case_bool_decide; congruence.
  - intros ?. subst e1. repeat case_bool_decide; congruence.
  - intros ?. subst e1. by case_bool_decide.
  - intros Hl. by rewrite Hflags, Hl.
  - intros Hne Hsf. rewrite Hflags in Hsf |- *.
    assert (e1 = e) by (subst e1; by case_bool_decide).
    repeat case_match; destruct Hsf; congruence.
Qed.

Lemma reap_maps_exit_code_witness :
  finished (priv running) = false /\
  wait_ret (exited 100 3) = child_pid (priv running) /\
  let o := exited 100 3 in
  let code := WEXITSTATUS (wait_status o) in
  let e := exit (priv running) in
  let e1 := exit (classify_status (wait_status o) (priv running)) in
  let e' := exit (priv (pk_spawn_check_child o running).2) in
  0 <= code < 256 /\
  (e = PK_SPAWN_EXIT_TYPE_UNKNOWN ->
     (e1 = PK_SPAWN_EXIT_TYPE_SUCCESS <-> code = 0) /\
     (e1 = PK_SPAWN_EXIT_TYPE_FAILED <-> code <> 0)) /\
  (e <> PK_SPAWN_EXIT_TYPE_UNKNOWN -> e1 = e) /\
  (exit_loop (priv running) = false -> e' = e1) /\
  (e <> PK_SPAWN_EXIT_TYPE_UNKNOWN ->
     e' = PK_SPAWN_EXIT_TYPE_SUCCESS \/ e' = PK_SPAWN_EXIT_TYPE_FAILED -> e' = e).
Proof.
  split; [vm_compute; reflexivity|]. split; [vm_compute; reflexivity|].
  apply (reap_maps_exit_code (exited 100 3) running); vm_compute; reflexivity.
Defined.

(** C4: with the exit loop of a graceful exit running, the reap replaces
    the classification it has just made by "dispatcher changed" when the
    dispatcher is being changed, else by "dispatcher exit" when an exit is
    being sent, and the exit signal emitted carries that value. *)
Theorem reap_reclassifies_in_exit_loop (o : poll_obs) (w : World) :
  finished (priv w) = false ->
  wait_ret o = child_pid (priv w) ->
  exit_loop (priv w) = true ->
  let w' := (pk_spawn_check_child o w).2 in
  exit (priv w') =
    (if is_changing_dispatcher (priv w) then PK_SPAWN_EXIT_TYPE_DISPATCHER_CHANGED
     else if is_sending_exit (priv w) then PK_SPAWN_EXIT_TYPE_DISPATCHER_EXIT
     else exit (classify_status (wait_status o) (priv w))) /\
  exit_loop (priv w') = false /\
  exists lines,
    log w' = EmitExit (exit (priv w'))
               :: SysClose (stdout_fd (priv w)) :: SysClose (stdin_fd (priv w))
               :: rev (EmitStdout <$> lines) ++ log w.
Proof.
  intros Hfin Hwait Hloop w'. subst w'.
  rewrite check_child_unfold, Hfin, <- Hwait, Z.eqb_refl. cbn [negb snd].
  destruct (reap_child_fields (wait_status o) (drained o w))
    as (_&_&_&_&_&Hl&_&_&_&_&_&He).
  cbn zeta in *. rewrite Hl, He. split; [|split; [reflexivity|]].
  - rewrite drained_priv, !quit_exit_loop_exit, !classify_status_exit_loop,
      !classify_status_changing, !classify_status_sending, !classify_status_exit.
    destruct (priv w); cbn in *. by subst.
  - destruct (drained_log o w) as [lines Hlog]. exists lines.
    rewrite reap_child_log, Hlog, He, drained_priv. by destruct (priv w).
Qed.

Lemma reap_reclassifies_in_exit_loop_witness :
  finished (priv in_exit_loop) = false /\
  wait_ret (exited 100 0) = child_pid (priv in_exit_loop) /\
  exit_loop (priv in_exit_loop) = true /\
  let o := exited 100 0 in
  let w' := (pk_spawn_check_child o in_exit_loop).2 in
  exit (priv w') =
    (if is_changing_dispatcher (priv in_exit_loop)
     then PK_SPAWN_EXIT_TYPE_DISPATCHER_CHANGED
     else if is_sending_exit (priv in_exit_loop)
     then PK_SPAWN_EXIT_TYPE_DISPATCHER_EXIT
     else exit (classify_status (wait_status o) (priv in_exit_loop))) /\
  exit_loop (priv w') = false /\
  exists lines,
    log w' = EmitExit (exit (priv w'))
               :: SysClose (stdout_fd (priv in_exit_loop))
               :: SysClose (stdin_fd (priv in_exit_loop))
               :: rev (EmitStdout <$> lines) ++ log in_exit_loop.
Proof.
  split; [vm_compute; reflexivity|]. split; [vm_compute; reflexivity|].
  split; [vm_compute; reflexivity|].
  apply (reap_reclassifies_in_exit_loop (exited 100 0) in_exit_loop);
    vm_compute; reflexivity.
Defined.

(** ** Induction on what an iteration brings *)

Lemma event_induction (P : event -> Prop) :
  (forall id o kr, P (Dispatch id o kr)) ->
  (forall c, P (Call c)) ->
  (forall es, Forall P es -> P (Iteration es)) ->
  forall e, P e.
Proof.
  intros HD HC HI. fix IH 1. intros [id o kr|c|es]; [apply HD|apply HC|apply HI].
  induction es as [|e es IHes]; constructor; [apply IH|exact IHes].
Qed.

(** ** Invariants of executions *)

Section Invariant.

Variable P : World -> Prop.

Hypothesis P_dispatch_source :
  forall id o kr w, P w -> P (dispatch_source id o kr w).
Hypothesis P_kill : forall kr w, P w -> P (pk_spawn_kill kr w).2.
Hypothesis P_send_stdin :
  forall command wrote w, P w -> P (pk_spawn_send_stdin command wrote w).2.
Hypothesis P_sending : forall b w, P w -> P (upd (set_is_sending_exit b) w).
Hypothesis P_changing : forall b w, P w -> P (upd (set_is_changing_dispatcher b) w).
Hypothesis P_running : forall w, P w -> P (upd (set_exit_loop true) w).
Hypothesis P_spawn :
  forall argv envp os w evs, P w -> P (world_of (spawn_instance argv envp os w evs)).

Section Loop.

Variable loop : World -> list event -> outcome unit.
Hypothesis P_loop : forall w evs, P w -> P (world_of (loop w evs)).

Lemma invariant_exit (wrote : Z) (w : World) (evs : list event) :
  P w -> P (world_of (pk_spawn_exit loop wrote w evs)).
Proof.
  intros H. unfold pk_spawn_exit.
  destruct (is_sending_exit (priv w)); [exact H|].
  pose proof (P_send_stdin "exit" wrote _ (P_sending true _ H)) as Hs.
  destruct (pk_spawn_send_stdin _ _ _) as [[] w1]; cbn [fst snd] in *.
  - pose proof (P_loop w1 evs Hs) as Hl.
    destruct (loop w1 evs); cbn [world_of] in *; auto.
  - cbn [world_of]. auto.
Qed.

Lemma invariant_change_dispatcher argv envp os (w : World) (evs : list event) :
  P w -> P (world_of (change_dispatcher loop argv envp os w evs)).
Proof.
  intros H. unfold change_dispatcher.
  pose proof (invariant_exit (wrote_exit os) _ evs (P_changing true _ H)) as He.
  destruct (pk_spawn_exit _ _ _ _); cbn [world_of] in *; auto.
Qed.

Lemma invariant_argv argv envp os (w : World) (evs : list event) :
  P w -> P (world_of (pk_spawn_argv loop argv envp os w evs)).
Proof.
  intros H. unfold pk_spawn_argv.
  destruct (negb (stdin_fd (priv w) =? -1)); [|by apply P_spawn].
  destruct (negb (egg_strequal _ _)); [by apply invariant_change_dispatcher|].
  destruct (negb (egg_strvequal _ _)); [by apply invariant_change_dispatcher|].
  cbn zeta.
  pose proof (P_send_stdin (g_strjoinv (String TAB EmptyString) (tail argv))
                (wrote_command os) w H) as Hs.
  destruct (pk_spawn_send_stdin _ _ _) as [[] w1]; cbn [fst snd world_of] in *;
    [exact Hs | by apply invariant_change_dispatcher].
Qed.

Lemma invariant_dispatch_event (e : event) (w : World) (rest : list event) :
  P w -> P (world_of (dispatch_event loop e w rest)).
Proof.
  revert w rest. induction e as [id o kr|[kr|wrote|argv envp os]|es IH]
    using event_induction; intros w rest H; cbn [dispatch_event world_of].
  - by apply P_dispatch_source.
  - by apply P_kill.
  - pose proof (invariant_exit wrote w rest H) as He.
    by destruct (pk_spawn_exit _ _ _ _).
  - pose proof (invariant_argv argv envp os w rest H) as He.
    by destruct (pk_spawn_argv _ _ _ _ _ _).
  - revert w rest H. induction IH as [|e es He _ IHes]; intros w rest H; [exact H|].
    cbn [dispatch_all]. specialize (He w rest H).
    destruct (dispatch_event loop e w rest) as [[] w' rest'|w'|w'];
      cbn [world_of] in *; auto.
Qed.

End Loop.

Lemma invariant_main_loop (fuel : nat) (w : World) (evs : list event) :
  P w -> P (world_of (main_loop_iterate fuel w evs)).
Proof.
  revert w evs. induction fuel as [|fuel IH]; intros w evs H; [exact H|].
  cbn [main_loop_iterate]. destruct evs as [|e rest]; [exact H|].
  pose proof (invariant_dispatch_event
                (fun w0 evs0 => main_loop_iterate fuel (upd (set_exit_loop true) w0) evs0)
                (fun w0 evs0 H0 => IH _ evs0 (P_running w0 H0)) e w rest H) as Hd.
  destruct (dispatch_event _ e w rest) as [[] w' rest'|w'|w']; cbn [world_of] in *; auto.
  destruct (exit_loop (priv w')); auto.
Qed.

Lemma invariant_g_main_loop_run (fuel : nat) (w : World) (evs : list event) :
  P w -> P (world_of (g_main_loop_run fuel w evs)).
Proof. intros H. apply invariant_main_loop. by apply P_running. Qed.

Lemma invariant_main_context (fuel : nat) (w : World) (evs : list event) :
  P w -> P (world_of (main_context fuel w evs)).
Proof.
  revert w evs. induction fuel as [|fuel IH]; intros w evs H; [exact H|].
  cbn [main_context]. destruct evs as [|e rest]; [exact H|].
  pose proof (invariant_dispatch_event (g_main_loop_run fuel)
                (invariant_g_main_loop_run fuel) e w rest H) as Hd.
  destruct (dispatch_event _ e w rest) as [[] w' rest'|w'|w']; cbn [world_of] in *; auto.
Qed.

End Invariant.

(** ** What the single operations leave alone *)

Section Frames.

Lemma send_stdin_priv (command : string) (wrote : Z) (w : World) :
  priv (pk_spawn_send_stdin command wrote w).2 = priv w.
Proof. unfold pk_spawn_send_stdin. by repeat case_match. Qed.

Lemma send_stdin_sources (command : string) (wrote : Z) (w : World) :
  sources (pk_spawn_send_stdin command wrote w).2 = sources w /\
  next_source_id (pk_spawn_send_stdin command wrote w).2 = next_source_id w.
Proof. unfold pk_spawn_send_stdin. by repeat case_match. Qed.

Lemma send_stdin_log (command : string) (wrote : Z) (w : World) :
  log (pk_spawn_send_stdin command wrote w).2 =
  if finished (priv w) then log w
  else SysWrite (stdin_fd (priv w)) (c_str command +:+ String LF EmptyString) wrote
         :: log w.
Proof. unfold pk_spawn_send_stdin. by repeat case_match. Qed.


Lemma send_stdin_finished (command : string) (wrote : Z) (w : World) :
  finished (priv w) = true -> pk_spawn_send_stdin command wrote w = (false, w).
Proof. intros H. unfold pk_spawn_send_stdin. by rewrite H. Qed.

(** A launch that gets to spawn leaves the classification as it finds it,
    and marks the child as not finished. *)
Lemma spawn_instance_fields argv envp os (w : World) (evs : list event) :
  let w' := world_of (spawn_instance argv envp os w evs) in
  exit (priv w') = exit (priv w) /\
  finished (priv w') = false /\
  is_sending_exit (priv w') = is_sending_exit (priv w) /\
  is_changing_dispatcher (priv w') = is_changing_dispatcher (priv w) /\
  exit_loop (priv w') = exit_loop (priv w) /\
  kill_id (priv w') = kill_id (priv w).
Proof.
  unfold spawn_instance. destruct w as [[] src nid lg].
  cbn zeta. repeat (case_match; cbn); repeat split.
Qed.

Lemma sigkill_cb_false (kr : kill_result) (w : World) :
  (pk_spawn_sigkill_cb kr w).1 = false.
Proof. unfold pk_spawn_sigkill_cb. by repeat case_match. Qed.

Lemma sigkill_cb_world (kr : kill_result) (w : World) :
  (pk_spawn_sigkill_cb kr w).2 =
  if finished (priv w) then w
  else eff (SysKill (child_pid (priv w)) SIGKILL)
         (upd (set_exit PK_SPAWN_EXIT_TYPE_SIGKILL) w).
Proof. unfold pk_spawn_sigkill_cb. by repeat case_match. Qed.

Lemma kill_world (kr : kill_result) (w : World) :
  (pk_spawn_kill kr w).2 = w \/
  (pk_spawn_kill kr w).2 =
    eff (SysKill (child_pid (priv w)) SIGQUIT)
      (upd (set_exit PK_SPAWN_EXIT_TYPE_SIGQUIT) w) \/
  (pk_spawn_kill kr w).2 =
    upd (set_kill_id (next_source_id w))
      (g_timeout_add SigkillCb
         (eff (SysKill (child_pid (priv w)) SIGQUIT)
            (upd (set_exit PK_SPAWN_EXIT_TYPE_SIGQUIT) w))).2.
Proof. unfold pk_spawn_kill. repeat case_match; auto. Qed.

Lemma dispatch_source_cases (id : Z) (o : poll_obs) (kr : kill_result) (w : World) :
  let w0 := fun f => eff (Fired id f) w in
  (sources w !! id = None /\ dispatch_source id o kr w = w) \/
  (sources w !! id = Some SigkillCb /\
     dispatch_source id o kr w =
       g_source_remove id (pk_spawn_sigkill_cb kr (w0 SigkillCb)).2) \/
  (sources w !! id = Some CheckChild /\ finished (priv w) = true /\
     dispatch_source id o kr w = g_source_remove id (w0 CheckChild)) \/
  (sources w !! id = Some CheckChild /\ finished (priv w) = false /\
     wait_ret o <> child_pid (priv w) /\
     dispatch_source id o kr w = drained o (w0 CheckChild)) \/
  (sources w !! id = Some CheckChild /\ finished (priv w) = false /\
     wait_ret o = child_pid (priv w) /\
     dispatch_source id o kr w =
       g_source_remove id (reap_child (wait_status o) (drained o (w0 CheckChild)))).
Proof.
  cbn zeta. unfold dispatch_source.
  destruct (sources w !! id) as [[]|]; [| |by left].
  - rewrite check_child_unfold. cbn [eff priv].
    destruct (finished (priv w)); [by right; right; left|].
    destruct (Z.eqb_spec (wait_ret o) (child_pid (priv w))); cbn [negb fst snd].
    + by right; right; right; right.
    + by right; right; right; left.
  - right; left. by rewrite sigkill_cb_false.
Qed.

End Frames.

(** ** "unknown" is only the classification of a new spawner *)

Section Classified.

Lemma classified_reap (status : Z) (w : World) :
  classified w -> classified (reap_child status w).
Proof.
  unfold classified. intros H.
  destruct (reap_child_fields status w) as (_&_&_&_&_&_&_&_&_&_&_&->).
  rewrite quit_exit_loop_exit, classify_status_exit.
  repeat case_match; done.
Qed.

Lemma classified_dispatch_source id o kr (w : World) :
  classified w -> classified (dispatch_source id o kr w).
Proof.
  intros H.
  destruct (dispatch_source_cases id o kr w)
    as [[_ ->]|[[_ ->]|[(_&_&->)|[(_&_&_&->)|(_&_&_&->)]]]]; try exact H.
  - rewrite sigkill_cb_world. cbn [eff priv]. by destruct (finished (priv w)).
  - unfold classified. cbn [g_source_remove priv]. rewrite drained_priv.
    by destruct (priv w).
  - unfold classified. cbn [g_source_remove priv].
    apply classified_reap. unfold classified. rewrite drained_priv.
    by destruct (priv w).
Qed.

Lemma classified_execution_step (fuel : nat) (w : World) (evs : list event) :
  classified w -> classified (world_of (main_context fuel w evs)).
Proof.
  apply invariant_main_context; clear; unfold classified.
  - apply classified_dispatch_source.
  - intros kr w H. by destruct (kill_world kr w) as [->|[->| ->]].
  - intros c n w H. by rewrite send_stdin_priv.
  - intros b w H. by destruct w as [[] ? ? ?].
  - intros b w H. by destruct w as [[] ? ? ?].
  - intros w H. by destruct w as [[] ? ? ?].
  - intros argv envp os w evs H.
    by destruct (spawn_instance_fields argv envp os w evs) as (-> & _).
Qed.

End Classified.

(** ** Inside the exit loop *)

Section ExitLoop.










End ExitLoop.

(** ** Forced termination *)

Section Kill.

Lemma kill_when_finished (kr : kill_result) (w : World) :
  finished (priv w) = true -> pk_spawn_kill kr w = (false, w).
Proof. intros H. unfold pk_spawn_kill. by rewrite H. Qed.

Lemma kill_posix_installs_timer (kr : kill_result) (w : World) :
  finished (priv w) = false -> posix_kill kr ->
  pk_spawn_kill kr w =
  (true, upd (set_kill_id (next_source_id w))
           (g_timeout_add SigkillCb
              (eff (SysKill (child_pid (priv w)) SIGQUIT)
                 (upd (set_exit PK_SPAWN_EXIT_TYPE_SIGQUIT) w))).2).
Proof.
  intros Hfin Hposix. unfold pk_spawn_kill. rewrite Hfin.
  assert ((kill_ret kr =? EINVAL) = false) as ->.
  { apply Z.eqb_neq. unfold EINVAL. destruct Hposix as [?|[? _]]; lia. }
  assert ((kill_ret kr =? EPERM) = false) as ->.
  { apply Z.eqb_neq. unfold EPERM. destruct Hposix as [?|[? _]]; lia. }
  reflexivity.
Qed.

(** What the comparison does catch: a [kill] that returns the error number
    itself. *)
Lemma kill_aborts_on_returned_errno (kr : kill_result) (w : World) :
  finished (priv w) = false ->
  kill_ret kr = EINVAL \/ kill_ret kr = EPERM ->
  (pk_spawn_kill kr w).1 = false /\
  sources (pk_spawn_kill kr w).2 = sources w.
Proof.
  intros Hfin Hret. unfold pk_spawn_kill. rewrite Hfin.
  destruct Hret as [-> | ->]; by cbn.
Qed.

End Kill.

(** C3 (amended): [pk_spawn_kill] on a child that has not finished sets
    the classification to "sigquit" whatever it was before, and sends
    SIGQUIT to the child. *)
Theorem kill_sets_sigquit (kr : kill_result) (w : World) :
  finished (priv w) = false ->
  let w' := (pk_spawn_kill kr w).2 in
  exit (priv w') = PK_SPAWN_EXIT_TYPE_SIGQUIT /\
  log w' = SysKill (child_pid (priv w)) SIGQUIT :: log w.
Proof.
  intros Hfin. unfold pk_spawn_kill. rewrite Hfin.
  repeat case_match; by destruct w as [[] ? ? ?].
Qed.

Lemma kill_sets_sigquit_witness :
  finished (priv relaunched) = false /\
  let w' := (pk_spawn_kill kill_ok relaunched).2 in
  exit (priv w') = PK_SPAWN_EXIT_TYPE_SIGQUIT /\
  log w' = SysKill (child_pid (priv relaunched)) SIGQUIT :: log relaunched.
Proof.
  split; [vm_compute; reflexivity|].
  apply (kill_sets_sigquit kill_ok relaunched). vm_compute; reflexivity.
Defined.

(** C3 as stated fails: a second helper launched after the first one exited
    with code 0 is not finished and still carries "success"; a kill turns
    that classification into "sigquit". *)
Lemma kill_overwrites_classification :
  finished (priv relaunched) = false /\
  exit (priv relaunched) = PK_SPAWN_EXIT_TYPE_SUCCESS /\
  exit (priv relaunched) <> PK_SPAWN_EXIT_TYPE_UNKNOWN /\
  exit (priv (pk_spawn_kill kill_ok relaunched).2) = PK_SPAWN_EXIT_TYPE_SIGQUIT /\
  exit (priv (pk_spawn_kill kill_ok relaunched).2) <> exit (priv relaunched).
Proof. vm_compute. repeat split; discriminate. Qed.

(** C5: [kill] reports a failure as -1 with [errno] set, the code compares
    the value returned with the error numbers: when the system refuses the
    SIGQUIT with EPERM, [pk_spawn_kill] returns TRUE and the SIGKILL timer
    is installed. *)
Lemma kill_ignores_errno :
  posix_kill kill_denied /\
  kill_errno kill_denied = EPERM /\
  finished (priv running) = false /\
  (pk_spawn_kill kill_denied running).1 = true /\
  sources (pk_spawn_kill kill_denied running).2
    !! kill_id (priv (pk_spawn_kill kill_denied running).2) = Some SigkillCb.
Proof.
  split; [right; split; reflexivity|]. vm_compute. repeat split.
Qed.

(** ** Signals and timers along an execution *)

Section Timers.

Lemma quit_sent_app (l l' : list effect) : quit_sent l' -> quit_sent (l ++ l').
Proof. intros [pid H]. exists pid. apply in_or_app. by right. Qed.

Lemma quiet_not_fired (l l' : list effect) (id : Z) (f : GSourceFunc) :
  Forall quiet l -> In (Fired id f) (l ++ l') -> In (Fired id f) l'.
Proof.
  intros Hq Hin. apply in_app_or in Hin as [Hin|Hin]; [|exact Hin].
  rewrite Forall_forall in Hq. apply list_elem_of_In, Hq in Hin. destruct Hin.
Qed.

Lemma log_ok_quiet (l l' : list effect) :
  Forall quiet l -> log_ok l' -> log_ok (l ++ l').
Proof.
  induction 1 as [|e l He Hl IH]; intros H; [exact H|].
  cbn [app log_ok]. split; [|by apply IH].
  destruct e as [| |pid []| | | | | |]; try exact I; destruct He.
Qed.

(** Steps that only log quiet effects and register nothing keep the
    invariant. *)
Lemma timers_ok_quiet (w w' : World) (l : list effect) :
  Forall quiet l -> log w' = l ++ log w ->
  (forall id f, sources w' !! id = Some f -> sources w !! id = Some f) ->
  next_source_id w' = next_source_id w ->
  timers_ok w -> timers_ok w'.
Proof.
  intros Hq Hlog Hsrc Hnext (H1 & H2 & H3 & H4).
  unfold timers_ok. rewrite Hlog, Hnext. split; [|split; [|split]].
  - by apply log_ok_quiet.
  - intros id Hs. apply Hsrc, H2 in Hs as [Hsent Hnf]. split.
    + by apply quit_sent_app.
    + intros Hin. apply quiet_not_fired in Hin; auto.
  - intros id f H. eapply H3, Hsrc, H.
  - intros id f H. apply quiet_not_fired in H; eauto.
Qed.

Lemma timers_ok_upd f (w : World) : timers_ok w -> timers_ok (upd f w).
Proof. by apply (timers_ok_quiet w _ []). Qed.

Lemma timers_ok_eff (e : effect) (w : World) :
  quiet e -> timers_ok w -> timers_ok (eff e w).
Proof. intros He. apply (timers_ok_quiet w _ [e]); auto. Qed.

Lemma timers_ok_remove (id : Z) (w : World) :
  timers_ok w -> timers_ok (g_source_remove id w).
Proof.
  apply (timers_ok_quiet w _ []); auto.
  intros id' f. cbn. rewrite lookup_delete_Some. tauto.
Qed.

Lemma timers_ok_timeout_add (f : GSourceFunc) (w : World) :
  (f = SigkillCb -> quit_sent (log w)) ->
  timers_ok w -> timers_ok (g_timeout_add f w).2.
Proof.
  intros Hf (H1 & H2 & H3 & H4). unfold timers_ok, g_timeout_add.
  cbn [snd log sources next_source_id]. split; [exact H1|split; [|split]].
  - intros id H. apply lookup_insert_Some in H as [[<- Ef]|[_ H]].
    + split; [by apply Hf|]. intros Hin. apply H4 in Hin. lia.
    + by apply H2 in H.
  - intros id g H. apply lookup_insert_Some in H as [[<- <-]|[_ H]]; [lia|].
    apply H3 in H. lia.
  - intros id g H. apply H4 in H. lia.
Qed.

Lemma quiet_stdout (ls : list string) : Forall quiet (rev (EmitStdout <$> ls)).
Proof.
  apply Forall_forall. intros e He. apply list_elem_of_In, in_rev in He.
  apply list_elem_of_In, list_elem_of_fmap in He as (l & -> & _). exact I.
Qed.

Lemma timers_ok_drained (o : poll_obs) (w : World) :
  timers_ok w -> timers_ok (drained o w).
Proof.
  unfold drained. eapply timers_ok_quiet.
  - apply quiet_stdout.
  - cbn [upd log]. apply log_emit_stdout.
  - intros id f. cbn [upd sources]. by rewrite sources_emit_stdout.
  - cbn [upd next_source_id]. apply next_emit_stdout.
Qed.

Lemma timers_ok_reap (status : Z) (w : World) :
  timers_ok w -> timers_ok (reap_child status w).
Proof.
  apply (timers_ok_quiet w _
           [EmitExit (exit (priv (reap_child status w)));
            SysClose (stdout_fd (priv w)); SysClose (stdin_fd (priv w))]).
  - repeat constructor.
  - apply reap_child_log.
  - apply reap_child_sources.
  - apply reap_child_next.
Qed.

Lemma timers_ok_dispatch_source id o kr (w : World) :
  timers_ok w -> timers_ok (dispatch_source id o kr w).
Proof.
  intros H.
  assert (Hcheck : sources w !! id = Some CheckChild ->
                   timers_ok (eff (Fired id CheckChild) w)).
  { intros Hsrc. destruct H as (H1 & H2 & H3 & H4).
    split; [|split; [|split]]; cbn [eff log sources next_source_id log_ok].
    - auto.
    - intros id' Hs. apply H2 in Hs as [Hsent Hnf]. split.
      + by apply quit_sent_app with (l := [_]).
      + intros [Hin|Hin]; [discriminate|]. auto.
    - exact H3.
    - intros id' f [[= <- <-]|Hin]; eauto. }
  destruct (dispatch_source_cases id o kr w)
    as [[_ ->]|[[Hsrc ->]|[(Hsrc&_&->)|[(Hsrc&_&_&->)|(Hsrc&_&_&->)]]]];
    auto using timers_ok_remove, timers_ok_drained, timers_ok_reap.
  rewrite sigkill_cb_world. destruct H as (H1 & H2 & H3 & H4).
  destruct (H2 id Hsrc) as [Hq Hnf].
  assert (Hfresh : forall id', id' <> id -> sources w !! id' = Some SigkillCb ->
            ~ In (Fired id' SigkillCb) (Fired id SigkillCb :: log w)).
  { intros id' Hne Hs' [[= ?]|Hin]; [congruence|]. apply H2 in Hs'. by destruct Hs'. }
  assert (Hsrc' : forall id' f, delete id (sources w) !! id' = Some f ->
            id' <> id /\ sources w !! id' = Some f).
  { intros id' f Hd. apply lookup_delete_Some in Hd as [? ?]. split; congruence. }
  cbn [eff priv]. destruct (finished (priv w));
    (split; [|split; [|split]]);
    cbn [g_source_remove eff upd log sources next_source_id log_ok].
  - auto.
  - intros id' Hd. apply Hsrc' in Hd as [Hne Hd]. split; [|by apply Hfresh].
    by apply quit_sent_app with (l := [_]).
  - intros id' f Hd. apply Hsrc' in Hd as [_ Hd]. eauto.
  - intros id' f [[= <- <-]|Hin]; eauto.
  - repeat split; eauto. by apply quit_sent_app with (l := [_]).
  - intros id' Hd. apply Hsrc' in Hd as [Hne Hd]. split.
    + by apply quit_sent_app with (l := [_; _]).
    + intros [Hin|Hin]; [discriminate|]. by eapply Hfresh.
  - intros id' f Hd. apply Hsrc' in Hd as [_ Hd]. eauto.
  - intros id' f [Hin|[[= <- <-]|Hin]]; [discriminate| |]; eauto.
Qed.

Lemma timers_ok_kill (kr : kill_result) (w : World) :
  timers_ok w -> timers_ok (pk_spawn_kill kr w).2.
Proof.
  intros H.
  assert (Hq : timers_ok (eff (SysKill (child_pid (priv w)) SIGQUIT)
                            (upd (set_exit PK_SPAWN_EXIT_TYPE_SIGQUIT) w))).
  { apply timers_ok_eff; [exact I|]. by apply timers_ok_upd. }
  destruct (kill_world kr w) as [->|[->| ->]]; auto.
  apply timers_ok_upd, timers_ok_timeout_add; [|exact Hq].
  intros _. eexists. left. reflexivity.
Qed.

Lemma timers_ok_send_stdin command wrote (w : World) :
  timers_ok w -> timers_ok (pk_spawn_send_stdin command wrote w).2.
Proof.
  unfold pk_spawn_send_stdin.
  repeat case_match; cbn [snd]; auto using timers_ok_eff.
  all: by apply timers_ok_eff.
Qed.

Lemma timers_ok_spawn argv envp os (w : World) (evs : list event) :
  timers_ok w -> timers_ok (world_of (spawn_instance argv envp os w evs)).
Proof.
  intros H. unfold spawn_instance. cbn zeta.
  repeat case_match; cbn [world_of];
    repeat first
      [ apply timers_ok_upd
      | apply timers_ok_eff; [exact I|]
      | apply timers_ok_timeout_add; [discriminate|] ];
    exact H.
Qed.

Lemma timers_ok_new : timers_ok pk_spawn_new.
Proof.
  unfold timers_ok, pk_spawn_new. cbn [sources log next_source_id log_ok].
  split; [exact I|split; [|split]].
  - intros id H. by rewrite lookup_empty in H.
  - intros id f H. by rewrite lookup_empty in H.
  - intros id f [].
Qed.

Lemma timers_ok_execution (evs : list event) : timers_ok (execution evs).
Proof.
  unfold execution. apply invariant_main_context;
    auto using timers_ok_dispatch_source, timers_ok_kill, timers_ok_send_stdin,
      timers_ok_upd, timers_ok_spawn, timers_ok_new.
Qed.

(** The invariant of the log, read on any split of the log. *)
Lemma log_ok_split (l l1 l2 : list effect) :
  log_ok l -> l = l1 ++ l2 -> log_ok l2.
Proof.
  intros H ->. induction l1 as [|e l1 IH]; [exact H|].
  cbn [app log_ok] in H. apply IH, H.
Qed.

End Timers.

(** X20: in every execution a SIGKILL is sent only by the callback of a
    SIGKILL timer as it fires, only after some SIGQUIT was sent (to whatever
    process was the child then), only when the spawner has not finished at
    that moment, and no SIGKILL timer fires twice. *)
Theorem sigkill_only_after_sigquit (evs : list event) :
  let l := log (execution evs) in
  (forall l1 l2 pid, l = l1 ++ SysKill pid SIGKILL :: l2 ->
     (exists id l3, l2 = Fired id SigkillCb :: l3) /\
     (exists pid', In (SysKill pid' SIGQUIT) l2)) /\
  (forall l1 l2 id, l = l1 ++ Fired id SigkillCb :: l2 ->
     ~ In (Fired id SigkillCb) l2) /\
  (forall kr w, finished (priv w) = true -> pk_spawn_sigkill_cb kr w = (false, w)) /\
  (forall kr w, finished (priv w) = false ->
     log (pk_spawn_sigkill_cb kr w).2 = SysKill (child_pid (priv w)) SIGKILL :: log w) /\
  (forall id o kr w, sources w !! id = Some SigkillCb ->
     sources (dispatch_source id o kr w) !! id = None) /\
  (forall kr w, finished (priv w) = false -> posix_kill kr ->
     log (pk_spawn_kill kr w).2 = SysKill (child_pid (priv w)) SIGQUIT :: log w /\
     sources (pk_spawn_kill kr w).2 !! kill_id (priv (pk_spawn_kill kr w).2)
       = Some SigkillCb).
Proof.
  cbn zeta. destruct (timers_ok_execution evs) as (Hlog & _).
  split; [|split; [|split; [|split; [|split]]]].
  - intros l1 l2 pid E. apply (log_ok_split _ l1 _ Hlog) in E. apply E.
  - intros l1 l2 id E. apply (log_ok_split _ l1 _ Hlog) in E. apply E.
  - intros kr w H. unfold pk_spawn_sigkill_cb. by rewrite H.
  - intros kr w H. rewrite sigkill_cb_world, H. reflexivity.
  - intros id o kr w H. unfold dispatch_source. rewrite H, sigkill_cb_false.
    cbn [g_source_remove sources]. apply lookup_delete_eq.
  - intros kr w Hfin Hposix.
    rewrite kill_posix_installs_timer by assumption.
    cbn [snd upd g_timeout_add eff priv sources log].
    split; [reflexivity|]. destruct (priv w). cbn. apply lookup_insert_eq.
Qed.

Lemma sigkill_only_after_sigquit_witness :
  let evs := [launch 100; Call (CallKill kill_ok); Dispatch 1 still_running kill_ok;
              Dispatch 2 still_running kill_ok; Dispatch 2 still_running kill_ok;
              Dispatch 1 (exited 100 0) kill_ok] in
  In (SysKill 100 SIGKILL) (log (execution evs)) /\
  let l := log (execution evs) in
  (forall l1 l2 pid, l = l1 ++ SysKill pid SIGKILL :: l2 ->
     (exists id l3, l2 = Fired id SigkillCb :: l3) /\
     (exists pid', In (SysKill pid' SIGQUIT) l2)) /\
  (forall l1 l2 id, l = l1 ++ Fired id SigkillCb :: l2 ->
     ~ In (Fired id SigkillCb) l2) /\
  (forall kr w, finished (priv w) = true -> pk_spawn_sigkill_cb kr w = (false, w)) /\
  (forall kr w, finished (priv w) = false ->
     log (pk_spawn_sigkill_cb kr w).2 = SysKill (child_pid (priv w)) SIGKILL :: log w) /\
  (forall id o kr w, sources w !! id = Some SigkillCb ->
     sources (dispatch_source id o kr w) !! id = None) /\
  (forall kr w, finished (priv w) = false -> posix_kill kr ->
     log (pk_spawn_kill kr w).2 = SysKill (child_pid (priv w)) SIGQUIT :: log w /\
     sources (pk_spawn_kill kr w).2 !! kill_id (priv (pk_spawn_kill kr w).2)
       = Some SigkillCb).
Proof.
  intros evs. split; [vm_compute; tauto|].
  apply (sigkill_only_after_sigquit evs).
Defined.

(** C8: the reap cancels the timer [kill_id] names and no other.  After two
    kills of the first helper its reap leaves the timer of the first kill
    registered; with the second helper running that timer fires and SIGKILL
    goes to the second helper, to which no SIGQUIT was ever sent. *)
Theorem sigkill_without_sigquit :
  let l := log (execution two_kills_then_relaunch) in
  In (SysKill 101 SIGKILL) l /\
  ~ In (SysKill 101 SIGQUIT) l /\
  (forall pid, In (SysKill pid SIGQUIT) l -> pid = 100) /\
  child_pid (priv (execution two_kills_then_relaunch)) = 101 /\
  exit (priv (execution two_kills_then_relaunch)) = PK_SPAWN_EXIT_TYPE_SIGKILL.
Proof.
  vm_compute. split; [tauto|]. split; [intuition discriminate|].
  split; [|split; reflexivity].
  intros pid H. repeat (destruct H as [H|H]; [try discriminate H; by injection H|]).
  destruct H.
Qed.

(** ** A graceful exit that comes back *)

Section ExitReturns.

Lemma drained_sources (o : poll_obs) (w : World) : sources (drained o w) = sources w.
Proof. unfold drained. cbn [upd sources]. apply sources_emit_stdout. Qed.

(** With the poll source in place the exit loop runs through the ticks that
    find the child alive and returns at the tick that reaps it. *)
Lemma exit_loop_reaps (fuel : nat) (w : World) (id : Z) (polls : list event)
    (o : poll_obs) (kr : kill_result) (rest : list event) :
  exit_loop (priv w) = true -> finished (priv w) = false ->
  sources w !! id = Some CheckChild ->
  Forall (alive_tick id (child_pid (priv w))) polls ->
  wait_ret o = child_pid (priv w) ->
  (length polls < fuel)%nat ->
  exists w', main_loop_iterate fuel w (polls ++ Dispatch id o kr :: rest)
             = Returned tt w' rest /\
             finished (priv w') = true /\
             is_sending_exit (priv w') = is_sending_exit (priv w).
Proof.
  revert w fuel. induction polls as [|e polls IH]; intros w fuel Hl Hf Hs Hp Hw Hfuel.
  - destruct fuel as [|fuel]; [cbn in Hfuel; lia|].
    cbn [app main_loop_iterate dispatch_event].
    destruct (dispatch_source_cases id o kr w)
      as [[? _]|[[? _]|[(_&?&_)|[(_&_&?&_)|(_&_&_&->)]]]]; try congruence.
    destruct (reap_child_fields (wait_status o) (drained o (eff (Fired id CheckChild) w)))
      as (_&_&_&_&Hf'&Hl'&Hs'&_).
    cbn zeta in Hl', Hf', Hs'. rewrite priv_remove, Hl'. eexists.
    split; [reflexivity|]. rewrite priv_remove, Hf', Hs'. split; [reflexivity|].
    autorewrite with world. by destruct (priv w).
  - destruct fuel as [|fuel]; [cbn in Hfuel; lia|].
    inversion Hp as [|? ? (o' & kr' & -> & Hne) Hp']; subst.
    cbn [app main_loop_iterate dispatch_event].
    destruct (dispatch_source_cases id o' kr' w)
      as [[? _]|[[? _]|[(_&?&_)|[(_&_&_&->)|(_&_&?&_)]]]]; try congruence.
    assert (Hpriv : priv (drained o' (eff (Fired id CheckChild) w)) =
              set_stdout_buf (stdout_buf (priv (drained o' (eff (Fired id CheckChild) w))))
                (priv w)).
    { rewrite drained_priv. autorewrite with world. by destruct (priv w). }
    assert (exit_loop (priv (drained o' (eff (Fired id CheckChild) w))) = true) as Hl2
      by (rewrite Hpriv; by destruct (priv w)).
    rewrite Hl2.
    replace (is_sending_exit (priv w))
      with (is_sending_exit (priv (drained o' (eff (Fired id CheckChild) w))))
      by (rewrite Hpriv; by destruct (priv w)).
    apply IH.
    + exact Hl2.
    + rewrite Hpriv. by destruct (priv w).
    + by rewrite drained_sources.
    + rewrite Hpriv. by destruct (priv w).
    + rewrite Hpriv. by destruct (priv w).
    + cbn in Hfuel. lia.
Qed.

(** The same for [pk_spawn_exit] as a whole. *)
Lemma exit_returns (fuel : nat) (wrote : Z) (w : World) (id : Z)
    (polls : list event) (o : poll_obs) (kr : kill_result) (rest : list event) :
  is_sending_exit (priv w) = false -> finished (priv w) = false ->
  guint (gint wrote) = 5 ->
  sources w !! id = Some CheckChild ->
  Forall (alive_tick id (child_pid (priv w))) polls ->
  wait_ret o = child_pid (priv w) ->
  (length polls < fuel)%nat ->
  exists w', pk_spawn_exit (g_main_loop_run fuel) wrote w
               (polls ++ Dispatch id o kr :: rest) = Returned true w' rest /\
             finished (priv w') = true /\ is_sending_exit (priv w') = false.
Proof.
  intros Hs Hf Hw Hsrc Hp Hwait Hfuel. unfold pk_spawn_exit, pk_spawn_send_stdin.
  rewrite Hs. cbn [upd priv].
  replace (finished (set_is_sending_exit true (priv w))) with false
    by (by destruct (priv w)).
  replace (guint (strlen (c_str "exit" +:+ String LF EmptyString))) with 5
    by (vm_compute; reflexivity).
  rewrite Hw. cbn [Z.eqb negb fst snd Pos.eqb]. unfold g_main_loop_run.
  edestruct (exit_loop_reaps fuel) as (w' & -> & Hf' & _);
    [| | | | |eassumption
     |eexists; split; [reflexivity|by destruct w' as [[] ? ? ?]]];
    eauto; cbn; try exact Hsrc; by destruct (priv w).
Qed.

End ExitReturns.




(** C9: when a graceful exit has written its line and the poll tick has
    reaped the child, the call returns success, and a second graceful exit
    right after it returns failure and leaves everything as it was: it finds
    the child finished and writes nothing. *)
Theorem second_graceful_exit_fails (fuel : nat) (wrote : Z) (w : World) (id : Z)
    (polls : list event) (o : poll_obs) (kr : kill_result) (rest : list event) :
  is_sending_exit (priv w) = false -> finished (priv w) = false ->
  guint (gint wrote) = 5 ->
  sources w !! id = Some CheckChild ->
  Forall (alive_tick id (child_pid (priv w))) polls ->
  wait_ret o = child_pid (priv w) ->
  (length polls < fuel)%nat ->
  exists w1,
    pk_spawn_exit (g_main_loop_run fuel) wrote w (polls ++ Dispatch id o kr :: rest)
      = Returned true w1 rest /\
    finished (priv w1) = true /\
    forall loop wrote2 evs2,
      pk_spawn_send_stdin "exit" wrote2 (upd (set_is_sending_exit true) w1)
        = (false, upd (set_is_sending_exit true) w1) /\
      pk_spawn_exit loop wrote2 w1 evs2 = Returned false w1 evs2.
Proof.
  intros Hs Hf Hw Hsrc Hp Hwait Hfuel.
  destruct (exit_returns fuel wrote w id polls o kr rest) as (w1 & H1 & Hf1 & Hs1);
    try assumption.
  exists w1. split; [exact H1|].
  split; [exact Hf1|]. intros loop wrote2 evs2.
  assert (Hsend : pk_spawn_send_stdin "exit" wrote2 (upd (set_is_sending_exit true) w1)
                  = (false, upd (set_is_sending_exit true) w1)).
  { apply send_stdin_finished. cbn. by destruct (priv w1). }
  split; [exact Hsend|].
  unfold pk_spawn_exit. rewrite Hs1, Hsend. cbn [fst snd].
  f_equal. destruct w1 as [[] ? ? ?]. cbn in *. by subst.
Qed.

Lemma second_graceful_exit_fails_witness :
  is_sending_exit (priv running) = false /\ finished (priv running) = false /\
  guint (gint 5) = 5 /\
  sources running !! 1 = Some CheckChild /\
  Forall (alive_tick 1 (child_pid (priv running))) [Dispatch 1 still_running kill_ok] /\
  wait_ret (exited 100 0) = child_pid (priv running) /\
  (length [Dispatch 1 still_running kill_ok] < 2)%nat /\
  exists w1,
    pk_spawn_exit (g_main_loop_run 2) 5 running
      ([Dispatch 1 still_running kill_ok] ++ Dispatch 1 (exited 100 0) kill_ok :: [])
      = Returned true w1 [] /\
    finished (priv w1) = true /\
    forall loop wrote2 evs2,
      pk_spawn_send_stdin "exit" wrote2 (upd (set_is_sending_exit true) w1)
        = (false, upd (set_is_sending_exit true) w1) /\
      pk_spawn_exit loop wrote2 w1 evs2 = Returned false w1 evs2.
Proof.
  assert (Ha : Forall (alive_tick 1 (child_pid (priv running)))
                 [Dispatch 1 still_running kill_ok]).
  { constructor; [|constructor]. exists still_running, kill_ok.
    split; [reflexivity|]. vm_compute. discriminate. }
  repeat (split; [first [exact Ha | vm_compute; reflexivity]|]).
  apply (second_graceful_exit_fails 2 5 running 1 [Dispatch 1 still_running kill_ok]
           (exited 100 0) kill_ok []);
    first [exact Ha | vm_compute; reflexivity].
Defined.

(** ** Reuse of the running instance *)

Section Reuse.

Lemma extends_more (L l : list effect) (w w' : World) :
  log w' = l ++ log w -> extends L w -> extends L w'.
Proof. intros H [l0 H0]. exists (l ++ l0). by rewrite H, H0, app_assoc. Qed.

(** Whatever comes back from the spawn has logged the spawn, and nothing
    it logs is a write. *)
Lemma spawn_instance_log argv envp os (w w' : World) (evs rest : list event) (r : bool) :
  spawn_instance argv envp os w evs = Returned r w' rest ->
  exists l, log w' = l ++ SysSpawn argv envp (spawn_ok (spawned os)) :: log w /\
            Forall not_a_write l /\ r = spawn_ok (spawned os).
Proof.
  unfold spawn_instance. cbn zeta.
  repeat case_match; intros [= <- <- <-]; cbn [log eff upd g_timeout_add snd];
    (exists [] + eexists [_] + eexists [_; _]);
    (split; [reflexivity|split; [by repeat constructor|]]).
  all: destruct (spawn_ok (spawned os)); cbn in *; congruence.
Qed.

(** The log only grows, whatever the main context brings. *)
Lemma extends_g_main_loop_run (L : list effect) (fuel : nat) (w : World) (evs : list event) :
  extends L w -> extends L (world_of (g_main_loop_run fuel w evs)).
Proof.
  apply invariant_g_main_loop_run; clear.
  - intros id o kr w H.
    destruct (dispatch_source_cases id o kr w)
      as [[_ ->]|[[_ ->]|[(_&_&->)|[(_&_&_&->)|(_&_&_&->)]]]]; try exact H.
    + rewrite sigkill_cb_world. cbn [eff priv]. destruct (finished (priv w)).
      * by apply (extends_more L [Fired id SigkillCb] w).
      * by apply (extends_more L [SysKill (child_pid (priv w)) SIGKILL;
                                  Fired id SigkillCb] w).
    + by apply (extends_more L [Fired id CheckChild] w).
    + destruct (drained_log o (eff (Fired id CheckChild) w)) as [ls Hl].
      apply (extends_more L (rev (EmitStdout <$> ls) ++ [Fired id CheckChild]) w);
        [|exact H].
      rewrite Hl, <- app_assoc. reflexivity.
    + destruct (drained_log o (eff (Fired id CheckChild) w)) as [ls Hl].
      set (w1 := drained o (eff (Fired id CheckChild) w)) in *.
      apply (extends_more L
               (EmitExit (exit (priv (reap_child (wait_status o) w1)))
                  :: SysClose (stdout_fd (priv w1)) :: SysClose (stdin_fd (priv w1))
                  :: rev (EmitStdout <$> ls) ++ [Fired id CheckChild]) w);
        [|exact H].
      cbn [g_source_remove log]. rewrite reap_child_log, Hl.
      cbn [app]. rewrite <- app_assoc. reflexivity.
  - intros kr w H. destruct (kill_world kr w) as [->|[->| ->]]; [exact H|..];
      by apply (extends_more L [SysKill (child_pid (priv w)) SIGQUIT] w).
  - intros c n w [l H]. unfold extends. rewrite send_stdin_log, H.
    destruct (finished (priv w)); [by exists l|]. eexists (_ :: l). reflexivity.
  - intros b w H. exact H.
  - intros b w H. exact H.
  - intros w H. exact H.
  - intros argv envp os w evs [l H].
    destruct (spawn_instance argv envp os w evs) as [r w' rest|w'|w'] eqn:E.
    + apply spawn_instance_log in E as (l' & Hl & _). cbn [world_of].
      exists (l' ++ SysSpawn argv envp (spawn_ok (spawned os)) :: l).
      rewrite Hl, H, <- app_assoc. reflexivity.
    + unfold spawn_instance in E. cbn zeta in E. repeat case_match; discriminate.
    + unfold spawn_instance in E. cbn zeta in E. unfold extends.
      repeat case_match; try discriminate; injection E as <-;
        cbn [world_of log eff upd]; rewrite H;
        first [ by eexists (_ :: _ :: _ :: l) | by eexists (_ :: _ :: l) ].
Qed.

(** The same after the graceful exit of the old instance. *)
Lemma change_dispatcher_log (fuel : nat) argv envp os (w w' : World)
    (evs rest : list event) (r : bool) :
  change_dispatcher (g_main_loop_run fuel) argv envp os w evs = Returned r w' rest ->
  exists l l0, log w' = l ++ SysSpawn argv envp (spawn_ok (spawned os)) :: l0 ++ log w /\
               Forall not_a_write l /\ r = spawn_ok (spawned os).
Proof.
  unfold change_dispatcher.
  assert (He : extends (log w) (world_of
            (pk_spawn_exit (g_main_loop_run fuel) (wrote_exit os)
               (upd (set_is_changing_dispatcher true) w) evs))).
  { apply invariant_exit.
    - intros c n w0 [l H]. unfold extends. rewrite send_stdin_log, H.
      destruct (finished (priv w0)); [by exists l|]. eexists (_ :: l). reflexivity.
    - intros b w0 H. exact H.
    - apply extends_g_main_loop_run.
    - by exists []. }
  destruct (pk_spawn_exit _ _ _ _) as [a w2 rest2|w2|w2]; try discriminate.
  destruct He as [l0 Hl0].
  intros E. apply spawn_instance_log in E as (l & Hl & Hq & Hr).
  exists l, l0. cbn [upd log world_of] in Hl, Hl0. by rewrite Hl, Hl0.
Qed.

End Reuse.

(** C2 (amended): a launch with a non-empty [argv] reuses the running
    instance, that is, returns success having done nothing but write the
    command line to its stdin, exactly when an instance is running, [argv[0]]
    and [envp] match those of the last launch, and that write is complete;
    in every other case with an instance running it takes the way of the
    graceful exit followed by a spawn, and whenever it returns then, it has
    spawned a process. *)
Theorem launch_reuses_iff (fuel : nat) (a0 : string) (args : list string)
    (envp : option (list string)) (os : argv_os) (w : World) (evs : list event) :
  let argv := a0 :: args in
  let line := c_str (g_strjoinv (String TAB EmptyString) args) +:+ String LF EmptyString in
  let written := eff (SysWrite (stdin_fd (priv w)) line (wrote_command os)) w in
  let out := pk_spawn_argv (g_main_loop_run fuel) argv envp os w evs in
  let signature :=
    negb (stdin_fd (priv w) =? -1)
    && egg_strequal (last_argv0 (priv w)) (Some a0)
    && egg_strvequal (last_envp (priv w)) envp in
  let write_ok :=
    negb (finished (priv w)) && (guint (gint (wrote_command os)) =? guint (strlen line)) in
  (out = Returned true written evs <-> signature && write_ok = true) /\
  (signature && write_ok = false -> stdin_fd (priv w) <> -1 ->
     out = change_dispatcher (g_main_loop_run fuel) argv envp os
             (if signature && negb (finished (priv w)) then written else w) evs) /\
  (stdin_fd (priv w) = -1 -> out = spawn_instance argv envp os w evs) /\
  (signature && write_ok = false ->
     forall r w' rest, out = Returned r w' rest ->
       r = spawn_ok (spawned os) /\
       exists l, log w' = l ++ log w /\
                 In (SysSpawn argv envp (spawn_ok (spawned os))) l).
Proof.
  cbn zeta.
  set (line := c_str (g_strjoinv (String TAB EmptyString) args) +:+ String LF EmptyString).
  set (written := eff (SysWrite (stdin_fd (priv w)) line (wrote_command os)) w).
  set (sp := SysSpawn (a0 :: args) envp (spawn_ok (spawned os))).
  assert (Hnw : forall r w' rest l l1,
            log w' = l ++ sp :: l1 -> Forall not_a_write l ->
            Returned r w' rest <> Returned true written evs).
  { intros r w' rest l l1 Hl Hq [= _ -> _]. cbn [written eff log] in Hl.
    destruct l as [|e l]; [discriminate Hl|].
    injection Hl as <- _. by inversion Hq. }
  assert (Hcd : forall w0 l0 r w' rest, log w0 = l0 ++ log w ->
            change_dispatcher (g_main_loop_run fuel) (a0 :: args) envp os w0 evs
              = Returned r w' rest ->
            Returned r w' rest <> Returned true written evs /\
            r = spawn_ok (spawned os) /\
            exists l, log w' = l ++ log w /\ In sp l).
  { intros w0 l0 r w' rest H0 E.
    apply change_dispatcher_log in E as (l & l1 & Hl & Hq & ->).
    split; [by eapply Hnw|]. split; [reflexivity|].
    exists (l ++ sp :: l1 ++ l0). rewrite Hl, H0.
    split; [by rewrite <- !app_assoc, <- app_comm_cons, <- app_assoc|].
    apply in_or_app. right. by left. }
  assert (Hsp : forall r w' rest,
            spawn_instance (a0 :: args) envp os w evs = Returned r w' rest ->
            Returned r w' rest <> Returned true written evs /\
            r = spawn_ok (spawned os) /\
            exists l, log w' = l ++ log w /\ In sp l).
  { intros r w' rest E. apply spawn_instance_log in E as (l & Hl & Hq & ->).
    split; [by eapply Hnw|]. split; [reflexivity|].
    exists (l ++ [sp]). rewrite Hl. split; [by rewrite <- app_assoc|].
    apply in_or_app. right. by left. }
  unfold pk_spawn_argv, pk_spawn_send_stdin. cbn [head tail].
  fold line. fold written.
  destruct (Z.eqb_spec (stdin_fd (priv w)) (-1)) as [Hfd|Hfd]; cbn [negb andb].
  { split; [split; [|discriminate]|split; [congruence|split; [reflexivity|]]].
    - intros E. by apply Hsp in E as [E _].
    - intros _ r w' rest E. by apply Hsp in E as (_&?&?). }
  destruct (egg_strequal _ _); cbn [negb andb].
  2:{ split; [split; [|discriminate]|split; [reflexivity|split; [congruence|]]].
      - intros E. by apply (Hcd w []) in E as [E _].
      - intros _ r w' rest E. by apply (Hcd w []) in E as (_&?&?). }
  destruct (egg_strvequal _ _); cbn [negb andb].
  2:{ split; [split; [|discriminate]|split; [reflexivity|split; [congruence|]]].
      - intros E. by apply (Hcd w []) in E as [E _].
      - intros _ r w' rest E. by apply (Hcd w []) in E as (_&?&?). }
  destruct (finished (priv w)); cbn [negb andb fst snd].
  { split; [split; [|discriminate]|split; [reflexivity|split; [congruence|]]].
    - intros E. by apply (Hcd w []) in E as [E _].
    - intros _ r w' rest E. by apply (Hcd w []) in E as (_&?&?). }
  destruct (guint (gint (wrote_command os)) =? guint (strlen line)); cbn [negb fst snd].
  - split; [by split|split; [discriminate|split; [congruence|discriminate]]].
  - split; [split; [|discriminate]|split; [reflexivity|split; [congruence|]]].
    + intros E.
      by apply (Hcd written [SysWrite (stdin_fd (priv w)) line (wrote_command os)])
        in E as [E _].
    + intros _ r w' rest E.
      by apply (Hcd written [SysWrite (stdin_fd (priv w)) line (wrote_command os)])
        in E as (_&?&?).
Qed.

Lemma launch_reuses_iff_witness :
  pk_spawn_argv (g_main_loop_run 1) helper None (os_ok 101) running []
    = Returned true
        (eff (SysWrite 7 (c_str (g_strjoinv (String TAB EmptyString) (tail helper))
                            +:+ String LF EmptyString) 31) running) [] /\
  child_pid (priv (world_of
    (pk_spawn_argv (g_main_loop_run 1) helper None (os_ok 101) running []))) = 100.
Proof.
  destruct (launch_reuses_iff 1 "pk-spawn-dispatcher.py"
              (tail helper) None (os_ok 101) running []) as [[_ Hreuse] _].
  split; [apply Hreuse; vm_compute; reflexivity|vm_compute; reflexivity].
Defined.

(** C2 as stated fails: the helper runs, [argv[0]] and [envp] are those of
    the last launch, but the write of the request line fails; the launch
    asks the helper to exit, waits for its reap and spawns process 101. *)
Lemma launch_respawns_after_failed_write :
  let evs := [Dispatch 1 (exited 100 0) kill_ok] in
  let out := pk_spawn_argv (g_main_loop_run 2) helper None (os_short_write 101) running evs in
  negb (stdin_fd (priv running) =? -1) = true /\
  egg_strequal (last_argv0 (priv running)) (head helper) = true /\
  egg_strvequal (last_envp (priv running)) None = true /\
  child_pid (priv running) = 100 /\
  (exists w', out = Returned true w' [] /\
     child_pid (priv w') = 101 /\
     exists l, log w' = SysSetNonblock 8 :: SysSpawn helper None true :: l) /\
  forall wrote line, out <> Returned true (eff (SysWrite 7 line wrote) running) evs.
Proof.
  cbn zeta. repeat (split; [vm_compute; reflexivity|]). split.
  - eexists. split; [vm_compute; reflexivity|]. split; [reflexivity|].
    eexists. reflexivity.
  - intros wrote line. vm_compute. discriminate.
Qed.

(** C10: a launch made when no instance is running (a new spawner, or the
    previous child reaped) marks the child as not finished and leaves the
    exit classification as the previous reap left it; the reap of the new
    child then maps the exit code only if that classification is still
    "unknown", which is what a spawner is constructed with and what no
    execution ever goes back to. *)
Theorem launch_keeps_classification loop (argv : list string)
    (envp : option (list string)) (os : argv_os) (w : World) (evs : list event) :
  stdin_fd (priv w) = -1 ->
  let w' := world_of (pk_spawn_argv loop argv envp os w evs) in
  (exit (priv w') = exit (priv w) /\ finished (priv w') = false) /\
  (forall o, wait_ret o = child_pid (priv w') -> exit_loop (priv w) = false ->
     exit (priv (pk_spawn_check_child o w').2) =
       if bool_decide (exit (priv w) = PK_SPAWN_EXIT_TYPE_UNKNOWN)
       then if bool_decide (WEXITSTATUS (wait_status o) = 0)
            then PK_SPAWN_EXIT_TYPE_SUCCESS else PK_SPAWN_EXIT_TYPE_FAILED
       else exit (priv w)) /\
  (forall status w0, stdin_fd (priv (reap_child status w0)) = -1) /\
  exit pk_spawn_init = PK_SPAWN_EXIT_TYPE_UNKNOWN /\
  (forall fuel w0 evs0,
     exit (priv w0) <> PK_SPAWN_EXIT_TYPE_UNKNOWN ->
     exit (priv (world_of (main_context fuel w0 evs0))) <> PK_SPAWN_EXIT_TYPE_UNKNOWN).
Proof.
  intros Hfd. cbn zeta.
  assert (pk_spawn_argv loop argv envp os w evs = spawn_instance argv envp os w evs) as ->.
  { unfold pk_spawn_argv. by rewrite Hfd. }
  destruct (spawn_instance_fields argv envp os w evs) as (He&Hf&_&_&Hl&_).
  cbn zeta in *. split; [by split|]. split; [|split; [|split; [reflexivity|]]].
  - intros o Hw Hloop.
    rewrite check_child_exit by assumption.
    rewrite quit_exit_loop_exit, classify_status_exit_loop, Hl, Hloop.
    by rewrite classify_status_exit, He.
  - intros status w0. by destruct (reap_child_fields status w0) as (_&?&_).
  - apply classified_execution_step.
Qed.

Lemma launch_keeps_classification_witness :
  stdin_fd (priv reaped) = -1 /\
  exit (priv reaped) = PK_SPAWN_EXIT_TYPE_SUCCESS /\
  let w' := world_of (pk_spawn_argv (g_main_loop_run 0) helper None (os_ok 101) reaped []) in
  (exit (priv w') = exit (priv reaped) /\ finished (priv w') = false) /\
  (forall o, wait_ret o = child_pid (priv w') -> exit_loop (priv reaped) = false ->
     exit (priv (pk_spawn_check_child o w').2) =
       if bool_decide (exit (priv reaped) = PK_SPAWN_EXIT_TYPE_UNKNOWN)
       then if bool_decide (WEXITSTATUS (wait_status o) = 0)
            then PK_SPAWN_EXIT_TYPE_SUCCESS else PK_SPAWN_EXIT_TYPE_FAILED
       else exit (priv reaped)) /\
  (forall status w0, stdin_fd (priv (reap_child status w0)) = -1) /\
  exit pk_spawn_init = PK_SPAWN_EXIT_TYPE_UNKNOWN /\
  (forall fuel w0 evs0,
     exit (priv w0) <> PK_SPAWN_EXIT_TYPE_UNKNOWN ->
     exit (priv (world_of (main_context fuel w0 evs0))) <> PK_SPAWN_EXIT_TYPE_UNKNOWN).
Proof.
  split; [vm_compute; reflexivity|]. split; [vm_compute; reflexivity|].
  apply (launch_keeps_classification (g_main_loop_run 0) helper None (os_ok 101) reaped []).
  vm_compute; reflexivity.
Defined.

(** ** The fuel of the main loop *)

(** The fuel only bounds the number of events looked at: two loops with
    more fuel than there are events do the same. *)
Section Fuel.

Variables (n : nat) (l1 l2 : World -> list event -> outcome unit).
Hypothesis Hagree : agree_below n l1 l2.

Lemma exit_agree (wrote : Z) (w : World) (evs : list event) :
  (length evs < n)%nat ->
  pk_spawn_exit l1 wrote w evs = pk_spawn_exit l2 wrote w evs /\
  forall r w' rest, pk_spawn_exit l1 wrote w evs = Returned r w' rest ->
    (length rest <= length evs)%nat.
Proof.
  intros Hn. unfold pk_spawn_exit.
  destruct (is_sending_exit (priv w)); [split; [reflexivity|by intros r w' rest [= _ _ <-]]|].
  destruct (pk_spawn_send_stdin _ _ _) as [[] w1]; cbn [fst snd].
  - destruct (Hagree w1 evs Hn) as [<- Hlen].
    split; [reflexivity|]. destruct (l1 w1 evs) as [a w2 rest2|w2|w2]; try discriminate.
    intros r w' rest [= _ _ <-]. eauto.
  - split; [reflexivity|by intros r w' rest [= _ _ <-]].
Qed.

Lemma spawn_instance_rest argv envp os (w w' : World) (evs rest : list event) (r : bool) :
  spawn_instance argv envp os w evs = Returned r w' rest -> rest = evs.
Proof. unfold spawn_instance. cbn zeta. repeat case_match; congruence. Qed.

Lemma change_dispatcher_agree argv envp os (w : World) (evs : list event) :
  (length evs < n)%nat ->
  change_dispatcher l1 argv envp os w evs = change_dispatcher l2 argv envp os w evs /\
  forall r w' rest, change_dispatcher l1 argv envp os w evs = Returned r w' rest ->
    (length rest <= length evs)%nat.
Proof.
  intros Hn. unfold change_dispatcher.
  destruct (exit_agree (wrote_exit os) (upd (set_is_changing_dispatcher true) w) evs Hn)
    as [<- Hlen].
  split; [reflexivity|].
  destruct (pk_spawn_exit l1 _ _ _) as [a w2 rest2|w2|w2]; try discriminate.
  intros r w' rest E. apply spawn_instance_rest in E as ->. eauto.
Qed.

Lemma argv_agree argv envp os (w : World) (evs : list event) :
  (length evs < n)%nat ->
  pk_spawn_argv l1 argv envp os w evs = pk_spawn_argv l2 argv envp os w evs /\
  forall r w' rest, pk_spawn_argv l1 argv envp os w evs = Returned r w' rest ->
    (length rest <= length evs)%nat.
Proof.
  intros Hn. unfold pk_spawn_argv.
  destruct (negb (stdin_fd (priv w) =? -1)).
  2:{ split; [reflexivity|]. intros r w' rest E. by apply spawn_instance_rest in E as ->. }
  destruct (negb (egg_strequal _ _)); [by apply change_dispatcher_agree|].
  destruct (negb (egg_strvequal _ _)); [by apply change_dispatcher_agree|].
  cbn zeta. destruct (pk_spawn_send_stdin _ _ _) as [[] w1]; cbn [fst snd].
  - split; [reflexivity|by intros r w' rest [= _ _ <-]].
  - by apply change_dispatcher_agree.
Qed.

Lemma dispatch_event_agree (e : event) (w : World) (evs : list event) :
  (length evs < n)%nat ->
  dispatch_event l1 e w evs = dispatch_event l2 e w evs /\
  forall a w' rest, dispatch_event l1 e w evs = Returned a w' rest ->
    (length rest <= length evs)%nat.
Proof.
  revert w evs. induction e as [id o kr|[kr|wrote|argv envp os]|es IH]
    using event_induction; intros w evs Hn; cbn [dispatch_event].
  - split; [reflexivity|by intros a w' rest [= _ _ <-]].
  - split; [reflexivity|by intros a w' rest [= _ _ <-]].
  - destruct (exit_agree wrote w evs Hn) as [<- Hlen]. split; [reflexivity|].
    destruct (pk_spawn_exit l1 _ _ _) as [r w2 rest2|w2|w2]; try discriminate.
    intros a w' rest [= _ _ <-]. eauto.
  - destruct (argv_agree argv envp os w evs Hn) as [<- Hlen]. split; [reflexivity|].
    destruct (pk_spawn_argv l1 _ _ _ _ _) as [r w2 rest2|w2|w2]; try discriminate.
    intros a w' rest [= _ _ <-]. eauto.
  - revert w evs Hn. induction IH as [|e es He _ IHes]; intros w evs Hn;
      cbn [dispatch_all].
    + split; [reflexivity|by intros a w' rest [= _ _ <-]].
    + destruct (He w evs Hn) as [<- Hlen].
      destruct (dispatch_event l1 e w evs) as [[] w1 rest1|w1|w1];
        [|split; [reflexivity|discriminate]..].
      specialize (Hlen _ _ _ eq_refl).
      destruct (IHes w1 rest1) as [Heq Hlen']; [lia|].
      split; [exact Heq|]. intros a w' rest E. apply Hlen' in E. lia.
Qed.

End Fuel.

Lemma main_loop_fuel (f1 f2 : nat) (w : World) (evs : list event) :
  (length evs < f1)%nat -> (length evs < f2)%nat ->
  main_loop_iterate f1 w evs = main_loop_iterate f2 w evs /\
  forall a w' rest, main_loop_iterate f1 w evs = Returned a w' rest ->
    (length rest <= length evs)%nat.
Proof.
  revert f2 w evs. induction f1 as [|f1 IH]; intros f2 w evs H1 H2; [lia|].
  destruct f2 as [|f2]; [lia|]. cbn [main_loop_iterate].
  destruct evs as [|e evs]; [split; [reflexivity|discriminate]|].
  cbn [length] in H1, H2.
  assert (Hag : agree_below (S (length evs))
            (fun w0 evs0 => main_loop_iterate f1 (upd (set_exit_loop true) w0) evs0)
            (fun w0 evs0 => main_loop_iterate f2 (upd (set_exit_loop true) w0) evs0)).
  { intros w0 evs0 H0. apply IH; lia. }
  destruct (dispatch_event_agree _ _ _ Hag e w evs (Nat.lt_succ_diag_r _)) as [<- Hlen].
  destruct (dispatch_event _ e w evs) as [a w1 rest1|w1|w1];
    [|split; [reflexivity|discriminate]..].
  specialize (Hlen _ _ _ eq_refl).
  destruct (exit_loop (priv w1)).
  - destruct (IH f2 w1 rest1) as [-> Hlen']; [lia..|].
    split; [reflexivity|]. intros a' w' rest E. apply Hlen' in E. cbn [length]. lia.
  - split; [reflexivity|]. intros a' w' rest [= _ _ <-]. cbn [length]. lia.
Qed.

(** More fuel than events: the result does not depend on the fuel. *)
Lemma g_main_loop_run_fuel (f1 f2 : nat) (w : World) (evs : list event) :
  (length evs < f1)%nat -> (length evs < f2)%nat ->
  g_main_loop_run f1 w evs = g_main_loop_run f2 w evs.
Proof. intros H1 H2. unfold g_main_loop_run. by apply main_loop_fuel. Qed.

Lemma main_context_fuel (f1 f2 : nat) (w : World) (evs : list event) :
  (length evs < f1)%nat -> (length evs < f2)%nat ->
  main_context f1 w evs = main_context f2 w evs.
Proof.
  revert f2 w evs. induction f1 as [|f1 IH]; intros f2 w evs H1 H2; [lia|].
  destruct f2 as [|f2]; [lia|]. cbn [main_context].
  destruct evs as [|e evs]; [reflexivity|]. cbn [length] in H1, H2.
  assert (Hag : agree_below (S (length evs)) (g_main_loop_run f1) (g_main_loop_run f2)).
  { intros w0 evs0 H0. unfold g_main_loop_run. apply main_loop_fuel; lia. }
  destruct (dispatch_event_agree _ _ _ Hag e w evs (Nat.lt_succ_diag_r _)) as [<- Hlen].
  destruct (dispatch_event _ e w evs) as [a w1 rest1|w1|w1]; try reflexivity.
  specialize (Hlen _ _ _ eq_refl). apply IH; lia.
Qed.

(** An execution stops early only inside a graceful exit or in
    [egg_error]: when the main context returns, no event is left. *)
Lemma main_context_returns (fuel : nat) (w w' : World) (evs rest : list event) :
  (length evs < fuel)%nat ->
  main_context fuel w evs = Returned tt w' rest -> rest = [].
Proof.
  revert w evs. induction fuel as [|fuel IH]; intros w evs Hf; [lia|].
  cbn [main_context]. destruct evs as [|e evs]; [by intros [= _ <-]|].
  cbn [length] in Hf.
  assert (Hag : agree_below (S (length evs)) (g_main_loop_run fuel) (g_main_loop_run fuel)).
  { intros w0 evs0 H0. unfold g_main_loop_run. apply main_loop_fuel; lia. }
  destruct (dispatch_event_agree _ _ _ Hag e w evs (Nat.lt_succ_diag_r _)) as [_ Hlen].
  destruct (dispatch_event _ e w evs) as [a w1 rest1|w1|w1]; try discriminate.
  specialize (Hlen _ _ _ eq_refl). apply IH. lia.
Qed.

(** An execution is the run of the main context with any fuel above the
    number of its events. *)
Lemma execution_fuel (fuel : nat) (evs : list event) :
  (length evs < fuel)%nat ->
  execution evs = world_of (main_context fuel pk_spawn_new evs).
Proof.
  intros H. unfold execution. f_equal. apply main_context_fuel; lia.
Qed.

(** ** The comparisons of the reuse check *)

Section Signature.

Lemma egg_strequal_spec (a b : option string) :
  egg_strequal a b = true <->
  exists x y, a = Some x /\ b = Some y /\ c_str x = c_str y.
Proof.
  destruct a as [x|], b as [y|]; cbn; rewrite ?bool_decide_eq_true;
    split; try discriminate; try (by intros (?&?&?&?&?)).
  - intros H. by exists x, y.
  - by intros (?&?&[= ->]&[= ->]&?).
Qed.

Lemma strv_all_equal_spec (a b : list string) :
  strv_all_equal a b = true <-> List.map c_str a = List.map c_str b.
Proof.
  revert b. induction a as [|x a IH]; intros [|y b]; cbn; try (split; congruence).
  rewrite andb_true_iff, bool_decide_eq_true, IH. split.
  - intros [-> ->]. reflexivity.
  - intros [= -> ->]. by split.
Qed.

(** Absent equals absent only; otherwise element by element, in order. *)
Lemma egg_strvequal_spec (a b : option (list string)) :
  egg_strvequal a b = true <->
  match a, b with
  | None, None => True
  | Some x, Some y => List.map c_str x = List.map c_str y
  | _, _ => False
  end.
Proof.
  destruct a as [x|], b as [y|]; cbn; try apply strv_all_equal_spec;
    split; try discriminate; tauto.
Qed.

End Signature.

(** ** Reading the pipe *)

Section ReadFd.

Local Arguments String.append !_ _ / : simpl nomatch.

Lemma str_mem_app (c : ascii) (a b : string) :
  str_mem c (a +:+ b) = str_mem c a || str_mem c b.
Proof.
  induction a as [|x a IH]; simpl; [reflexivity|].
  rewrite IH. by rewrite orb_assoc.
Qed.

Lemma str_app_nil_r (s : string) : s +:+ EmptyString = s.
Proof. induction s as [|c s IH]; simpl; [reflexivity|]. by rewrite IH. Qed.

Lemma str_mem_take (c : ascii) (n : nat) (s : string) :
  str_mem c s = false -> str_mem c (str_take n s) = false.
Proof.
  revert s. induction n as [|n IH]; intros [|d s]; cbn [str_take str_mem]; auto.
  intros H. apply orb_false_elim in H as [-> H]. by rewrite IH.
Qed.

Lemma str_mem_drop (c : ascii) (n : nat) (s : string) :
  str_mem c s = false -> str_mem c (str_drop n s) = false.
Proof.
  revert s. induction n as [|n IH]; intros [|d s]; cbn [str_drop str_mem]; auto.
  intros H. apply orb_false_elim in H as [_ H]. by apply IH.
Qed.

Lemma c_str_stops_at_nul (a b : string) :
  str_mem NUL a = false -> c_str (a +:+ String NUL b) = a.
Proof.
  induction a as [|x a IH]; cbn [String.append c_str str_mem]; [reflexivity|].
  intros H. apply orb_false_elim in H as [H1 H2].
  rewrite Ascii.eqb_sym, H1. by rewrite IH.
Qed.

Lemma read_fd_app (c1 c2 : list string) (gs : string) :
  pk_spawn_read_fd_into_buffer (c1 ++ c2) gs =
  pk_spawn_read_fd_into_buffer c2 (pk_spawn_read_fd_into_buffer c1 gs).
Proof. unfold pk_spawn_read_fd_into_buffer. apply fold_left_app. Qed.

Lemma read_fd_concat (chunks : list string) (gs : string) :
  pk_spawn_read_fd_into_buffer chunks gs = gs +:+ str_concat (c_str <$> chunks).
Proof.
  revert gs. induction chunks as [|c chunks IH]; intros gs.
  - cbn. by rewrite str_app_nil_r.
  - change (pk_spawn_read_fd_into_buffer (c :: chunks) gs)
      with (pk_spawn_read_fd_into_buffer chunks (g_string_append gs c)).
    rewrite IH. unfold g_string_append. cbn [fmap list_fmap str_concat].
    apply str_app_assoc.
Qed.

Lemma str_concat_no_nul (chunks : list string) :
  str_mem NUL (str_concat (c_str <$> chunks)) = false.
Proof.
  induction chunks as [|c chunks IH]; [reflexivity|].
  cbn [fmap list_fmap str_concat]. by rewrite str_mem_app, c_str_no_nul, IH.
Qed.

End ReadFd.

(** X1: the read loop appends to the buffer the bytes of every chunk up to
    the first NUL of the chunk; the bytes a chunk holds after a NUL never
    reach the buffer, and the read adds no NUL to the buffer. *)
Theorem read_fd_drops_after_nul (chunks : list string) (gs : string) :
  pk_spawn_read_fd_into_buffer chunks gs = gs +:+ str_concat (c_str <$> chunks) /\
  (forall a b, str_mem NUL a = false ->
     pk_spawn_read_fd_into_buffer (chunks ++ [a +:+ String NUL b]) gs
     = pk_spawn_read_fd_into_buffer chunks gs +:+ a) /\
  (str_mem NUL gs = false ->
     str_mem NUL (pk_spawn_read_fd_into_buffer chunks gs) = false).
Proof.
  split; [apply read_fd_concat|split].
  - intros a b Ha. rewrite read_fd_app.
    unfold pk_spawn_read_fd_into_buffer at 1. cbn [fold_left].
    unfold g_string_append. by rewrite c_str_stops_at_nul.
  - intros H. by rewrite read_fd_concat, str_mem_app, H, str_concat_no_nul.
Qed.

(** ** Lines across ticks *)

Section Framing.

Local Arguments String.append !_ _ / : simpl nomatch.

(** What the drain makes of a buffer without NUL: the complete lines, and
    the unfinished one left behind. *)
Lemma emit_whole_lines_split (gs : string) :
  str_mem NUL gs = false ->
  Z.of_nat (String.length gs) < 2 ^ 32 ->
  exists init l,
    split_nl gs = init ++ [l] /\
    pk_spawn_emit_whole_lines gs = (negb (egg_strzero (Some gs)), init, l).
Proof.
  intros Hnul Hlen.
  destruct (split_nl_shape gs) as (init & l & Hs & Hj & Hlf & Hn).
  specialize (Hn Hnul). exists init, l. split; [exact Hs|].
  destruct (decide (gs = EmptyString)) as [->|Hne].
  - cbn [split_nl] in Hs.
    destruct init as [|i init]; [|destruct init; discriminate Hs].
    by injection Hs as <-.
  - assert (Hz : egg_strzero (Some gs) = false).
    { unfold egg_strzero. rewrite (c_str_id gs Hnul). by destruct gs. }
    assert (Hsp : g_strsplit_nl gs = split_nl gs).
    { unfold g_strsplit_nl. rewrite (c_str_id gs Hnul). by destruct gs. }
    unfold pk_spawn_emit_whole_lines. rewrite Hz, Hsp, Hs. cbn [negb].
    unfold g_strv_length.
    assert (Hbytes : bytes_of init <= Z.of_nat (String.length gs)).
    { rewrite Hj, str_length_app, bytes_of_unlines. lia. }
    assert (Hinit : Z.of_nat (length init) <= bytes_of init).
    { clear. induction init as [|i init IH]; cbn [length bytes_of]; lia. }
    pose proof (bytes_of_nonneg init) as Hpos.
    assert (Hcount : guint (guint (Z.of_nat (length (init ++ [l]))) - 1)
                     = Z.of_nat (length init)).
    { unfold guint. rewrite Zminus_mod_idemp_l, length_app. cbn [length].
      rewrite Z.mod_small; lia. }
    rewrite Hcount, Nat2Z.id, emit_lines_loop_exact.
    + rewrite take_app_length. cbn [fst snd]. f_equal.
      unfold g_string_erase.
      replace ((0 <=? 0) && (0 <=? 0 + bytes_of init)
               && (0 + (0 + bytes_of init) <=? Z.of_nat (String.length gs)))
        with true by (symmetry; rewrite !andb_true_iff, !Z.leb_le; lia).
      change (Z.to_nat 0) with 0%nat. cbn [str_take String.append].
      replace (Z.to_nat (0 + (0 + bytes_of init)))
        with (String.length (unlines init)) by (rewrite bytes_of_unlines; lia).
      rewrite Hj. apply str_drop_app.
    + exact Hn.
    + lia.
    + rewrite take_app_length. lia.
Qed.

Lemma split_nl_nonempty (s : string) : split_nl s <> [].
Proof. destruct (split_nl_shape s) as (init & l & -> & _). by destruct init. Qed.

Lemma split_nl_line (l s : string) :
  str_mem LF l = false -> split_nl (l +:+ String LF s) = l :: split_nl s.
Proof.
  induction l as [|c l IH]; cbn [String.append split_nl str_mem].
  - intros _. by rewrite Ascii.eqb_refl.
  - intros H. apply orb_false_elim in H as [H1 H2].
    rewrite Ascii.eqb_sym, H1, IH by assumption. reflexivity.
Qed.



End Framing.

(** ** The drain at 4 GiB *)

Section Wrap.

Local Arguments String.append !_ _ / : simpl nomatch.

Lemma str_repeat_length (c : ascii) (n : nat) : String.length (str_repeat c n) = n.
Proof. induction n as [|n IH]; cbn [str_repeat String.length]; congruence. Qed.

Lemma str_repeat_mem (c d : ascii) (n : nat) :
  Ascii.eqb c d = false -> str_mem c (str_repeat d n) = false.
Proof.
  intros H. induction n as [|n IH]; cbn [str_repeat str_mem]; [reflexivity|].
  by rewrite H, IH.
Qed.

(** One line whose bytes and newline count 4 GiB: the [guint] counter of
    the bytes processed comes back to 0. *)
Lemma emit_whole_lines_wraps (n : nat) :
  Z.of_nat n = 2 ^ 32 - 1 ->
  let line := str_repeat "a" n in
  let gs := line +:+ String LF EmptyString in
  Z.of_nat (String.length gs) = 2 ^ 32 /\
  bytes_of [line] = 2 ^ 32 /\
  pk_spawn_emit_whole_lines gs = (true, [line], gs).
Proof.
  intros Hn line gs.
  assert (Hlen : String.length gs = S n).
  { subst gs line. rewrite str_length_app, str_repeat_length. cbn [String.length]. lia. }
  assert (Hnul : str_mem NUL gs = false).
  { subst gs line. by rewrite str_mem_app, str_repeat_mem. }
  assert (Hlf : str_mem LF line = false) by (by apply str_repeat_mem).
  assert (Hc : c_str gs = gs) by (by apply c_str_id).
  assert (Hcl : c_str line = line) by (apply c_str_id; by apply str_repeat_mem).
  assert (Hsplit : split_nl gs = [line; EmptyString]).
  { subst gs. by rewrite split_nl_line. }
  split; [rewrite Hlen; lia|]. split.
  { cbn [bytes_of]. subst line. rewrite str_repeat_length. lia. }
  unfold pk_spawn_emit_whole_lines, egg_strzero, g_strsplit_nl. rewrite Hc.
  destruct gs as [|c0 s0] eqn:Egs; [discriminate Hlen|]. rewrite <- Egs in *.
  rewrite Hsplit. cbn [negb].
  change (Z.to_nat (guint (g_strv_length [line; EmptyString] - 1))) with 1%nat.
  cbn [emit_lines_loop fst snd].
  assert (Hb : guint (0 + (strlen line + 1)) = 0).
  { unfold strlen. rewrite Hcl. subst line. rewrite str_repeat_length, Hn.
    reflexivity. }
  rewrite Hb. unfold g_string_erase.
  replace ((0 <=? 0) && (0 <=? 0) && (0 + 0 <=? Z.of_nat (String.length gs)))
    with true by (symmetry; rewrite !andb_true_iff, !Z.leb_le; lia).
  reflexivity.
Qed.

End Wrap.

(** C6: the drain counts the bytes it has emitted in a [guint].  On a
    buffer that holds one line of 4 GiB less one byte and its newline the
    line is emitted, the counter wraps to 0 and nothing is erased: the
    buffer still holds the line, where erasing the emitted bytes would
    leave it empty. *)
Theorem emit_whole_lines_wraps_at_4GiB :
  let gs := four_gib_line +:+ String LF EmptyString in
  Z.of_nat (String.length gs) = 2 ^ 32 /\
  bytes_of [four_gib_line] = 2 ^ 32 /\
  pk_spawn_emit_whole_lines gs = (true, [four_gib_line], gs).
Proof.
  apply (emit_whole_lines_wraps (Z.to_nat (2 ^ 32 - 1))).
  apply Z2Nat.id. lia.
Qed.

Section Ticks.

Lemma emit_stdout_world (ls : list string) (w : World) :
  emit_stdout ls w =
  mkWorld (priv w) (sources w) (next_source_id w) (rev (EmitStdout <$> ls) ++ log w).
Proof.
  revert w. induction ls as [|l ls IH]; intros w; [by destruct w|].
  change (emit_stdout (l :: ls) w) with (emit_stdout ls (eff (EmitStdout l) w)).
  rewrite IH. cbn [eff priv sources next_source_id log fmap list_fmap rev].
  by rewrite <- app_assoc.
Qed.

(** A tick that finds the child alive, on a buffer without NUL. *)
Lemma alive_tick_world (o : poll_obs) (w : World) :
  finished (priv w) = false ->
  wait_ret o <> child_pid (priv w) ->
  str_mem NUL (stdout_buf (priv w)) = false ->
  let data := stdout_buf (priv w) +:+ str_concat (c_str <$> reads o) in
  Z.of_nat (String.length data) < 2 ^ 32 ->
  exists lines rest,
    split_nl data = lines ++ [rest] /\
    pk_spawn_check_child o w =
      (true, mkWorld (set_stdout_buf rest (priv w)) (sources w) (next_source_id w)
               (rev (EmitStdout <$> lines) ++ log w)).
Proof.
  intros Hfin Hwait Hnul data Hlen.
  assert (Hd : str_mem NUL data = false)
    by (subst data; by rewrite str_mem_app, Hnul, str_concat_no_nul).
  destruct (emit_whole_lines_split data Hd Hlen) as (lines & rest & Hs & He).
  exists lines, rest. split; [exact Hs|].
  rewrite check_child_unfold, Hfin.
  apply Z.eqb_neq in Hwait. rewrite Hwait. cbn [negb]. f_equal.
  unfold drained. rewrite read_fd_concat. fold data. rewrite He. cbn [fst snd].
  by rewrite emit_stdout_world.
Qed.

End Ticks.

(** X2: a poll tick that finds the child alive keeps the poll going and
    changes nothing but the buffer and the log: the complete lines of the
    old buffer followed by the bytes read are emitted in order, and the
    buffer is left with the text after the last newline, which holds no
    newline. *)
Theorem alive_tick_frames_lines (o : poll_obs) (w : World) :
  finished (priv w) = false ->
  wait_ret o <> child_pid (priv w) ->
  str_mem NUL (stdout_buf (priv w)) = false ->
  let data := stdout_buf (priv w) +:+ str_concat (c_str <$> reads o) in
  Z.of_nat (String.length data) < 2 ^ 32 ->
  exists lines rest,
    pk_spawn_check_child o w =
      (true, mkWorld (set_stdout_buf rest (priv w)) (sources w) (next_source_id w)
               (rev (EmitStdout <$> lines) ++ log w)) /\
    data = unlines lines +:+ rest /\
    Forall (fun l => str_mem LF l = false) lines /\
    str_mem LF rest = false /\ str_mem NUL rest = false.
Proof.
  intros Hfin Hwait Hnul data Hlen.
  destruct (alive_tick_world o w Hfin Hwait Hnul Hlen) as (lines & rest & Hs & Hw).
  exists lines, rest. split; [exact Hw|].
  destruct (split_nl_shape data) as (i & l & Hs' & Hj & Hlf & Hn).
  fold data in Hs. rewrite Hs in Hs'. apply app_inj_tail in Hs' as [<- <-].
  assert (Hd : str_mem NUL data = false)
    by (subst data; by rewrite str_mem_app, Hnul, str_concat_no_nul).
  apply Forall_app in Hlf as [Hlf1 Hlf2]. specialize (Hn Hd).
  apply Forall_app in Hn as [_ Hn2].
  inversion Hlf2; subst. inversion Hn2; subst. auto.
Qed.

Lemma alive_tick_frames_lines_witness :
  finished (priv running) = false /\
  wait_ret chatty <> child_pid (priv running) /\
  str_mem NUL (stdout_buf (priv running)) = false /\
  let data := stdout_buf (priv running) +:+ str_concat (c_str <$> reads chatty) in
  Z.of_nat (String.length data) < 2 ^ 32 /\
  exists lines rest,
    pk_spawn_check_child chatty running =
      (true, mkWorld (set_stdout_buf rest (priv running)) (sources running)
               (next_source_id running)
               (rev (EmitStdout <$> lines) ++ log running)) /\
    data = unlines lines +:+ rest /\
    Forall (fun l => str_mem LF l = false) lines /\
    str_mem LF rest = false /\ str_mem NUL rest = false.
Proof.
  split; [vm_compute; reflexivity|]. split; [vm_compute; discriminate|].
  split; [vm_compute; reflexivity|]. split; [vm_compute; reflexivity|].
  apply (alive_tick_frames_lines chatty running);
    vm_compute; first [reflexivity | discriminate].
Defined.



(** ** The stdout buffer along an execution *)

Section BufferText.

Lemma erase_no_nul (gs : string) (pos len : Z) :
  str_mem NUL gs = false -> str_mem NUL (g_string_erase gs pos len) = false.
Proof.
  intros H. unfold g_string_erase. case_match; [|exact H].
  by rewrite str_mem_app, str_mem_take, str_mem_drop.
Qed.

Lemma emit_whole_lines_no_nul (gs : string) :
  str_mem NUL gs = false -> str_mem NUL (pk_spawn_emit_whole_lines gs).2 = false.
Proof.
  intros H. unfold pk_spawn_emit_whole_lines. case_match; [exact H|].
  cbn [snd]. by apply erase_no_nul.
Qed.

Lemma buffer_is_text_drained (o : poll_obs) (w : World) :
  buffer_is_text w -> buffer_is_text (drained o w).
Proof.
  unfold buffer_is_text. intros H. rewrite drained_priv.
  replace (stdout_buf (set_stdout_buf _ (priv w))) with
    (pk_spawn_emit_whole_lines
       (pk_spawn_read_fd_into_buffer (reads o) (stdout_buf (priv w)))).2
    by (by destruct (priv w)).
  apply emit_whole_lines_no_nul.
  by rewrite read_fd_concat, str_mem_app, H, str_concat_no_nul.
Qed.

Lemma buffer_is_text_dispatch_source id o kr (w : World) :
  buffer_is_text w -> buffer_is_text (dispatch_source id o kr w).
Proof.
  intros H.
  destruct (dispatch_source_cases id o kr w)
    as [[_ ->]|[[_ ->]|[(_&_&->)|[(_&_&_&->)|(_&_&_&->)]]]]; try exact H.
  - rewrite sigkill_cb_world. unfold buffer_is_text in *. cbn [eff priv].
    destruct (finished (priv w)); autorewrite with world; by destruct (priv w).
  - by apply buffer_is_text_drained.
  - unfold buffer_is_text. rewrite priv_remove.
    destruct (reap_child_fields (wait_status o) (drained o (eff (Fired id CheckChild) w)))
      as (_&_&_&_&_&_&_&_&->&_).
    by apply buffer_is_text_drained.
Qed.

Lemma buffer_is_text_kill (kr : kill_result) (w : World) :
  buffer_is_text w -> buffer_is_text (pk_spawn_kill kr w).2.
Proof.
  intros H. unfold buffer_is_text in *.
  destruct (kill_world kr w) as [->|[->| ->]]; [exact H|..];
    cbn [g_timeout_add snd upd eff priv]; by destruct (priv w).
Qed.

Lemma buffer_is_text_spawn argv envp os (w : World) (evs : list event) :
  buffer_is_text w -> buffer_is_text (world_of (spawn_instance argv envp os w evs)).
Proof.
  intros H. unfold buffer_is_text in *. unfold spawn_instance. cbn zeta.
  repeat case_match; cbn [world_of]; autorewrite with world;
    cbn [g_timeout_add snd priv]; autorewrite with world; by destruct (priv w).
Qed.

Lemma buffer_is_text_execution (evs : list event) : buffer_is_text (execution evs).
Proof.
  unfold execution. apply invariant_main_context.
  - apply buffer_is_text_dispatch_source.
  - apply buffer_is_text_kill.
  - intros c n w H. unfold buffer_is_text. by rewrite send_stdin_priv.
  - intros b w H. exact H.
  - intros b w H. exact H.
  - intros w H. exact H.
  - apply buffer_is_text_spawn.
  - reflexivity.
Qed.

End BufferText.

(** X4: in every execution the stdout buffer holds no NUL byte, so the
    bytes the line splitting sees are all the bytes of the buffer. *)
Theorem stdout_buf_never_holds_nul (evs : list event) :
  str_mem NUL (stdout_buf (priv (execution evs))) = false /\
  c_str (stdout_buf (priv (execution evs))) = stdout_buf (priv (execution evs)).
Proof.
  pose proof (buffer_is_text_execution evs) as H. unfold buffer_is_text in H.
  split; [exact H|by apply c_str_id].
Qed.

(** ** Invariants of executions whose launches meet a condition *)

Section InvariantOn.

Variable good : argv_os -> Prop.
Variable P : World -> Prop.

Hypothesis P_dispatch_source :
  forall id o kr w, P w -> P (dispatch_source id o kr w).
Hypothesis P_kill : forall kr w, P w -> P (pk_spawn_kill kr w).2.
Hypothesis P_send_stdin :
  forall command wrote w, P w -> P (pk_spawn_send_stdin command wrote w).2.
Hypothesis P_sending : forall b w, P w -> P (upd (set_is_sending_exit b) w).
Hypothesis P_changing : forall b w, P w -> P (upd (set_is_changing_dispatcher b) w).
Hypothesis P_running : forall w, P w -> P (upd (set_exit_loop true) w).
Hypothesis P_spawn :
  forall argv envp os w evs, good os -> P w ->
    P (world_of (spawn_instance argv envp os w evs)).

Section LoopOn.

Variable loop : World -> list event -> outcome unit.
Hypothesis loop_keeps : forall w evs, keeps good P w evs (loop w evs).

Lemma keeps_exit (wrote : Z) (w : World) (evs : list event) :
  keeps good P w evs (pk_spawn_exit loop wrote w evs).
Proof.
  intros Hg H. unfold pk_spawn_exit.
  destruct (is_sending_exit (priv w)); [split; [exact H|by intros ? ? ? [= _ _ <-]]|].
  pose proof (P_send_stdin "exit" wrote _ (P_sending true _ H)) as Hs.
  destruct (pk_spawn_send_stdin _ _ _) as [[] w1]; cbn [fst snd] in *.
  - destruct (loop_keeps w1 evs Hg Hs) as [Hl Hr].
    destruct (loop w1 evs) as [a w2 rest2|w2|w2]; cbn [world_of] in *;
      (split; [auto|]); try discriminate.
    intros ? ? ? [= _ _ <-]. eauto.
  - cbn [world_of]. split; [auto|by intros ? ? ? [= _ _ <-]].
Qed.

Lemma keeps_spawn argv envp os (w : World) (evs : list event) :
  good os -> keeps good P w evs (spawn_instance argv envp os w evs).
Proof.
  intros Hos Hg H. split; [by apply P_spawn|].
  intros a w' rest E. by apply spawn_instance_rest in E as ->.
Qed.

Lemma keeps_change_dispatcher argv envp os (w : World) (evs : list event) :
  good os -> keeps good P w evs (change_dispatcher loop argv envp os w evs).
Proof.
  intros Hos Hg H. unfold change_dispatcher.
  destruct (keeps_exit (wrote_exit os) _ evs Hg (P_changing true _ H)) as [He Hr].
  destruct (pk_spawn_exit _ _ _ _) as [a w2 rest2|w2|w2]; cbn [world_of] in *;
    try (split; [exact He|discriminate]).
  apply keeps_spawn; eauto.
Qed.

Lemma keeps_argv argv envp os (w : World) (evs : list event) :
  good os -> keeps good P w evs (pk_spawn_argv loop argv envp os w evs).
Proof.
  intros Hos. unfold pk_spawn_argv.
  destruct (negb (stdin_fd (priv w) =? -1)); [|by apply keeps_spawn].
  destruct (negb (egg_strequal _ _)); [by apply keeps_change_dispatcher|].
  destruct (negb (egg_strvequal _ _)); [by apply keeps_change_dispatcher|].
  cbn zeta. intros Hg H.
  pose proof (P_send_stdin (g_strjoinv (String TAB EmptyString) (tail argv))
                (wrote_command os) w H) as Hs.
  destruct (pk_spawn_send_stdin _ _ _) as [[] w1]; cbn [fst snd world_of] in *.
  - split; [exact Hs|by intros ? ? ? [= _ _ <-]].
  - by apply keeps_change_dispatcher.
Qed.

Lemma keeps_dispatch_event (e : event) (w : World) (rest : list event) :
  launch_meets good e -> keeps good P w rest (dispatch_event loop e w rest).
Proof.
  revert w rest. induction e as [id o kr|[kr|wrote|argv envp os]|es IH]
    using event_induction; intros w rest He Hg H; cbn [dispatch_event world_of].
  - split; [by apply P_dispatch_source|by intros ? ? ? [= _ _ <-]].
  - split; [by apply P_kill|by intros ? ? ? [= _ _ <-]].
  - destruct (keeps_exit wrote w rest Hg H) as [Hp Hr].
    destruct (pk_spawn_exit _ _ _ _); cbn [world_of] in *;
      (split; [exact Hp|]); try discriminate.
    intros ? ? ? [= _ _ <-]. eauto.
  - destruct (keeps_argv argv envp os w rest He Hg H) as [Hp Hr].
    destruct (pk_spawn_argv _ _ _ _ _ _); cbn [world_of] in *;
      (split; [exact Hp|]); try discriminate.
    intros ? ? ? [= _ _ <-]. eauto.
  - revert w rest He Hg H. induction IH as [|e es IHe _ IHes];
      intros w rest He Hg H; cbn [dispatch_all world_of].
    + split; [exact H|by intros ? ? ? [= _ _ <-]].
    + cbn [launch_meets fold_right] in He. destruct He as [He1 He2].
      destruct (IHe w rest He1 Hg H) as [Hp Hr].
      destruct (dispatch_event loop e w rest) as [[] w1 rest1|w1|w1];
        cbn [world_of] in *; try (split; [exact Hp|discriminate]).
      apply IHes; [exact He2|eauto|exact Hp].
Qed.

End LoopOn.

Lemma keeps_main_loop (fuel : nat) (w : World) (evs : list event) :
  keeps good P w evs (main_loop_iterate fuel w evs).
Proof.
  revert w evs. induction fuel as [|fuel IH]; intros w evs Hg H;
    [split; [exact H|discriminate]|].
  cbn [main_loop_iterate]. destruct evs as [|e rest]; [split; [exact H|discriminate]|].
  inversion Hg as [|? ? He Hrest]; subst.
  destruct (keeps_dispatch_event
              (fun w0 evs0 => main_loop_iterate fuel (upd (set_exit_loop true) w0) evs0)
              (fun w0 evs0 Hg0 H0 => IH _ evs0 Hg0 (P_running w0 H0))
              e w rest He Hrest H) as [Hp Hr].
  destruct (dispatch_event _ e w rest) as [[] w' rest'|w'|w']; cbn [world_of] in *;
    try (split; [exact Hp|discriminate]).
  specialize (Hr _ _ _ eq_refl).
  destruct (exit_loop (priv w')); [by apply IH|].
  split; [exact Hp|by intros ? ? ? [= _ _ <-]].
Qed.

Lemma keeps_g_main_loop_run (fuel : nat) (w : World) (evs : list event) :
  keeps good P w evs (g_main_loop_run fuel w evs).
Proof. intros Hg H. apply keeps_main_loop; [exact Hg|by apply P_running]. Qed.

Lemma keeps_main_context (fuel : nat) (w : World) (evs : list event) :
  Forall (launch_meets good) evs -> P w -> P (world_of (main_context fuel w evs)).
Proof.
  revert w evs. induction fuel as [|fuel IH]; intros w evs Hg H; [exact H|].
  cbn [main_context]. destruct evs as [|e rest]; [exact H|].
  inversion Hg as [|? ? He Hrest]; subst.
  destruct (keeps_dispatch_event (g_main_loop_run fuel) (keeps_g_main_loop_run fuel)
              e w rest He Hrest H) as [Hp Hr].
  destruct (dispatch_event _ e w rest) as [[] w' rest'|w'|w']; cbn [world_of] in *; auto.
  apply IH; eauto.
Qed.

End InvariantOn.

(** ** The life of a child *)

Section Lifecycle.

Lemma reap_child_poll_id (status : Z) (w : World) :
  poll_id (priv (reap_child status w)) =
  if 0 <? poll_id (priv w) then 0 else poll_id (priv w).
Proof.
  rewrite reap_child_priv, quit_exit_loop_frame, clear_kill_frame.
  rewrite (classify_status_frame status (set_child_pid _ _)).
  unfold clear_poll. destruct (priv w). cbn. by case_match.
Qed.

Lemma polled_unchanged (w w' : World) :
  sources w' = sources w -> next_source_id w' = next_source_id w ->
  poll_id (priv w') = poll_id (priv w) ->
  (finished (priv w) = false -> finished (priv w') = false) ->
  (stdin_fd (priv w') <> -1 -> stdin_fd (priv w) <> -1) ->
  polled w -> polled w'.
Proof.
  intros Hs Hn Hp Hf Hfd (H1 & H2 & H3 & H4 & H5).
  unfold polled. rewrite Hs, Hn, Hp. split; [exact H1|split; [|split; [|split]]].
  - intros id f Hd. eapply H2, Hd.
  - intros id Hd. destruct (H3 id Hd). split; auto.
  - exact H4.
  - intros Hd. apply H5, Hfd, Hd.
Qed.

Lemma polled_dispatch_source id o kr (w : World) :
  polled w -> polled (dispatch_source id o kr w).
Proof.
  intros H. pose proof H as (H1 & H2 & H3 & H4 & H5).
  destruct (dispatch_source_cases id o kr w)
    as [[_ ->]|[[Hsrc ->]|[(Hsrc&Hf&->)|[(Hsrc&_&_&->)|(Hsrc&Hf&_&->)]]]].
  - exact H.
  - rewrite sigkill_cb_world. cbn [eff priv].
    assert (Hne : poll_id (priv w) <> 0 -> id <> poll_id (priv w)).
    { intros Hp ->. apply H4 in Hp. congruence. }
    split; [|split; [|split; [|split]]].
    + by destruct (finished (priv w)).
    + intros id' f Hd.
      assert (sources w !! id' = Some f)
        by (destruct (finished (priv w)); cbn in Hd;
            apply lookup_delete_Some in Hd; tauto).
      destruct (finished (priv w)); cbn; eauto.
    + intros id' Hd.
      assert (sources w !! id' = Some CheckChild)
        by (destruct (finished (priv w)); cbn in Hd;
            apply lookup_delete_Some in Hd; tauto).
      apply H3 in H0 as [-> Hf]. rewrite Hf. cbn. by destruct (priv w).
    + destruct (finished (priv w)) eqn:Hf; cbn [g_source_remove eff upd priv sources].
      * intros Hp. rewrite lookup_delete_ne; auto.
      * replace (poll_id (set_exit PK_SPAWN_EXIT_TYPE_SIGKILL (priv w)))
          with (poll_id (priv w)) by (by destruct (priv w)).
        intros Hp. rewrite lookup_delete_ne; auto.
    + destruct (finished (priv w)); cbn [g_source_remove eff upd priv];
        [exact H5|]. 
      replace (stdin_fd (set_exit PK_SPAWN_EXIT_TYPE_SIGKILL (priv w)))
        with (stdin_fd (priv w)) by (by destruct (priv w)).
      replace (poll_id (set_exit PK_SPAWN_EXIT_TYPE_SIGKILL (priv w)))
        with (poll_id (priv w)) by (by destruct (priv w)).
      exact H5.
  - apply H3 in Hsrc as [_ Hf']. congruence.
  - apply (polled_unchanged w); auto.
    + by rewrite drained_sources.
    + unfold drained. cbn [upd next_source_id]. by rewrite next_emit_stdout.
    + autorewrite with world. by destruct (priv w).
    + autorewrite with world. by destruct (priv w).
    + autorewrite with world. by destruct (priv w).
  - set (w1 := drained o (eff (Fired id CheckChild) w)).
    destruct (H3 id Hsrc) as [Hid _]. destruct (H2 _ _ Hsrc) as [Hpos _].
    destruct (reap_child_fields (wait_status o) w1) as (_&Hfd&_).
    cbn zeta in Hfd.
    assert (Hpoll : poll_id (priv (reap_child (wait_status o) w1)) = 0).
    { rewrite reap_child_poll_id. subst w1. autorewrite with world.
      replace (poll_id (set_stdout_buf _ (priv w))) with (poll_id (priv w))
        by (by destruct (priv w)).
      rewrite <- Hid. by apply Z.ltb_lt in Hpos as ->. }
    assert (Hsub : forall id' f,
              sources (g_source_remove id (reap_child (wait_status o) w1)) !! id' = Some f ->
              id' <> id /\ sources w !! id' = Some f).
    { intros id' f Hd. rewrite sources_remove in Hd.
      apply lookup_delete_Some in Hd as [Hne Hd].
      apply reap_child_sources in Hd. subst w1. rewrite drained_sources in Hd.
      split; [congruence|exact Hd]. }
    assert (Hnext : next_source_id (g_source_remove id (reap_child (wait_status o) w1))
                    = next_source_id w).
    { rewrite next_remove, reap_child_next. subst w1. unfold drained.
      rewrite next_upd, next_emit_stdout. reflexivity. }
    split; [|split; [|split; [|split]]]; rewrite ?Hnext.
    + exact H1.
    + intros id' f Hd. apply Hsub in Hd as [_ Hd]. eauto.
    + intros id' Hd. apply Hsub in Hd as [Hne Hd]. apply H3 in Hd as [-> _].
      congruence.
    + rewrite priv_remove, Hpoll. congruence.
    + rewrite priv_remove, Hfd. congruence.
Qed.

Lemma polled_kill (kr : kill_result) (w : World) :
  polled w -> polled (pk_spawn_kill kr w).2.
Proof.
  intros H. pose proof H as (H1 & H2 & H3 & H4 & H5).
  destruct (kill_world kr w) as [->|[->| ->]]; [exact H|..].
  - apply (polled_unchanged w); auto; cbn; by destruct (priv w).
  - cbn [g_timeout_add snd upd eff priv sources next_source_id].
    split; [|split; [|split; [|split]]]; cbn [upd eff priv sources next_source_id].
    + lia.
    + intros id f Hd. apply lookup_insert_Some in Hd as [[<- _]|[_ Hd]]; [lia|].
      apply H2 in Hd. lia.
    + intros id Hd. apply lookup_insert_Some in Hd as [[_ [=]]|[_ Hd]].
      apply H3 in Hd. by destruct (priv w).
    + replace (poll_id (set_kill_id _ (set_exit _ (priv w)))) with (poll_id (priv w))
        by (by destruct (priv w)).
      intros Hp. rewrite lookup_insert_ne; [auto|].
      apply H4, H2 in Hp. lia.
    + replace (poll_id (set_kill_id _ (set_exit _ (priv w)))) with (poll_id (priv w))
        by (by destruct (priv w)).
      replace (stdin_fd (set_kill_id _ (set_exit _ (priv w)))) with (stdin_fd (priv w))
        by (by destruct (priv w)).
      exact H5.
Qed.

Lemma polled_spawn argv envp os (w : World) (evs : list event) :
  polled w -> polled (world_of (spawn_instance argv envp os w evs)).
Proof.
  intros H. pose proof H as (H1 & H2 & H3 & H4 & H5).
  assert (Hnone : poll_id (priv w) = 0 ->
            forall id, sources w !! id = Some CheckChild -> False).
  { intros Hp id Hs. destruct (H3 id Hs) as [-> _]. apply H2 in Hs. lia. }
  unfold spawn_instance. cbn zeta.
  destruct (spawn_ok (spawned os)) eqn:Hok; cbn [negb].
  - set (w4 := if negb (CLAMP _ _ _ =? 0) then _ else _).
    assert (Hw4 : sources w4 = sources w /\ next_source_id w4 = next_source_id w /\
                  poll_id (priv w4) = poll_id (priv w) /\ finished (priv w4) = false /\
                  stdin_fd (priv w4) = new_stdin (spawned os)).
    { subst w4. destruct (negb _); cbn; by destruct (priv w). }
    destruct Hw4 as (Hs4 & Hn4 & Hp4 & Hf4 & Hfd4).
    cbn [eff upd priv]. 
    replace (poll_id (set_last_envp _ (set_last_argv0 _ (priv w4))))
      with (poll_id (priv w)) by (rewrite <- Hp4; by destruct (priv w4)).
    destruct (Z.eqb_spec (poll_id (priv w)) 0) as [Hp0|Hp0]; cbn [negb world_of].
    + cbn [g_timeout_add snd fst upd eff priv sources next_source_id].
      rewrite Hs4, Hn4.
      split; [|split; [|split; [|split]]]; cbn [upd eff priv sources next_source_id].
      * lia.
      * intros id f Hd. apply lookup_insert_Some in Hd as [[<- _]|[_ Hd]]; [lia|].
        apply H2 in Hd. lia.
      * intros id Hd. apply lookup_insert_Some in Hd as [[<- _]|[_ Hd]].
        -- split; [by destruct (priv w4)|]. rewrite <- Hf4. by destruct (priv w4).
        -- exfalso. eauto.
      * intros _. replace (poll_id (set_poll_id _ _)) with (next_source_id w)
          by (by destruct (priv w4)).
        apply lookup_insert_eq.
      * intros _. replace (poll_id (set_poll_id _ _)) with (next_source_id w)
          by (by destruct (priv w4)). lia.
    + split; [|split; [|split; [|split]]];
        cbn [eff upd priv sources next_source_id]; rewrite ?Hs4, ?Hn4; auto.
      * intros id Hd. apply H3 in Hd as [-> _].
        split; [rewrite <- Hp4; by destruct (priv w4)|].
        rewrite <- Hf4. by destruct (priv w4).
      * replace (poll_id (set_last_envp _ (set_last_argv0 _ (priv w4))))
          with (poll_id (priv w)) by (rewrite <- Hp4; by destruct (priv w4)).
        auto.
      * replace (poll_id (set_last_envp _ (set_last_argv0 _ (priv w4))))
          with (poll_id (priv w)) by (rewrite <- Hp4; by destruct (priv w4)).
        auto.
  - cbn [world_of]. apply (polled_unchanged w); auto;
      destruct (negb _); cbn; by destruct (priv w).
Qed.

Lemma polled_new : polled pk_spawn_new.
Proof.
  unfold polled, pk_spawn_new.
  cbn [priv sources next_source_id pk_spawn_init poll_id stdin_fd finished].
  split; [lia|split; [|split; [|split]]]; try congruence.
  - intros id f H. by rewrite lookup_empty in H.
  - intros id H. by rewrite lookup_empty in H.
Qed.

Lemma polled_main_context (fuel : nat) (w : World) (evs : list event) :
  polled w -> polled (world_of (main_context fuel w evs)).
Proof.
  apply invariant_main_context.
  - apply polled_dispatch_source.
  - apply polled_kill.
  - intros c n w0 H. apply (polled_unchanged w0); auto;
      rewrite ?send_stdin_priv; auto; apply send_stdin_sources.
  - intros b w0 H. apply (polled_unchanged w0); auto; cbn; by destruct (priv w0).
  - intros b w0 H. apply (polled_unchanged w0); auto; cbn; by destruct (priv w0).
  - intros w0 H. apply (polled_unchanged w0); auto; cbn; by destruct (priv w0).
  - apply polled_spawn.
Qed.

End Lifecycle.

Section Presence.

(** The tick that reaps, as the main context dispatches it. *)
Lemma reap_dispatch_fields (id : Z) (o : poll_obs) (w : World) :
  polled w -> sources w !! id = Some CheckChild ->
  let p' := priv (g_source_remove id
              (reap_child (wait_status o) (drained o (eff (Fired id CheckChild) w)))) in
  poll_id p' = 0 /\ child_pid p' = -1 /\ stdin_fd p' = -1 /\ stdout_fd p' = -1 /\
  kill_id p' = 0 /\ finished p' = true.
Proof.
  intros (H1 & H2 & H3 & H4 & H5) Hsrc. cbn zeta. rewrite priv_remove.
  destruct (H3 id Hsrc) as [Hid _]. destruct (H2 _ _ Hsrc) as [Hpos _].
  destruct (reap_child_fields (wait_status o) (drained o (eff (Fired id CheckChild) w)))
    as (?&?&?&?&?&_).
  repeat split; try assumption.
  rewrite reap_child_poll_id. autorewrite with world.
  replace (poll_id (set_stdout_buf _ (priv w))) with (poll_id (priv w))
    by (by destruct (priv w)).
  rewrite <- Hid. by apply Z.ltb_lt in Hpos as ->.
Qed.

Lemma present_unchanged (w w' : World) :
  child_pid (priv w') = child_pid (priv w) -> stdin_fd (priv w') = stdin_fd (priv w) ->
  stdout_fd (priv w') = stdout_fd (priv w) -> poll_id (priv w') = poll_id (priv w) ->
  present_together w -> present_together w'.
Proof. unfold present_together. by intros -> -> -> ->. Qed.

Lemma child_present_dispatch_source id o kr (w : World) :
  child_present w -> child_present (dispatch_source id o kr w).
Proof.
  intros [Hp Ht]. split; [by apply polled_dispatch_source|].
  destruct (dispatch_source_cases id o kr w)
    as [[_ ->]|[[Hsrc ->]|[(Hsrc&Hf&->)|[(Hsrc&_&_&->)|(Hsrc&Hf&_&->)]]]].
  - exact Ht.
  - rewrite sigkill_cb_world. cbn [eff priv].
    apply (present_unchanged w); [..|exact Ht];
      destruct (finished (priv w)); autorewrite with world; by destruct (priv w).
  - apply (present_unchanged w); [..|exact Ht]; reflexivity.
  - apply (present_unchanged w); [..|exact Ht];
      autorewrite with world; by destruct (priv w).
  - destruct (reap_dispatch_fields id o w Hp Hsrc) as (Hpoll & Hpid & Hin & Hout & _).
    cbn zeta in *. unfold present_together. rewrite Hpoll, Hpid, Hin, Hout. tauto.
Qed.

Lemma child_present_spawn argv envp os (w : World) (evs : list event) :
  sane_spawn os -> child_present w ->
  child_present (world_of (spawn_instance argv envp os w evs)).
Proof.
  intros Hsane [Hp Ht]. split; [by apply polled_spawn|].
  destruct Hp as (H1 & _). destruct Ht as (Ha & Hb & Hc).
  unfold sane_spawn in Hsane. unfold spawn_instance, present_together.
  destruct w as [[] src nid lg]. cbn in H1, Ha, Hb, Hc. cbn zeta.
  destruct (spawn_ok (spawned os)) eqn:Hok.
  - destruct (Hsane eq_refl) as (Hpid & Hin & Hout).
    repeat (case_match; cbn); tauto.
  - cbn [negb world_of]. destruct (negb _); cbn; tauto.
Qed.

Lemma child_present_execution (evs : list event) :
  Forall (launch_meets sane_spawn) evs -> child_present (execution evs).
Proof.
  intros Hg. unfold execution. apply (keeps_main_context sane_spawn); try assumption.
  - apply child_present_dispatch_source.
  - intros kr w [Hp Ht]. split; [by apply polled_kill|].
    destruct (kill_world kr w) as [->|[->| ->]]; [exact Ht|..];
      (apply (present_unchanged w); [..|exact Ht]);
      cbn [g_timeout_add snd eff upd priv]; by destruct (priv w).
  - intros c n w [Hp Ht]. split.
    + apply (polled_unchanged w); auto; rewrite ?send_stdin_priv; auto;
        apply send_stdin_sources.
    + apply (present_unchanged w); [..|exact Ht]; by rewrite send_stdin_priv.
  - intros b w [Hp Ht]. split.
    + apply (polled_unchanged w); auto; cbn; by destruct (priv w).
    + apply (present_unchanged w); [..|exact Ht]; cbn; by destruct (priv w).
  - intros b w [Hp Ht]. split.
    + apply (polled_unchanged w); auto; cbn; by destruct (priv w).
    + apply (present_unchanged w); [..|exact Ht]; cbn; by destruct (priv w).
  - intros w [Hp Ht]. split.
    + apply (polled_unchanged w); auto; cbn; by destruct (priv w).
    + apply (present_unchanged w); [..|exact Ht]; cbn; by destruct (priv w).
  - intros argv envp os w evs0. apply child_present_spawn.
  - split; [apply polled_new|]. unfold present_together, pk_spawn_new. cbn. tauto.
Qed.

End Presence.

(** The launches of the scenarios meet the condition. *)
Lemma one_child_sane : Forall (launch_meets sane_spawn) one_child.
Proof.
  constructor; [intros _; vm_compute; repeat split; discriminate|].
  constructor; [exact I|]. constructor.
Defined.

Lemma two_children_sane : Forall (launch_meets sane_spawn) two_children.
Proof.
  constructor; [intros _; vm_compute; repeat split; discriminate|].
  constructor; [exact I|].
  constructor; [intros _; vm_compute; repeat split; discriminate|].
  constructor.
Defined.

(** X5: in every execution the poll source is there exactly when [poll_id]
    names it, there is no other poll source, a spawner with a stdin pipe
    is polled and not finished, and the poll tick never meets a finished
    spawner. *)
Theorem poll_source_follows_child (evs : list event) :
  let w := execution evs in
  (poll_id (priv w) <> 0 <-> sources w !! poll_id (priv w) = Some CheckChild) /\
  (forall id, sources w !! id = Some CheckChild -> id = poll_id (priv w)) /\
  (forall id, sources w !! id = Some CheckChild -> finished (priv w) = false) /\
  (stdin_fd (priv w) <> -1 -> poll_id (priv w) <> 0 /\ finished (priv w) = false).
Proof.
  cbn zeta. set (w := execution evs).
  assert (Hp : polled w) by apply polled_main_context, polled_new.
  destruct Hp as (H1 & H2 & H3 & H4 & H5).
  split; [split; [exact H4|]|split; [|split]].
  - intros Hs. apply H2 in Hs. lia.
  - intros id Hs. by destruct (H3 id Hs).
  - intros id Hs. by destruct (H3 id Hs).
  - intros Hfd. split; [auto|]. by destruct (H3 _ (H4 (H5 Hfd))).
Qed.

(** X6: when every successful spawn gives a process id and descriptors
    other than -1, in every execution the child and its two pipes are
    present together or absent together, and they are present exactly when
    the spawner is polled. *)
Theorem child_and_pipes_together (evs : list event) :
  Forall (launch_meets sane_spawn) evs ->
  let p := priv (execution evs) in
  (child_pid p = -1 <-> stdin_fd p = -1) /\
  (stdout_fd p = -1 <-> stdin_fd p = -1) /\
  (stdin_fd p <> -1 <-> poll_id p <> 0) /\
  (stdin_fd p <> -1 <-> sources (execution evs) !! poll_id p = Some CheckChild).
Proof.
  intros Hg. destruct (child_present_execution evs Hg)
    as [(H1 & H2 & H3 & H4 & H5) (Ha & Hb & Hc)].
  cbn zeta. split; [exact Ha|split; [exact Hb|split; [by split|split]]].
  - auto.
  - intros Hs. apply Hc. apply H2 in Hs. lia.
Qed.

Lemma child_and_pipes_together_witness :
  Forall (launch_meets sane_spawn) two_children /\
  let p := priv (execution two_children) in
  (child_pid p = -1 <-> stdin_fd p = -1) /\
  (stdout_fd p = -1 <-> stdin_fd p = -1) /\
  (stdin_fd p <> -1 <-> poll_id p <> 0) /\
  (stdin_fd p <> -1 <-> sources (execution two_children) !! poll_id p = Some CheckChild).
Proof.
  split; [exact two_children_sane|].
  apply (child_and_pipes_together two_children two_children_sane).
Defined.

(** X7: the launch dies in [egg_error] exactly when the spawn succeeds
    while [poll_id] is set; with spawns as above, a launch on a spawner
    that has no instance, at any point of an execution, does not. *)
Theorem launch_without_instance_is_safe (evs : list event) :
  Forall (launch_meets sane_spawn) evs ->
  (forall argv envp os w rest,
     (exists w', spawn_instance argv envp os w rest = Fatal w') <->
     spawn_ok (spawned os) = true /\ poll_id (priv w) <> 0) /\
  (stdin_fd (priv (execution evs)) = -1 ->
   forall loop argv envp os rest,
     exists r w', pk_spawn_argv loop argv envp os (execution evs) rest
                  = Returned r w' rest /\ r = spawn_ok (spawned os)).
Proof.
  intros Hg.
  assert (Hfatal : forall argv envp os w rest,
            (exists w', spawn_instance argv envp os w rest = Fatal w') <->
            spawn_ok (spawned os) = true /\ poll_id (priv w) <> 0).
  { intros argv envp os w rest. unfold spawn_instance. cbn zeta.
    destruct (spawn_ok (spawned os)); cbn [negb].
    - set (w7 := eff _ _).
      assert (Hp : poll_id (priv w7) = poll_id (priv w)).
      { subst w7. cbn [eff upd priv]. destruct (negb _); cbn; by destruct (priv w). }
      rewrite Hp. destruct (Z.eqb_spec (poll_id (priv w)) 0); cbn [negb].
      + split; [by intros [? [=]]|tauto].
      + split; eauto.
    - split; [by intros [? [=]]|by intros [[=] _]]. }
  split; [exact Hfatal|].
  intros Hfd loop argv envp os rest.
  destruct (child_present_execution evs Hg) as [_ (_ & _ & Hc)].
  assert (Hp : poll_id (priv (execution evs)) = 0).
  { destruct (Z.eq_dec (poll_id (priv (execution evs))) 0); [assumption|].
    exfalso. by apply Hc. }
  unfold pk_spawn_argv. rewrite Hfd. cbn [Z.eqb negb].
  destruct (spawn_instance argv envp os (execution evs) rest) as [r w'|w'|w'] eqn:E.
  - pose proof (spawn_instance_rest _ _ _ _ _ _ _ _ E) as ->.
    exists r, w'. split; [reflexivity|].
    apply spawn_instance_log in E. by destruct E as (? & _ & _ & ?).
  - unfold spawn_instance in E. cbn zeta in E. repeat case_match; discriminate.
  - exfalso. assert (Hex : exists w0, spawn_instance argv envp os (execution evs) rest
                                      = Fatal w0) by eauto.
    apply Hfatal in Hex as [_ Hex]. congruence.
Qed.

Lemma launch_without_instance_is_safe_witness :
  Forall (launch_meets sane_spawn) one_child /\
  stdin_fd (priv (execution one_child)) = -1 /\
  exists r w', pk_spawn_argv (g_main_loop_run 1) helper None (os_ok 101)
                 (execution one_child) [] = Returned r w' [] /\
               r = spawn_ok (spawned (os_ok 101)).
Proof.
  split; [exact one_child_sane|]. split; [vm_compute; reflexivity|].
  apply (launch_without_instance_is_safe one_child one_child_sane).
  vm_compute; reflexivity.
Defined.

(** ** The signals and the child they speak of *)

Section Signals.

Lemma open_child_silent (l L : list effect) :
  Forall silent l -> open_child (l ++ L) = open_child L.
Proof.
  induction 1 as [|e l He _ IH]; [reflexivity|].
  cbn [app open_child]. by destruct e.
Qed.

Lemma framed_silent (l L : list effect) :
  Forall silent l -> framed L -> framed (l ++ L).
Proof.
  induction 1 as [|e l He _ IH]; [done|]. intros HL.
  cbn [app framed]. split; [by destruct e|auto].
Qed.

Lemma framed_lines (ls : list string) (L : list effect) :
  open_child L = true -> framed L ->
  open_child (rev (EmitStdout <$> ls) ++ L) = true /\
  framed (rev (EmitStdout <$> ls) ++ L).
Proof.
  revert L. induction ls as [|l ls IH]; intros L Ho Hf; [done|].
  cbn [fmap list_fmap rev]. rewrite <- app_assoc. cbn [app].
  apply IH; [exact Ho|]. by split.
Qed.

(** What a framed log says, without the recursion. *)
Lemma framed_spec (L : list effect) :
  framed L ->
  forall l1 e l2, L = l1 ++ e :: l2 -> is_signal e ->
  exists m argv envp l3,
    l2 = m ++ SysSpawn argv envp true :: l3 /\
    Forall (fun x => forall k, x <> EmitExit k) m.
Proof.
  assert (Hopen : forall l, open_child l = true ->
            exists m argv envp l3, l = m ++ SysSpawn argv envp true :: l3 /\
              Forall (fun x => forall k, x <> EmitExit k) m).
  { induction l as [|x l IH]; [done|]. cbn [open_child]. intros H.
    destruct x as [s|k|pid sg|fd d n|fd|argv envp []|pid n|fd|id f];
      try discriminate;
      try (destruct (IH H) as (m & a & e & l3 & -> & Hm);
           eexists (_ :: m), a, e, l3; split; [reflexivity|];
           constructor; [by intros k'|exact Hm]).
    by exists [], argv, envp, l. }
  intros Hf l1. revert L Hf. induction l1 as [|x l1 IH]; intros L Hf e l2 -> He.
  - cbn [app framed] in Hf. destruct Hf as [Ho _]. apply Hopen.
    by destruct e.
  - cbn [app framed] in Hf. destruct Hf as [_ Hf]. by eapply IH.
Qed.

Lemma child_framed_silent (l : list effect) (w w' : World) :
  polled w' -> log w' = l ++ log w -> Forall silent l ->
  poll_id (priv w') = poll_id (priv w) ->
  child_framed w -> child_framed w'.
Proof.
  intros Hp Hl Hs Hid (_ & Hf & Ho). split; [exact Hp|]. rewrite Hl, Hid. split.
  - by apply framed_silent.
  - intros H. rewrite open_child_silent; auto.
Qed.

Lemma child_framed_upd (f : PkSpawnPrivate -> PkSpawnPrivate) (w : World) :
  (forall p, poll_id (f p) = poll_id p /\ finished (f p) = finished p /\
             stdin_fd (f p) = stdin_fd p) ->
  child_framed w -> child_framed (upd f w).
Proof.
  intros Hf (Hp & Hfr & Ho). destruct (Hf (priv w)) as (Ha & Hb & Hc). split.
  - apply (polled_unchanged w); cbn [upd priv sources next_source_id];
      try reflexivity; try congruence; exact Hp.
  - cbn [upd priv log]. rewrite Ha. by split.
Qed.

Lemma child_framed_dispatch_source id o kr (w : World) :
  child_framed w -> child_framed (dispatch_source id o kr w).
Proof.
  intros H. pose proof H as (Hp & Hf & Ho).
  pose proof (polled_dispatch_source id o kr w Hp) as Hp'.
  destruct (dispatch_source_cases id o kr w)
    as [[_ E]|[[Hsrc E]|[(Hsrc&Hfin&E)|[(Hsrc&_&_&E)|(Hsrc&Hfin&_&E)]]]];
    rewrite E in *; clear E.
  - exact H.
  - rewrite sigkill_cb_world in *. cbn [eff priv] in *.
    destruct (finished (priv w)).
    + apply (child_framed_silent [Fired id SigkillCb] w); auto.
      by repeat constructor.
    + apply (child_framed_silent
               [SysKill (child_pid (priv w)) SIGKILL; Fired id SigkillCb] w); auto;
        try (by repeat constructor); cbn; by destruct (priv w).
  - apply (child_framed_silent [Fired id CheckChild] w); auto.
    by repeat constructor.
  - destruct Hp as (_ & H2 & H3 & _).
    assert (Hid : poll_id (priv w) <> 0).
    { destruct (H3 id Hsrc) as [<- _]. apply H2 in Hsrc. lia. }
    unfold drained in *. split; [exact Hp'|].
    cbn [upd log priv]. rewrite log_emit_stdout. cbn [eff log].
    destruct (framed_lines
                (pk_spawn_emit_whole_lines
                   (pk_spawn_read_fd_into_buffer (reads o)
                      (stdout_buf (priv (eff (Fired id CheckChild) w))))).1.2
                (Fired id CheckChild :: log w)) as [Ho' Hf'].
    + cbn [open_child]. auto.
    + by split.
    + split; [exact Hf'|]. intros _. exact Ho'.
  - destruct (reap_dispatch_fields id o w Hp Hsrc) as (Hpoll & _).
    cbn zeta in Hpoll. split; [exact Hp'|]. rewrite Hpoll.
    split; [|congruence].
    rewrite log_remove, reap_child_log. cbn [framed open_child].
    destruct Hp as (_ & H2 & H3 & _).
    assert (Hid : poll_id (priv w) <> 0).
    { destruct (H3 id Hsrc) as [<- _]. apply H2 in Hsrc. lia. }
    unfold drained. cbn [upd log priv]. rewrite log_emit_stdout. cbn [eff log].
    destruct (framed_lines
                (pk_spawn_emit_whole_lines
                   (pk_spawn_read_fd_into_buffer (reads o)
                      (stdout_buf (priv (eff (Fired id CheckChild) w))))).1.2
                (Fired id CheckChild :: log w)) as [Ho' Hf'].
    + cbn [open_child]. auto.
    + by split.
    + by repeat split.
Qed.

Lemma child_framed_spawn argv envp os (w : World) (evs : list event) :
  child_framed w -> child_framed (world_of (spawn_instance argv envp os w evs)).
Proof.
  intros (Hp & Hf & Ho). split; [by apply polled_spawn|].
  unfold spawn_instance. destruct w as [[] src nid lg]. cbn in Hf, Ho. cbn zeta.
  destruct (spawn_ok (spawned os)); cbn [negb].
  - repeat (case_match; cbn); tauto.
  - cbn [world_of]. destruct (negb _); cbn; tauto.
Qed.

Lemma child_framed_execution (evs : list event) : child_framed (execution evs).
Proof.
  unfold execution. apply invariant_main_context.
  - apply child_framed_dispatch_source.
  - intros kr w H. pose proof H as (Hp & _).
    pose proof (polled_kill kr w Hp) as Hp'.
    destruct (kill_world kr w) as [E|[E|E]]; rewrite E in *; [exact H|..].
    + apply (child_framed_silent [SysKill (child_pid (priv w)) SIGQUIT] w); auto;
        try (by repeat constructor); cbn; by destruct (priv w).
    + apply (child_framed_silent [SysKill (child_pid (priv w)) SIGQUIT] w); auto;
        try (by repeat constructor); cbn; by destruct (priv w).
  - intros c n w H. pose proof H as (Hp & _).
    assert (Hp' : polled (pk_spawn_send_stdin c n w).2).
    { apply (polled_unchanged w); auto; rewrite ?send_stdin_priv; auto;
        apply send_stdin_sources. }
    pose proof (send_stdin_log c n w) as Hl. destruct (finished (priv w)).
    + apply (child_framed_silent [] w); auto; by rewrite send_stdin_priv.
    + eapply (child_framed_silent [_] w); eauto;
        try (by repeat constructor); by rewrite send_stdin_priv.
  - intros b w. apply child_framed_upd. by intros [].
  - intros b w. apply child_framed_upd. by intros [].
  - intros w. apply child_framed_upd. by intros [].
  - apply child_framed_spawn.
  - split; [apply polled_new|]. by cbn.
Qed.

End Signals.

(** X8: in the log of every execution, each signal of the object (a line
    of stdout or an exit) comes after a successful spawn with no exit
    signal in between: no line and no second exit after the exit of a
    child, and none for a launch whose spawn failed. *)
Theorem signals_follow_a_spawn (evs : list event) (l1 l2 : list effect) (e : effect) :
  log (execution evs) = l1 ++ e :: l2 -> is_signal e ->
  exists m argv envp l3,
    l2 = m ++ SysSpawn argv envp true :: l3 /\
    Forall (fun x => forall k, x <> EmitExit k) m.
Proof.
  intros Hl He. destruct (child_framed_execution evs) as (_ & Hf & _).
  exact (framed_spec _ Hf l1 e l2 Hl He).
Qed.

Lemma signals_follow_a_spawn_witness :
  let e := EmitExit PK_SPAWN_EXIT_TYPE_SUCCESS in
  let l2 := List.tl (log (execution one_child)) in
  log (execution one_child) = [] ++ e :: l2 /\ is_signal e /\
  exists m argv envp l3,
    l2 = m ++ SysSpawn argv envp true :: l3 /\
    Forall (fun x => forall k, x <> EmitExit k) m.
Proof.
  split; [vm_compute; reflexivity|]. split; [exact I|].
  apply (signals_follow_a_spawn one_child [] _ (EmitExit PK_SPAWN_EXIT_TYPE_SUCCESS));
    [vm_compute; reflexivity|exact I].
Defined.

(** ** What the spawner asks of the system when no child is there *)

Section NoChild.

Lemma closes_ok_more (l : list effect) (w w' : World) :
  child_present w' -> log w' = l ++ log w -> Forall close_ok l ->
  closes_ok w -> closes_ok w'.
Proof.
  intros Hp Hl Hs [_ Hf]. split; [exact Hp|]. rewrite Hl.
  by apply Forall_app.
Qed.

Lemma close_ok_lines (ls : list string) :
  Forall close_ok (rev (EmitStdout <$> ls)).
Proof.
  induction ls as [|l ls IH]; [constructor|].
  cbn [fmap list_fmap rev]. apply Forall_app. split; [exact IH|by repeat constructor].
Qed.

Lemma closes_ok_dispatch_source id o kr (w : World) :
  closes_ok w -> closes_ok (dispatch_source id o kr w).
Proof.
  intros H. pose proof H as [Hcp Hf]. pose proof Hcp as [Hp Ht].
  pose proof (child_present_dispatch_source id o kr w Hcp) as Hcp'.
  destruct (dispatch_source_cases id o kr w)
    as [[_ E]|[[Hsrc E]|[(Hsrc&Hfin&E)|[(Hsrc&_&_&E)|(Hsrc&Hfin&_&E)]]]];
    rewrite E in *; clear E.
  - exact H.
  - rewrite sigkill_cb_world in *. cbn [eff priv] in *.
    destruct (finished (priv w)).
    + apply (closes_ok_more [Fired id SigkillCb] w); [exact Hcp'|reflexivity| |exact H].
      by repeat constructor.
    + apply (closes_ok_more
               [SysKill (child_pid (priv w)) SIGKILL; Fired id SigkillCb] w);
        [exact Hcp'|reflexivity| |exact H].
      by repeat constructor.
  - apply (closes_ok_more [Fired id CheckChild] w); [exact Hcp'|reflexivity| |exact H].
    by repeat constructor.
  - destruct (drained_log o (eff (Fired id CheckChild) w)) as [ls Hl].
    apply (closes_ok_more (rev (EmitStdout <$> ls) ++ [Fired id CheckChild]) w);
      [exact Hcp'| | |exact H].
    + rewrite Hl. cbn [eff log]. by rewrite <- app_assoc.
    + apply Forall_app. split; [apply close_ok_lines|by repeat constructor].
  - destruct Hp as (_ & H2 & H3 & _). destruct Ht as (_ & Hb & Hc).
    assert (Hid : poll_id (priv w) <> 0).
    { destruct (H3 id Hsrc) as [<- _]. apply H2 in Hsrc. lia. }
    destruct (drained_log o (eff (Fired id CheckChild) w)) as [ls Hl].
    split; [exact Hcp'|].
    rewrite log_remove, reap_child_log, Hl. cbn [eff log].
    autorewrite with world.
    replace (stdout_fd (set_stdout_buf _ (priv w))) with (stdout_fd (priv w))
      by (by destruct (priv w)).
    replace (stdin_fd (set_stdout_buf _ (priv w))) with (stdin_fd (priv w))
      by (by destruct (priv w)).
    assert (Hin : stdin_fd (priv w) <> -1) by auto.
    assert (Hout : stdout_fd (priv w) <> -1) by tauto.
    constructor; [exact I|]. constructor; [exact Hout|].
    constructor; [exact Hin|].
    apply Forall_app. split; [apply close_ok_lines|].
    constructor; [exact I|exact Hf].
Qed.

Lemma closes_ok_upd (f : PkSpawnPrivate -> PkSpawnPrivate) (w : World) :
  child_present (upd f w) -> closes_ok w -> closes_ok (upd f w).
Proof. intros Hp [_ Hf]. by split. Qed.

Lemma closes_ok_execution (evs : list event) :
  Forall (launch_meets sane_spawn) evs -> closes_ok (execution evs).
Proof.
  intros Hg.
  assert (Hgen : forall w, child_present w ->
            (forall id o kr, child_present (dispatch_source id o kr w)) /\
            (forall kr, child_present (pk_spawn_kill kr w).2) /\
            (forall c n, child_present (pk_spawn_send_stdin c n w).2) /\
            (forall f, (forall p, child_pid (f p) = child_pid p /\
                          stdin_fd (f p) = stdin_fd p /\ stdout_fd (f p) = stdout_fd p /\
                          poll_id (f p) = poll_id p /\ finished (f p) = finished p) ->
                       child_present (upd f w))).
  { intros w [Hp Ht]. split; [|split; [|split]].
    - intros. by apply child_present_dispatch_source.
    - intros kr. split; [by apply polled_kill|].
      destruct (kill_world kr w) as [->|[->| ->]]; [exact Ht|..];
        (apply (present_unchanged w); [..|exact Ht]);
        cbn [g_timeout_add snd eff upd priv]; by destruct (priv w).
    - intros c n. split.
      + apply (polled_unchanged w); auto; rewrite ?send_stdin_priv; auto;
          apply send_stdin_sources.
      + apply (present_unchanged w); [..|exact Ht]; by rewrite send_stdin_priv.
    - intros f Hf. destruct (Hf (priv w)) as (Ha & Hb & Hc & Hd & He). split.
      + apply (polled_unchanged w); cbn [upd priv sources next_source_id];
          try reflexivity; try congruence; exact Hp.
      + apply (present_unchanged w); cbn [upd priv]; try assumption. }
  unfold execution. apply (keeps_main_context sane_spawn); try assumption.
  - apply closes_ok_dispatch_source.
  - intros kr w H. pose proof H as [Hcp _].
    destruct (Hgen w Hcp) as (_ & Hk & _). specialize (Hk kr).
    destruct (kill_world kr w) as [E|[E|E]]; rewrite E in *; [exact H|..].
    + apply (closes_ok_more [SysKill (child_pid (priv w)) SIGQUIT] w);
        [exact Hk|reflexivity| |exact H]. by repeat constructor.
    + apply (closes_ok_more [SysKill (child_pid (priv w)) SIGQUIT] w);
        [exact Hk|reflexivity| |exact H]. by repeat constructor.
  - intros c n w H. pose proof H as [Hcp _].
    destruct (Hgen w Hcp) as (_ & _ & Hs & _). specialize (Hs c n).
    pose proof (send_stdin_log c n w) as Hl. destruct (finished (priv w)).
    + apply (closes_ok_more [] w); [exact Hs|exact Hl|constructor|exact H].
    + eapply (closes_ok_more [_] w); [exact Hs|exact Hl| |exact H].
      by repeat constructor.
  - intros b w H. apply closes_ok_upd; [|exact H]. destruct H as [Hcp _].
    apply (Hgen w Hcp). by intros [].
  - intros b w H. apply closes_ok_upd; [|exact H]. destruct H as [Hcp _].
    apply (Hgen w Hcp). by intros [].
  - intros w H. apply closes_ok_upd; [|exact H]. destruct H as [Hcp _].
    apply (Hgen w Hcp). by intros [].
  - intros argv envp os w evs0 Hs [Hcp Hf].
    split; [by apply child_present_spawn|].
    unfold spawn_instance. destruct w as [[] src nid lg]. cbn in Hf. cbn zeta.
    destruct (spawn_ok (spawned os)); cbn [negb].
    + repeat (case_match; cbn); by repeat constructor.
    + cbn [world_of]. destruct (negb _); cbn; by repeat constructor.
  - split; [|constructor].
    split; [apply polled_new|]. unfold present_together, pk_spawn_new. cbn. tauto.
Qed.

Lemma failed_launch_without_instance_gen
    (loop : World -> list event -> outcome unit)
    (argv : list string) (envp : option (list string)) (os : argv_os)
    (w : World) (rest : list event) :
  stdin_fd (priv w) = -1 ->
  spawn_ok (spawned os) = false ->
  exists w',
    pk_spawn_argv loop argv envp os w rest = Returned false w' rest /\
    priv w' = set_finished false (priv w) /\
    sources w' = sources w /\
    log w' = (if CLAMP (nice_conf os) (-20) 19 =? 0 then []
              else [SysSetpriority (child_pid (priv w)) (CLAMP (nice_conf os) (-20) 19)])
               ++ SysSpawn argv envp false :: log w.
Proof.
  intros Hfd Hok.
  unfold pk_spawn_argv. rewrite Hfd. cbn [Z.eqb negb].
  unfold spawn_instance. cbn zeta. rewrite Hok. cbn [negb].
  destruct (CLAMP (nice_conf os) (-20) 19 =? 0); cbn [negb]; eexists;
    (split; [reflexivity|]); cbn [eff upd priv sources log app];
    repeat split.
Qed.

End NoChild.

(** X9: when every successful spawn gives a process id and descriptors
    other than -1, no execution closes the descriptor -1: the pipes are
    closed by the reap only, and the reap runs for a child that has
    them. *)
Theorem never_closes_absent_pipe (evs : list event) (fd : Z) :
  Forall (launch_meets sane_spawn) evs ->
  In (SysClose fd) (log (execution evs)) -> fd <> -1.
Proof.
  intros Hg Hin. destruct (closes_ok_execution evs Hg) as [_ Hf].
  exact (proj1 (List.Forall_forall _ _) Hf _ Hin).
Qed.

Lemma never_closes_absent_pipe_witness :
  Forall (launch_meets sane_spawn) one_child /\
  In (SysClose 7) (log (execution one_child)) /\ 7 <> -1.
Proof.
  split; [exact one_child_sane|].
  assert (H : In (SysClose 7) (log (execution one_child))) by (vm_compute; tauto).
  split; [exact H|].
  exact (never_closes_absent_pipe one_child 7 one_child_sane H).
Defined.

(** X10: a launch on a spawner that has no instance, whose spawn fails,
    returns FALSE having reset [finished] to FALSE and nothing else; no
    source is added; the spawn is logged and, when the configured nice
    value clamps to another value than 0, [setpriority] is still called,
    on the process id -1. *)
Theorem failed_launch_without_instance (evs : list event)
    (loop : World -> list event -> outcome unit)
    (argv : list string) (envp : option (list string)) (os : argv_os)
    (rest : list event) :
  Forall (launch_meets sane_spawn) evs ->
  stdin_fd (priv (execution evs)) = -1 ->
  spawn_ok (spawned os) = false ->
  let w := execution evs in
  let nice := CLAMP (nice_conf os) (-20) 19 in
  exists w',
    pk_spawn_argv loop argv envp os w rest = Returned false w' rest /\
    priv w' = set_finished false (priv w) /\
    sources w' = sources w /\
    log w' = (if nice =? 0 then [] else [SysSetpriority (-1) nice])
               ++ SysSpawn argv envp false :: log w.
Proof.
  intros Hg Hfd Hok. cbn zeta.
  destruct (child_present_execution evs Hg) as [_ (Ha & _)].
  apply Ha in Hfd as Hpid.
  destruct (failed_launch_without_instance_gen loop argv envp os
              (execution evs) rest Hfd Hok) as (w' & E & Hw' & Hs & Hl).
  exists w'. rewrite Hpid in Hl. by repeat split.
Qed.

Lemma failed_launch_without_instance_witness :
  Forall (launch_meets sane_spawn) one_child /\
  stdin_fd (priv (execution one_child)) = -1 /\
  spawn_ok (spawned os_failed) = false /\
  let w := execution one_child in
  let nice := CLAMP (nice_conf os_failed) (-20) 19 in
  exists w',
    pk_spawn_argv (g_main_loop_run 1) helper None os_failed w [] = Returned false w' [] /\
    priv w' = set_finished false (priv w) /\
    sources w' = sources w /\
    log w' = (if nice =? 0 then [] else [SysSetpriority (-1) nice])
               ++ SysSpawn helper None false :: log w.
Proof.
  split; [exact one_child_sane|]. split; [vm_compute; reflexivity|].
  split; [vm_compute; reflexivity|].
  apply (failed_launch_without_instance one_child (g_main_loop_run 1) helper None
           os_failed [] one_child_sane); vm_compute; reflexivity.
Defined.

(** X11: [pk_spawn_kill] looks at [finished] only, not at whether a child
    is there.  On a spawner without instance whose [finished] is FALSE, as
    a new one is and as a launch whose spawn fails leaves it, it sends
    SIGQUIT to the process id -1 and classifies the spawner "sigquit". *)
Theorem kill_without_instance (evs : list event) (kr : kill_result) :
  Forall (launch_meets sane_spawn) evs ->
  stdin_fd (priv (execution evs)) = -1 ->
  let sent w w' :=
    log w' = SysKill (-1) SIGQUIT :: log w /\
    exit (priv w') = PK_SPAWN_EXIT_TYPE_SIGQUIT in
  (finished (priv (execution evs)) = false ->
   sent (execution evs) (pk_spawn_kill kr (execution evs)).2) /\
  (forall loop argv envp os rest, spawn_ok (spawned os) = false ->
   let w := world_of (pk_spawn_argv loop argv envp os (execution evs) rest) in
   sent w (pk_spawn_kill kr w).2).
Proof.
  intros Hg Hfd. cbn zeta.
  destruct (child_present_execution evs Hg) as [_ (Ha & _)].
  apply Ha in Hfd as Hpid.
  assert (Hkill : forall w, child_pid (priv w) = -1 -> finished (priv w) = false ->
            log (pk_spawn_kill kr w).2 = SysKill (-1) SIGQUIT :: log w /\
            exit (priv (pk_spawn_kill kr w).2) = PK_SPAWN_EXIT_TYPE_SIGQUIT).
  { intros w Hp Hf. unfold pk_spawn_kill. rewrite Hf.
    replace (child_pid (priv (upd (set_exit PK_SPAWN_EXIT_TYPE_SIGQUIT) w)))
      with (child_pid (priv w)) by (cbn; by destruct (priv w)).
    rewrite Hp.
    destruct (kill_ret kr =? EINVAL); [|destruct (kill_ret kr =? EPERM)];
      cbn [snd g_timeout_add eff upd log priv]; split; try reflexivity;
      by destruct (priv w). }
  split; [by apply Hkill|].
  intros loop argv envp os rest Hok.
  destruct (failed_launch_without_instance_gen loop argv envp os
              (execution evs) rest Hfd Hok) as (w' & E & Hw' & _).
  rewrite E. cbn [world_of]. apply Hkill; rewrite Hw'.
  - rewrite <- Hpid. by destruct (priv (execution evs)).
  - by destruct (priv (execution evs)).
Qed.

Lemma kill_without_instance_witness :
  Forall (launch_meets sane_spawn) [] /\
  stdin_fd (priv (execution [])) = -1 /\
  finished (priv (execution [])) = false /\
  log (pk_spawn_kill kill_ok (execution [])).2
    = SysKill (-1) SIGQUIT :: log (execution []) /\
  exit (priv (pk_spawn_kill kill_ok (execution [])).2) = PK_SPAWN_EXIT_TYPE_SIGQUIT.
Proof.
  split; [constructor|]. split; [vm_compute; reflexivity|].
  split; [vm_compute; reflexivity|].
  apply (kill_without_instance [] kill_ok (List.Forall_nil _));
    vm_compute; reflexivity.
Defined.

(** ** Two kills and the timer of the first *)

Section StaleTimer.

Lemma reap_child_sources_eq (status : Z) (w : World) :
  sources (reap_child status w) =
  (if negb (kill_id (priv w) =? 0) then delete (kill_id (priv w)) else fun m => m)
    ((if 0 <? poll_id (priv w) then delete (poll_id (priv w)) else fun m => m)
       (sources w)).
Proof.
  destruct w as [p src nid lg]. unfold reap_child.
  cbn [priv]. destruct (0 <? poll_id p); cbn [priv upd eff g_source_remove];
    rewrite (classify_status_frame status (set_child_pid _ _));
    destruct p; cbn; destruct (negb _); reflexivity.
Qed.

Lemma kill_twice_world (kr1 kr2 : kill_result) (w : World) :
  finished (priv w) = false -> posix_kill kr1 -> posix_kill kr2 ->
  let t := next_source_id w in
  let w2 := (pk_spawn_kill kr2 (pk_spawn_kill kr1 w).2).2 in
  sources w2 = <[t + 1 := SigkillCb]> (<[t := SigkillCb]> (sources w)) /\
  next_source_id w2 = t + 2 /\
  priv w2 = set_kill_id (t + 1) (set_exit PK_SPAWN_EXIT_TYPE_SIGQUIT (priv w)) /\
  log w2 = SysKill (child_pid (priv w)) SIGQUIT
             :: SysKill (child_pid (priv w)) SIGQUIT :: log w.
Proof.
  intros Hf H1 H2. cbn zeta.
  rewrite (kill_posix_installs_timer kr1 w Hf H1). cbn [snd].
  rewrite kill_posix_installs_timer; [|cbn; by destruct (priv w)|exact H2].
  cbn [snd g_timeout_add upd eff priv sources next_source_id log].
  destruct (priv w). cbn. repeat split. lia.
Qed.

Lemma launch_without_instance_world
    (loop : World -> list event -> outcome unit)
    (argv : list string) (envp : option (list string)) (os : argv_os)
    (w : World) (rest : list event) :
  stdin_fd (priv w) = -1 -> poll_id (priv w) = 0 ->
  spawn_ok (spawned os) = true ->
  exists w',
    pk_spawn_argv loop argv envp os w rest = Returned true w' rest /\
    sources w' = <[next_source_id w := CheckChild]> (sources w) /\
    child_pid (priv w') = new_pid (spawned os) /\
    finished (priv w') = false /\
    exit (priv w') = exit (priv w) /\
    stdout_buf (priv w') = stdout_buf (priv w).
Proof.
  intros Hfd Hp Hok. unfold pk_spawn_argv. rewrite Hfd. cbn [Z.eqb negb].
  unfold spawn_instance. cbn zeta. rewrite Hok. cbn [negb].
  destruct w as [[] src nid lg]. cbn in Hp. subst.
  destruct (negb (CLAMP _ _ _ =? 0)); cbn; eexists; repeat split.
Qed.

End StaleTimer.

(** X12: the timer of a first kill survives a second kill and the reap.
    When a running child is killed twice and then reaped, the reap cancels
    the timer of the second kill only; the first one stays registered, and
    once another child has been launched its firing sends SIGKILL to that
    child and classifies the spawner "sigkill". *)
Theorem second_kill_leaks_timer (evs : list event)
    (kr1 kr2 kr3 kr4 : kill_result) (o o' : poll_obs)
    (loop : World -> list event -> outcome unit)
    (argv : list string) (envp : option (list string)) (os : argv_os)
    (rest : list event) :
  let w := execution evs in
  stdin_fd (priv w) <> -1 ->
  posix_kill kr1 -> posix_kill kr2 ->
  wait_ret o = child_pid (priv w) ->
  spawn_ok (spawned os) = true ->
  let t := next_source_id w in
  let w2 := (pk_spawn_kill kr2 (pk_spawn_kill kr1 w).2).2 in
  let w3 := dispatch_source (poll_id (priv w)) o kr3 w2 in
  let w4 := world_of (pk_spawn_argv loop argv envp os w3 rest) in
  let w5 := dispatch_source t o' kr4 w4 in
  finished (priv w3) = true /\ kill_id (priv w3) = 0 /\
  sources w3 !! t = Some SigkillCb /\
  log w5 = SysKill (new_pid (spawned os)) SIGKILL :: Fired t SigkillCb :: log w4 /\
  exit (priv w5) = PK_SPAWN_EXIT_TYPE_SIGKILL.
Proof.
  cbn zeta. set (w := execution evs). intros Hfd Hk1 Hk2 Hwait Hok.
  assert (Hp : polled w) by apply polled_main_context, polled_new.
  pose proof Hp as (H1 & H2 & H3 & H4 & H5).
  pose proof (H4 (H5 Hfd)) as Hsrc. destruct (H3 _ Hsrc) as [_ Hfin].
  pose proof (H2 _ _ Hsrc) as Hrange.
  destruct (kill_twice_world kr1 kr2 w Hfin Hk1 Hk2) as (Hs2 & Hn2 & Hp2 & Hl2).
  cbn zeta in Hs2, Hn2, Hp2, Hl2.
  set (w2 := (pk_spawn_kill kr2 (pk_spawn_kill kr1 w).2).2) in *.
  assert (Hpol2 : polled w2) by (subst w2; by do 2 apply polled_kill).
  assert (Hpid2 : poll_id (priv w2) = poll_id (priv w))
    by (rewrite Hp2; by destruct (priv w)).
  assert (Hsrc2 : sources w2 !! poll_id (priv w) = Some CheckChild).
  { rewrite Hs2, !lookup_insert_ne by lia. exact Hsrc. }
  assert (Hfin2 : finished (priv w2) = false) by (rewrite Hp2; by destruct (priv w)).
  assert (Hcp2 : child_pid (priv w2) = child_pid (priv w))
    by (rewrite Hp2; by destruct (priv w)).
  destruct (dispatch_source_cases (poll_id (priv w)) o kr3 w2)
    as [[? _]|[[? _]|[(_&?&_)|[(_&_&?&_)|(_&_&_&E3)]]]]; try congruence.
  set (w3 := dispatch_source (poll_id (priv w)) o kr3 w2) in *.
  destruct (reap_dispatch_fields (poll_id (priv w)) o w2 Hpol2 Hsrc2)
    as (Hpoll3 & Hpid3 & Hin3 & _ & Hkid3 & Hfin3).
  cbn zeta in Hpoll3, Hpid3, Hin3, Hkid3, Hfin3. rewrite <- E3 in *.
  assert (Hs3 : sources w3 !! next_source_id w = Some SigkillCb).
  { rewrite E3, sources_remove, reap_child_sources_eq.
    autorewrite with world. rewrite drained_sources. cbn [eff sources].
    replace (kill_id (set_stdout_buf _ (priv w2))) with (next_source_id w + 1)
      by (rewrite Hp2; by destruct (priv w)).
    replace (poll_id (set_stdout_buf _ (priv w2))) with (poll_id (priv w))
      by (rewrite Hp2; by destruct (priv w)).
    assert ((next_source_id w + 1 =? 0) = false) as -> by lia.
    assert ((0 <? poll_id (priv w)) = true) as -> by lia.
    cbn [negb]. rewrite !lookup_delete_ne by lia.
    rewrite Hs2, lookup_insert_ne by lia. by rewrite lookup_insert_eq. }
  assert (Hn3 : next_source_id w3 = next_source_id w + 2).
  { rewrite E3, next_remove, reap_child_next. unfold drained.
    rewrite next_upd, next_emit_stdout. exact Hn2. }
  split; [exact Hfin3|split; [exact Hkid3|split; [exact Hs3|]]].
  destruct (launch_without_instance_world loop argv envp os w3 rest Hin3 Hpoll3 Hok)
    as (w4 & E4 & Hs4 & Hpid4 & Hfin4 & _ & _).
  rewrite E4. cbn [world_of].
  assert (Hsrc4 : sources w4 !! next_source_id w = Some SigkillCb).
  { rewrite Hs4, lookup_insert_ne by lia. exact Hs3. }
  destruct (dispatch_source_cases (next_source_id w) o' kr4 w4)
    as [[? _]|[[_ E5]|[(?&_)|[(?&_)|(?&_)]]]]; try congruence.
  rewrite E5, sigkill_cb_world. cbn [eff priv]. rewrite Hfin4.
  cbn [g_source_remove eff upd log priv]. rewrite Hpid4.
  split; [reflexivity|by destruct (priv w4)].
Qed.

Lemma second_kill_leaks_timer_witness :
  let w := running in
  stdin_fd (priv w) <> -1 /\
  posix_kill kill_ok /\
  wait_ret (exited 100 0) = child_pid (priv w) /\
  spawn_ok (spawned (os_ok 101)) = true /\
  let t := next_source_id w in
  let w2 := (pk_spawn_kill kill_ok (pk_spawn_kill kill_ok w).2).2 in
  let w3 := dispatch_source (poll_id (priv w)) (exited 100 0) kill_ok w2 in
  let w4 := world_of (pk_spawn_argv (g_main_loop_run 1) helper None (os_ok 101) w3 []) in
  let w5 := dispatch_source t still_running kill_ok w4 in
  finished (priv w3) = true /\ kill_id (priv w3) = 0 /\
  sources w3 !! t = Some SigkillCb /\
  log w5 = SysKill (new_pid (spawned (os_ok 101))) SIGKILL
             :: Fired t SigkillCb :: log w4 /\
  exit (priv w5) = PK_SPAWN_EXIT_TYPE_SIGKILL.
Proof.
  assert (Hk : posix_kill kill_ok) by (left; reflexivity).
  split; [vm_compute; discriminate|]. split; [exact Hk|].
  split; [vm_compute; reflexivity|]. split; [vm_compute; reflexivity|].
  apply (second_kill_leaks_timer [launch 100] kill_ok kill_ok kill_ok kill_ok
           (exited 100 0) still_running (g_main_loop_run 1) helper None (os_ok 101) []);
    first [exact Hk | vm_compute; first [reflexivity | discriminate]].
Defined.

(** ** The end of a child *)

Section EndOfChild.

Lemma WEXITSTATUS_signalled (status : Z) :
  0 <= status < 256 -> WEXITSTATUS status = 0.
Proof.
  intros H. unfold WEXITSTATUS.
  change 65280 with (Z.shiftl (Z.ones 8) 8).
  rewrite Z.shiftr_land, Z.shiftr_shiftl_l by lia.
  rewrite Z.shiftr_div_pow2 by lia. change (2 ^ 8) with 256.
  rewrite Z.div_small by lia. apply Z.land_0_l.
Qed.

(** The reap tick, as the main context dispatches it on a polled spawner. *)
Lemma reap_dispatch_log (id : Z) (o : poll_obs) (kr : kill_result) (w : World) :
  sources w !! id = Some CheckChild -> finished (priv w) = false ->
  wait_ret o = child_pid (priv w) ->
  let d := drained o (eff (Fired id CheckChild) w) in
  let w' := dispatch_source id o kr w in
  log w' = EmitExit (exit (priv w')) :: SysClose (stdout_fd (priv w))
             :: SysClose (stdin_fd (priv w)) :: log d /\
  exit (priv w') = exit (quit_exit_loop (classify_status (wait_status o) (priv w))) /\
  stdout_buf (priv w') = stdout_buf (priv d).
Proof.
  intros Hsrc Hfin Hwait. cbn zeta.
  destruct (dispatch_source_cases id o kr w)
    as [[? _]|[[? _]|[(_&?&_)|[(_&_&?&_)|(_&_&_&->)]]]]; try congruence.
  rewrite log_remove, priv_remove, reap_child_log.
  destruct (reap_child_fields (wait_status o) (drained o (eff (Fired id CheckChild) w)))
    as (_&_&_&_&_&_&_&_&Hbuf&_&_&Hex).
  cbn zeta in Hbuf, Hex. rewrite Hbuf, Hex. autorewrite with world.
  rewrite !quit_exit_loop_exit, !classify_status_exit_loop,
    !classify_status_changing, !classify_status_sending, !classify_status_exit.
  destruct (priv w). cbn. repeat split.
Qed.

End EndOfChild.

(** X13: the text after the last newline is not emitted when the child
    exits: the reap tick emits the complete lines, closes the pipes and
    emits the exit, and leaves that text in the buffer, where it is still
    found once another child has been launched. *)
Theorem partial_line_outlives_child (evs : list event)
    (o : poll_obs) (kr : kill_result)
    (loop : World -> list event -> outcome unit)
    (argv : list string) (envp : option (list string)) (os : argv_os)
    (rest : list event) :
  let w := execution evs in
  let data := stdout_buf (priv w) +:+ str_concat (c_str <$> reads o) in
  stdin_fd (priv w) <> -1 ->
  wait_ret o = child_pid (priv w) ->
  Z.of_nat (String.length data) < 2 ^ 32 ->
  spawn_ok (spawned os) = true ->
  let w1 := dispatch_source (poll_id (priv w)) o kr w in
  let w2 := world_of (pk_spawn_argv loop argv envp os w1 rest) in
  exists lines last,
    data = unlines lines +:+ last /\ str_mem LF last = false /\
    log w1 = EmitExit (exit (priv w1)) :: SysClose (stdout_fd (priv w))
               :: SysClose (stdin_fd (priv w))
               :: rev (EmitStdout <$> lines)
               ++ Fired (poll_id (priv w)) CheckChild :: log w /\
    stdout_buf (priv w1) = last /\ stdout_buf (priv w2) = last.
Proof.
  cbn zeta. set (w := execution evs). intros Hfd Hwait Hlen Hok.
  assert (Hp : polled w) by apply polled_main_context, polled_new.
  pose proof Hp as (H1 & H2 & H3 & H4 & H5).
  pose proof (H4 (H5 Hfd)) as Hsrc. destruct (H3 _ Hsrc) as [_ Hfin].
  assert (Hnul : str_mem NUL (stdout_buf (priv w)) = false).
  { exact (buffer_is_text_execution evs). }
  set (data := stdout_buf (priv w) +:+ str_concat (c_str <$> reads o)) in *.
  assert (Hd : str_mem NUL data = false)
    by (subst data; by rewrite str_mem_app, Hnul, str_concat_no_nul).
  destruct (emit_whole_lines_split data Hd Hlen) as (lines & last & Hs & He).
  destruct (split_nl_shape data) as (i & l & Hs' & Hj & Hlf & _).
  rewrite Hs in Hs'. apply app_inj_tail in Hs' as [<- <-].
  apply Forall_app in Hlf as [_ Hlf]. inversion Hlf as [|? ? Hlast _]; subst.
  destruct (reap_dispatch_log (poll_id (priv w)) o kr w Hsrc Hfin Hwait)
    as (Hlog & _ & Hbuf).
  cbn zeta in Hlog, Hbuf.
  assert (Hdr : drained o (eff (Fired (poll_id (priv w)) CheckChild) w) =
                mkWorld (set_stdout_buf last (priv w)) (sources w) (next_source_id w)
                  (rev (EmitStdout <$> lines)
                     ++ Fired (poll_id (priv w)) CheckChild :: log w)).
  { unfold drained. cbn [eff priv]. rewrite read_fd_concat. fold data. rewrite He.
    cbn [fst snd]. by rewrite emit_stdout_world. }
  rewrite Hdr in Hlog, Hbuf. cbn [log priv] in Hlog, Hbuf.
  replace (stdout_buf (set_stdout_buf last (priv w))) with last in Hbuf
    by (by destruct (priv w)).
  exists lines, last. split; [exact Hj|split; [exact Hlast|split; [exact Hlog|]]].
  split; [exact Hbuf|].
  destruct (reap_dispatch_fields (poll_id (priv w)) o w Hp Hsrc)
    as (Hpoll & _ & Hin & _).
  cbn zeta in Hpoll, Hin.
  destruct (dispatch_source_cases (poll_id (priv w)) o kr w)
    as [[? _]|[[? _]|[(_&?&_)|[(_&_&?&_)|(_&_&_&E)]]]]; try congruence.
  rewrite <- E in Hpoll, Hin.
  destruct (launch_without_instance_world loop argv envp os _ rest Hin Hpoll Hok)
    as (w2 & E2 & _ & _ & _ & _ & Hbuf2).
  rewrite E2. cbn [world_of]. by rewrite Hbuf2.
Qed.

Lemma partial_line_outlives_child_witness :
  let w := running in
  let data := stdout_buf (priv w) +:+ str_concat (c_str <$> reads last_words) in
  stdin_fd (priv w) <> -1 /\
  wait_ret last_words = child_pid (priv w) /\
  Z.of_nat (String.length data) < 2 ^ 32 /\
  spawn_ok (spawned (os_ok 101)) = true /\
  let w1 := dispatch_source (poll_id (priv w)) last_words kill_ok w in
  let w2 := world_of (pk_spawn_argv (g_main_loop_run 1) helper None (os_ok 101) w1 []) in
  exists lines last,
    data = unlines lines +:+ last /\ str_mem LF last = false /\
    log w1 = EmitExit (exit (priv w1)) :: SysClose (stdout_fd (priv w))
               :: SysClose (stdin_fd (priv w))
               :: rev (EmitStdout <$> lines)
               ++ Fired (poll_id (priv w)) CheckChild :: log w /\
    stdout_buf (priv w1) = last /\ stdout_buf (priv w2) = last.
Proof.
  split; [vm_compute; discriminate|]. split; [vm_compute; reflexivity|].
  split; [vm_compute; reflexivity|]. split; [vm_compute; reflexivity|].
  apply (partial_line_outlives_child [launch 100] last_words kill_ok
           (g_main_loop_run 1) helper None (os_ok 101) []);
    vm_compute; first [reflexivity | discriminate].
Defined.

(** X14: the reap looks at the exit-code byte of the status only.  A
    status whose exit-code byte is 0, as that of a child terminated by a
    signal is, makes an unclassified spawner "success" when no graceful
    exit is waiting, and that is what the exit signal carries. *)
Theorem signalled_child_is_success (evs : list event) (o : poll_obs) (kr : kill_result) :
  let w := execution evs in
  stdin_fd (priv w) <> -1 ->
  wait_ret o = child_pid (priv w) ->
  0 <= wait_status o < 256 ->
  exit (priv w) = PK_SPAWN_EXIT_TYPE_UNKNOWN ->
  exit_loop (priv w) = false ->
  let w' := dispatch_source (poll_id (priv w)) o kr w in
  exit (priv w') = PK_SPAWN_EXIT_TYPE_SUCCESS /\
  exists l, log w' = EmitExit PK_SPAWN_EXIT_TYPE_SUCCESS :: l.
Proof.
  cbn zeta. set (w := execution evs). intros Hfd Hwait Hst Hex Hloop.
  assert (Hp : polled w) by apply polled_main_context, polled_new.
  pose proof Hp as (H1 & H2 & H3 & H4 & H5).
  pose proof (H4 (H5 Hfd)) as Hsrc. destruct (H3 _ Hsrc) as [_ Hfin].
  destruct (reap_dispatch_log (poll_id (priv w)) o kr w Hsrc Hfin Hwait)
    as (Hlog & Hexit & _).
  cbn zeta in Hlog, Hexit.
  assert (E : exit (priv (dispatch_source (poll_id (priv w)) o kr w))
              = PK_SPAWN_EXIT_TYPE_SUCCESS).
  { rewrite Hexit, quit_exit_loop_exit, classify_status_exit_loop, Hloop.
    rewrite classify_status_exit, Hex, (WEXITSTATUS_signalled _ Hst).
    reflexivity. }
  split; [exact E|]. rewrite Hlog, E. eauto.
Qed.

Lemma signalled_child_is_success_witness :
  let w := running in
  stdin_fd (priv w) <> -1 /\
  wait_ret (signalled 100) = child_pid (priv w) /\
  0 <= wait_status (signalled 100) < 256 /\
  exit (priv w) = PK_SPAWN_EXIT_TYPE_UNKNOWN /\
  exit_loop (priv w) = false /\
  let w' := dispatch_source (poll_id (priv w)) (signalled 100) kill_ok w in
  exit (priv w') = PK_SPAWN_EXIT_TYPE_SUCCESS /\
  exists l, log w' = EmitExit PK_SPAWN_EXIT_TYPE_SUCCESS :: l.
Proof.
  split; [vm_compute; discriminate|]. split; [vm_compute; reflexivity|].
  split; [simpl; lia|]. split; [vm_compute; reflexivity|].
  split; [vm_compute; reflexivity|].
  apply (signalled_child_is_success [launch 100] (signalled 100) kill_ok);
    first [simpl; lia | vm_compute; first [reflexivity | discriminate]].
Defined.

(** X15: a graceful exit whose exit line is not written in full returns
    FALSE at once: the exit loop is not run, no event of the main context
    is consumed, and the spawner is as before but for the logged write. *)
Theorem exit_gives_up_on_short_write
    (loop : World -> list event -> outcome unit)
    (wrote : Z) (w : World) (evs : list event) :
  is_sending_exit (priv w) = false ->
  finished (priv w) = false ->
  -1 <= wrote < 5 ->
  pk_spawn_exit loop wrote w evs =
  Returned false
    (eff (SysWrite (stdin_fd (priv w)) ("exit" +:+ String LF EmptyString) wrote) w) evs.
Proof.
  intros Hs Hf Hw. unfold pk_spawn_exit, pk_spawn_send_stdin. rewrite Hs.
  cbn [upd priv].
  replace (finished (set_is_sending_exit true (priv w))) with false
    by (by destruct (priv w)).
  assert (Hne : (guint (gint wrote) =? guint (strlen ("exit" +:+ String LF EmptyString)))
                = false).
  { apply Z.eqb_neq. unfold guint, gint. change (strlen _) with 5.
    assert (wrote = -1 \/ wrote = 0 \/ wrote = 1 \/ wrote = 2 \/ wrote = 3 \/ wrote = 4)
      as [->|[->|[->|[->|[->| ->]]]]] by lia; by vm_compute. }
  change (c_str "exit") with "exit"%string. rewrite Hne. cbn [negb fst snd].
  destruct w as [[] src nid lg]. cbn in Hs. subst. reflexivity.
Qed.

Lemma exit_gives_up_on_short_write_witness :
  is_sending_exit (priv running) = false /\
  finished (priv running) = false /\
  -1 <= -1 < 5 /\
  pk_spawn_exit (g_main_loop_run 1) (-1) running [Dispatch 1 (exited 100 0) kill_ok] =
  Returned false
    (eff (SysWrite (stdin_fd (priv running)) ("exit" +:+ String LF EmptyString) (-1))
       running)
    [Dispatch 1 (exited 100 0) kill_ok].
Proof.
  split; [vm_compute; reflexivity|]. split; [vm_compute; reflexivity|].
  split; [lia|].
  apply (exit_gives_up_on_short_write (g_main_loop_run 1) (-1) running);
    first [lia | vm_compute; reflexivity].
Defined.

(** ** Writing to the child *)

Section SendStdin.

Lemma guint_gint (z : Z) : guint (gint z) = guint z.
Proof.
  unfold guint, gint. rewrite Zminus_mod_idemp_l.
  replace (z + 2 ^ 31 - 2 ^ 31) with z by lia. reflexivity.
Qed.

Lemma strlen_line (command : string) :
  strlen (c_str command +:+ String LF EmptyString) = strlen command + 1.
Proof.
  unfold strlen. rewrite (c_str_id (c_str command +:+ _)).
  - rewrite str_length_app. cbn [String.length]. lia.
  - by rewrite str_mem_app, c_str_no_nul.
Qed.

End SendStdin.

(** X16: a write to the child is all or nothing and is made once.  On a
    spawner that has not finished, [pk_spawn_send_stdin] writes the command
    up to its first NUL and a newline in one [write]; it returns TRUE
    exactly when [write] reports the full length (the line being shorter
    than 4 GiB - 1), and after a short or failed write it does not write
    again. *)
Theorem send_stdin_all_or_nothing (command : string) (wrote : Z) (w : World) :
  finished (priv w) = false ->
  strlen command + 1 < 2 ^ 32 - 1 ->
  -1 <= wrote <= strlen command + 1 ->
  pk_spawn_send_stdin command wrote w =
  (bool_decide (wrote = strlen command + 1),
   eff (SysWrite (stdin_fd (priv w)) (c_str command +:+ String LF EmptyString) wrote) w).
Proof.
  intros Hf Hlen Hw. unfold pk_spawn_send_stdin. rewrite Hf.
  rewrite guint_gint, strlen_line.
  assert (0 <= strlen command) by (unfold strlen; lia).
  assert (Hl : guint (strlen command + 1) = strlen command + 1)
    by (unfold guint; apply Z.mod_small; lia).
  rewrite Hl. case_bool_decide as Hd.
  - subst wrote. rewrite Hl, Z.eqb_refl. reflexivity.
  - assert (Hne : (guint wrote =? strlen command + 1) = false).
    { apply Z.eqb_neq. unfold guint.
      destruct (Z.eq_dec wrote (-1)) as [->|Hm]; [change ((-1) mod 2 ^ 32) with (2 ^ 32 - 1); lia|].
      rewrite Z.mod_small by lia. exact Hd. }
    rewrite Hne. reflexivity.
Qed.

Lemma send_stdin_all_or_nothing_witness :
  finished (priv running) = false /\
  strlen "get-updates" + 1 < 2 ^ 32 - 1 /\
  -1 <= 7 <= strlen "get-updates" + 1 /\
  pk_spawn_send_stdin "get-updates" 7 running =
  (bool_decide (7 = strlen "get-updates" + 1),
   eff (SysWrite (stdin_fd (priv running))
          (c_str "get-updates" +:+ String LF EmptyString) 7) running).
Proof.
  split; [vm_compute; reflexivity|].
  split; [change (strlen "get-updates") with 11; lia|].
  split; [change (strlen "get-updates") with 11; lia|].
  apply (send_stdin_all_or_nothing "get-updates" 7 running);
    first [change (strlen "get-updates") with 11; lia | vm_compute; reflexivity].
Defined.

(** ** The end of the spawner *)

(** X17: [pk_spawn_finalize] leaves no poll source behind and reaps
    nothing.  On a spawner without instance it does nothing to the system;
    on a running one it sends SIGQUIT once, emits no exit and closes no
    pipe, and when [kill] answers as POSIX has it the SIGKILL timer it has
    just installed stays in the main context. *)
Theorem finalize_leaves_sigkill_timer (evs : list event) (kr : kill_result) :
  let w := execution evs in
  let w' := pk_spawn_finalize kr w in
  (forall id, sources w' !! id <> Some CheckChild) /\
  (stdin_fd (priv w) = -1 -> log w' = log w) /\
  (stdin_fd (priv w) <> -1 ->
   log w' = SysKill (child_pid (priv w)) SIGQUIT :: log w /\
   (posix_kill kr -> sources w' !! next_source_id w = Some SigkillCb)).
Proof.
  cbn zeta. set (w := execution evs).
  assert (Hp : polled w) by apply polled_main_context, polled_new.
  pose proof Hp as (H1 & H2 & H3 & H4 & H5).
  unfold pk_spawn_finalize. cbn zeta.
  set (w1 := if negb (poll_id (priv w) =? 0) then _ else _).
  assert (Hw1 : priv w1 = priv w /\ log w1 = log w /\
                next_source_id w1 = next_source_id w /\
                forall id, sources w1 !! id <> Some CheckChild).
  { unfold w1. destruct (Z.eqb_spec (poll_id (priv w)) 0) as [E|E]; cbn [negb].
    - split; [reflexivity|split; [reflexivity|split; [reflexivity|]]].
      intros id Hs. destruct (H3 id Hs) as [-> _].
      apply H2 in Hs. lia.
    - split; [reflexivity|split; [reflexivity|split; [reflexivity|]]].
      intros id Hs. cbn [g_source_remove sources] in Hs.
      apply lookup_delete_Some in Hs as [Hne Hs].
      destruct (H3 id Hs) as [-> _]. congruence. }
  destruct Hw1 as (Hpr1 & Hl1 & Hn1 & Hs1).
  set (w2 := if negb (kill_id (priv w1) =? 0) then _ else _).
  assert (Hw2 : priv w2 = priv w /\ log w2 = log w /\
                next_source_id w2 = next_source_id w /\
                forall id, sources w2 !! id <> Some CheckChild).
  { unfold w2. destruct (negb (kill_id (priv w1) =? 0)); [|by repeat split].
    split; [exact Hpr1|split; [exact Hl1|split; [exact Hn1|]]].
    intros id Hs. cbn [g_source_remove sources] in Hs.
    apply lookup_delete_Some in Hs as [_ Hs]. by apply Hs1 in Hs. }
  destruct Hw2 as (Hpr2 & Hl2 & Hn2 & Hs2). rewrite Hpr2.
  assert (Hkill : forall id, sources (pk_spawn_kill kr w2).2 !! id <> Some CheckChild).
  { intros id. destruct (kill_world kr w2) as [->|[->| ->]]; [apply Hs2|apply Hs2|].
    cbn [g_timeout_add snd upd eff sources]. intros Hs.
    apply lookup_insert_Some in Hs as [[_ [=]]|[_ Hs]]. by apply Hs2 in Hs. }
  split; [|split].
  - intros id. destruct (negb (stdin_fd (priv w) =? -1)); [apply Hkill|apply Hs2].
  - intros ->. exact Hl2.
  - intros Hfd. apply Z.eqb_neq in Hfd as Hfd'. rewrite Hfd'. cbn [negb].
    destruct (H3 _ (H4 (H5 Hfd))) as [_ Hfin].
    assert (Hfin2 : finished (priv w2) = false) by (by rewrite Hpr2).
    split.
    + unfold pk_spawn_kill. rewrite Hfin2.
      replace (child_pid (priv (upd (set_exit PK_SPAWN_EXIT_TYPE_SIGQUIT) w2)))
        with (child_pid (priv w)) by (cbn; rewrite Hpr2; by destruct (priv w)).
      repeat case_match; cbn [snd g_timeout_add upd eff log]; by rewrite Hl2.
    + intros Hk. rewrite (kill_posix_installs_timer kr w2 Hfin2 Hk).
      cbn [snd g_timeout_add upd eff sources next_source_id]. rewrite Hn2.
      apply lookup_insert_eq.
Qed.

(** ** A kill from SIGQUIT to the exit signal *)

(** X18: two courses of a kill of a running child, with no exit loop
    running.  When the poll tick reaps the child right after the kill, the
    exit signal says "sigquit" and the reap has taken the SIGKILL timer
    away; when instead the timer fires right after the kill, SIGKILL goes
    to the child, the timer is gone, and the exit signal of a reap right
    after that says "sigkill". *)
Theorem kill_then_reap_and_timer_then_reap (evs : list event)
    (kr kr1 kr2 kr3 : kill_result) (o o' : poll_obs) :
  let w := execution evs in
  stdin_fd (priv w) <> -1 ->
  exit_loop (priv w) = false ->
  posix_kill kr ->
  wait_ret o = child_pid (priv w) ->
  let t := next_source_id w in
  let w1 := (pk_spawn_kill kr w).2 in
  let by_quit := dispatch_source (poll_id (priv w)) o kr1 w1 in
  let fired := dispatch_source t o' kr2 w1 in
  let by_kill := dispatch_source (poll_id (priv w)) o kr3 fired in
  (sources w1 !! t = Some SigkillCb /\
   (exists l, log by_quit = EmitExit PK_SPAWN_EXIT_TYPE_SIGQUIT :: l) /\
   sources by_quit !! t = None) /\
  (log fired = SysKill (child_pid (priv w)) SIGKILL :: Fired t SigkillCb :: log w1 /\
   sources fired !! t = None /\
   exists l, log by_kill = EmitExit PK_SPAWN_EXIT_TYPE_SIGKILL :: l).
Proof.
  cbn zeta. set (w := execution evs). intros Hfd Hloop Hk Hwait.
  assert (Hp : polled w) by apply polled_main_context, polled_new.
  pose proof Hp as (H1 & H2 & H3 & H4 & H5).
  pose proof (H4 (H5 Hfd)) as Hsrc. destruct (H3 _ Hsrc) as [_ Hfin].
  pose proof (H2 _ _ Hsrc) as Hrange.
  rewrite (kill_posix_installs_timer kr w Hfin Hk). cbn [snd].
  set (w1 := upd _ _).
  assert (Hpr1 : priv w1 = set_kill_id (next_source_id w)
                             (set_exit PK_SPAWN_EXIT_TYPE_SIGQUIT (priv w)))
    by reflexivity.
  assert (Hs1 : sources w1 = <[next_source_id w := SigkillCb]> (sources w))
    by reflexivity.
  assert (Hsrc1 : sources w1 !! poll_id (priv w) = Some CheckChild)
    by (rewrite Hs1, lookup_insert_ne by lia; exact Hsrc).
  assert (Ht1 : sources w1 !! next_source_id w = Some SigkillCb)
    by (rewrite Hs1; apply lookup_insert_eq).
  assert (Hfin1 : finished (priv w1) = false) by (rewrite Hpr1; by destruct (priv w)).
  assert (Hcp1 : child_pid (priv w1) = child_pid (priv w))
    by (rewrite Hpr1; by destruct (priv w)).
  clearbody w1.
  assert (Hreap : forall kr' w0,
            sources w0 !! poll_id (priv w) = Some CheckChild ->
            finished (priv w0) = false -> child_pid (priv w0) = child_pid (priv w) ->
            exit_loop (priv w0) = false ->
            exit (priv w0) <> PK_SPAWN_EXIT_TYPE_UNKNOWN ->
            exists l, log (dispatch_source (poll_id (priv w)) o kr' w0)
                      = EmitExit (exit (priv w0)) :: l).
  { intros kr' w0 Hs0 Hf0 Hc0 Hl0 He0.
    destruct (reap_dispatch_log (poll_id (priv w)) o kr' w0 Hs0 Hf0)
      as (Hlog & Hexit & _); [congruence|].
    cbn zeta in Hlog, Hexit. rewrite Hlog, Hexit.
    rewrite quit_exit_loop_exit, classify_status_exit_loop, Hl0, classify_status_exit.
    case_bool_decide; [congruence|]. eauto. }
  split; [split; [exact Ht1|split]|split; [|split]].
  - destruct (Hreap kr1 w1 Hsrc1 Hfin1 Hcp1) as [l Hl].
    + rewrite Hpr1. by destruct (priv w).
    + rewrite Hpr1. by destruct (priv w).
    + exists l. rewrite Hl, Hpr1. by destruct (priv w).
  - destruct (dispatch_source_cases (poll_id (priv w)) o kr1 w1)
      as [[? _]|[[? _]|[(_&?&_)|[(_&_&?&_)|(_&_&_&->)]]]]; try congruence.
    rewrite sources_remove, reap_child_sources_eq. autorewrite with world.
    rewrite drained_sources. cbn [eff sources].
    replace (kill_id (set_stdout_buf _ (priv w1))) with (next_source_id w)
      by (rewrite Hpr1; by destruct (priv w)).
    assert ((next_source_id w =? 0) = false) as -> by lia. cbn [negb].
    rewrite lookup_delete_ne by lia. apply lookup_delete_eq.
  - destruct (dispatch_source_cases (next_source_id w) o' kr2 w1)
      as [[? _]|[[_ ->]|[(?&_)|[(?&_)|(?&_)]]]]; try congruence.
    rewrite sigkill_cb_world. cbn [eff priv]. rewrite Hfin1.
    cbn [g_source_remove eff upd log]. by rewrite Hcp1.
  - destruct (dispatch_source_cases (next_source_id w) o' kr2 w1)
      as [[? _]|[[_ ->]|[(?&_)|[(?&_)|(?&_)]]]]; try congruence.
    rewrite sources_remove. apply lookup_delete_eq.
  - destruct (dispatch_source_cases (next_source_id w) o' kr2 w1)
      as [[? _]|[[_ E]|[(?&_)|[(?&_)|(?&_)]]]]; try congruence.
    rewrite sigkill_cb_world in E. cbn [eff priv] in E. rewrite Hfin1 in E.
    set (w2 := dispatch_source (next_source_id w) o' kr2 w1) in *.
    assert (Hpr2 : priv w2 = set_exit PK_SPAWN_EXIT_TYPE_SIGKILL (priv w1))
      by (by rewrite E).
    destruct (Hreap kr3 w2) as [l Hl].
    + rewrite E. cbn [g_source_remove eff upd sources].
      rewrite lookup_delete_ne by lia. exact Hsrc1.
    + rewrite Hpr2, Hpr1. by destruct (priv w).
    + rewrite Hpr2, Hpr1. by destruct (priv w).
    + rewrite Hpr2, Hpr1. by destruct (priv w).
    + rewrite Hpr2. by destruct (priv w1).
    + exists l. rewrite Hl, Hpr2. by destruct (priv w1).
Qed.

Lemma kill_then_reap_and_timer_then_reap_witness :
  let w := running in
  stdin_fd (priv w) <> -1 /\
  exit_loop (priv w) = false /\
  posix_kill kill_ok /\
  wait_ret (exited 100 0) = child_pid (priv w) /\
  let t := next_source_id w in
  let w1 := (pk_spawn_kill kill_ok w).2 in
  let by_quit := dispatch_source (poll_id (priv w)) (exited 100 0) kill_ok w1 in
  let fired := dispatch_source t still_running kill_ok w1 in
  let by_kill := dispatch_source (poll_id (priv w)) (exited 100 0) kill_ok fired in
  (sources w1 !! t = Some SigkillCb /\
   (exists l, log by_quit = EmitExit PK_SPAWN_EXIT_TYPE_SIGQUIT :: l) /\
   sources by_quit !! t = None) /\
  (log fired = SysKill (child_pid (priv w)) SIGKILL :: Fired t SigkillCb :: log w1 /\
   sources fired !! t = None /\
   exists l, log by_kill = EmitExit PK_SPAWN_EXIT_TYPE_SIGKILL :: l).
Proof.
  assert (Hk : posix_kill kill_ok) by (left; reflexivity).
  split; [vm_compute; discriminate|]. split; [vm_compute; reflexivity|].
  split; [exact Hk|]. split; [vm_compute; reflexivity|].
  apply (kill_then_reap_and_timer_then_reap [launch 100] kill_ok kill_ok kill_ok kill_ok
           (exited 100 0) still_running);
    first [exact Hk | vm_compute; first [reflexivity | discriminate]].
Defined.
